(** * Resource adapters of terraform-provider-exoscale

    A shallow embedding of the security-group adapter
    (exoscale/resource_exoscale_security_group.go) and of the elastic-IP
    adapter (the Go source that follows the block-storage page in
    docs/resources/block_storage_volume.md), with the properties of their
    Create / Read / Update / Delete callbacks and of the security-group
    state upgrader.

    Conventions of the embedding:
    - a Go string is a [string] (a sequence of bytes);
    - a nilable pointer [*T] is an [option T];
    - a [schema.Set] of strings is a [gset string], a [map[string]string]
      a [gmap string string];
    - a callback is a computation in the monad [M]: it threads the state
      container [d] and the log of the remote calls issued so far, and it
      ends with a value or with a Go panic;
    - [context] deadlines and [tflog] output are not modelled: they change
      neither the state container nor the calls that are issued. *)

From Stdlib Require Import ZArith Ascii String List Lia.
From stdpp Require Import base option list strings gmap.

Local Open Scope Z_scope.
Local Open Scope string_scope.
Local Open Scope list_scope.

(* ===================================================================== *)
(** ** Errors and diagnostics                                              *)
(* ===================================================================== *)

(** A Go [error] value, reduced to the two observations the adapters make
    of it: its text [err.Error()] and whether
    [errors.Is(err, exoapi.ErrNotFound)] holds. *)
Record error := mkError { Error : string; IsErrNotFound : bool }.

(** [errors.Is(err, exoapi.ErrNotFound)] *)
Definition errors_Is_ErrNotFound (err : error) : bool := IsErrNotFound err.

(** [fmt.Errorf(msg)] without a wrapping verb: a fresh error. *)
Definition fmt_Errorf (msg : string) : error :=
  {| Error := msg; IsErrNotFound := false |}.

Inductive Severity := SeverityError | SeverityWarning.

Record Diagnostic := mkDiagnostic { DiagSeverity : Severity; Summary : string }.

(** [diag.Diagnostics]; the [nil] slice is the empty list. *)
Definition Diagnostics := list Diagnostic.

(** [diag.FromErr(err)]: no diagnostic for a nil error. *)
Definition diag_FromErr (err : option error) : Diagnostics :=
  match err with
  | None => []
  | Some e => [ {| DiagSeverity := SeverityError; Summary := Error e |} ]
  end.

(** [diag.Errorf(format, err)] for a format that ends in [%s]. *)
Definition diag_Errorf (pfx : string) (err : error) : Diagnostics :=
  [ {| DiagSeverity := SeverityError; Summary := pfx +:+ Error err |} ].

(** [Diagnostics.HasError()] *)
Definition HasError (ds : Diagnostics) : bool :=
  existsb (fun dg => match DiagSeverity dg with
                     | SeverityError => true
                     | SeverityWarning => false
                     end) ds.

(* ===================================================================== *)
(** ** Remote objects (egoscale) and the remote client                     *)
(* ===================================================================== *)

(** [egoscale.SecurityGroup], the fields the adapter reads or writes. *)
Record SecurityGroup := mkSecurityGroup {
  SG_Description : option string;
  SG_ExternalSources : option (list string);
  SG_ID : option string;
  SG_Name : option string
}.

(** [egoscale.ElasticIPHealthcheck]. [Interval] and [Timeout] are
    [time.Duration] values (signed 64-bit nanoseconds), [Port] is a
    [uint16], the strike counters are [int64]. *)
Record ElasticIPHealthcheck := mkElasticIPHealthcheck {
  HC_Interval : option Z;
  HC_Mode : option string;
  HC_Port : option Z;
  HC_StrikesFail : option Z;
  HC_StrikesOK : option Z;
  HC_TLSSNI : option string;
  HC_TLSSkipVerify : option bool;
  HC_Timeout : option Z;
  HC_URI : option string
}.

(** [egoscale.ElasticIP]. [EIP_IPAddress] holds the [net.IP] through its
    [String()] rendering, the only use the adapter makes of it. *)
Record ElasticIP := mkElasticIP {
  EIP_AddressFamily : option string;
  EIP_CIDR : option string;
  EIP_Description : option string;
  EIP_Healthcheck : option ElasticIPHealthcheck;
  EIP_ID : option string;
  EIP_IPAddress : option string;
  EIP_Labels : option (gmap string string)
}.

(** [new(egoscale.ElasticIP)] *)
Definition new_ElasticIP : ElasticIP :=
  {| EIP_AddressFamily := None; EIP_CIDR := None; EIP_Description := None;
     EIP_Healthcheck := None; EIP_ID := None; EIP_IPAddress := None;
     EIP_Labels := None |}.

(** One remote call, with the arguments it was issued with (the context
    argument apart). *)
Inductive Call :=
| CreateSecurityGroup (zone : string) (sg : SecurityGroup)
| GetSecurityGroup (zone id : string)
| DeleteSecurityGroup (zone : string) (sg : SecurityGroup)
| AddExternalSourceToSecurityGroup (zone : string) (sg : SecurityGroup) (cidr : string)
| RemoveExternalSourceFromSecurityGroup (zone : string) (sg : SecurityGroup) (cidr : string)
| CreateElasticIP (zone : string) (eip : ElasticIP)
| GetElasticIP (zone id : string)
| UpdateElasticIP (zone : string) (eip : ElasticIP)
| DeleteElasticIP (zone : string) (eip : ElasticIP)
| UpdateElasticIPReverseDNS (zone id rdns : string)
| DeleteElasticIPReverseDNS (zone id : string)
| GetElasticIPReverseDNS (zone id : string).

(** The remote system, as the adapters see it through the client handle:
    the answer to each call, which may depend on the calls issued before
    it (first argument, oldest call first). *)
Record Client := mkClient {
  answer_CreateSecurityGroup :
    list Call -> string -> SecurityGroup -> error + SecurityGroup;
  answer_GetSecurityGroup :
    list Call -> string -> string -> error + SecurityGroup;
  answer_DeleteSecurityGroup :
    list Call -> string -> SecurityGroup -> option error;
  answer_AddExternalSourceToSecurityGroup :
    list Call -> string -> SecurityGroup -> string -> option error;
  answer_RemoveExternalSourceFromSecurityGroup :
    list Call -> string -> SecurityGroup -> string -> option error;
  answer_CreateElasticIP :
    list Call -> string -> ElasticIP -> error + ElasticIP;
  answer_GetElasticIP :
    list Call -> string -> string -> error + ElasticIP;
  answer_UpdateElasticIP :
    list Call -> string -> ElasticIP -> option error;
  answer_DeleteElasticIP :
    list Call -> string -> ElasticIP -> option error;
  answer_UpdateElasticIPReverseDNS :
    list Call -> string -> string -> string -> option error;
  answer_DeleteElasticIPReverseDNS :
    list Call -> string -> string -> option error;
  answer_GetElasticIPReverseDNS :
    list Call -> string -> string -> string * option error
}.

(* ===================================================================== *)
(** ** The monad of a callback                                             *)
(* ===================================================================== *)

(** How a Go function ends: with its result, or with a run-time panic. *)
Inductive Res (A : Type) :=
| Ok (a : A)
| Panic (msg : string).
Arguments Ok {A} a.
Arguments Panic {A} msg.

(** What a callback can change: the state container [d] it was handed
    (of type [RD], one per resource type) and the log of remote calls. *)
Record World (RD : Type) := mkWorld { w_d : RD; w_calls : list Call }.
Arguments mkWorld {RD} w_d w_calls.
Arguments w_d {RD} w.
Arguments w_calls {RD} w.

Definition M (RD A : Type) : Type := World RD -> Res A * World RD.

Global Instance M_ret {RD} : MRet (M RD) :=
  fun A (a : A) w => (Ok a, w).

Global Instance M_bind {RD} : MBind (M RD) :=
  fun A B (f : A -> M RD B) (m : M RD A) w =>
    match m w with
    | (Ok a, w') => f a w'
    | (Panic msg, w') => (Panic msg, w')
    end.

(** The state container of the running callback. *)
Definition get_d {RD} : M RD RD := fun w => (Ok (w_d w), w).

Definition modify_d {RD} (f : RD -> RD) : M RD unit :=
  fun w => (Ok tt, {| w_d := f (w_d w); w_calls := w_calls w |}).

(** Issue one remote call: the answer is the client's, for the calls
    issued so far, and the call is appended to the log. *)
Definition remote {RD A} (answer : list Call -> A) (c : Call) : M RD A :=
  fun w => (Ok (answer (w_calls w)), {| w_d := w_d w; w_calls := w_calls w ++ [c] |}).

(** The text of the run-time error of a nil dereference. *)
Definition nil_deref : string :=
  "runtime error: invalid memory address or nil pointer dereference".

(** [*p]: dereferencing a nil pointer panics. *)
Definition deref {RD A} (p : option A) : M RD A :=
  fun w => match p with
           | Some a => (Ok a, w)
           | None => (Panic nil_deref, w)
           end.

(** [for _, x := range l { if err := f(x); err != nil { return err } }]:
    the first failure ends the loop and is the result. *)
Fixpoint range_until_error {RD A} (f : A -> M RD (option error)) (l : list A)
  : M RD (option error) :=
  match l with
  | [] => mret None
  | x :: xs =>
      e ← f x;
      match e with
      | Some err => mret (Some err)
      | None => range_until_error f xs
      end
  end.

(* ===================================================================== *)
(** ** Helpers of the package                                              *)
(* ===================================================================== *)

(** Modelled from the spec: [nonEmptyStringPtr] is declared outside the
    two source files; it yields a nil pointer for the empty string and a
    pointer to the string otherwise (optional remote fields are nilable
    pointers). *)
Definition nonEmptyStringPtr (s : string) : option string :=
  if decide (s = "") then None else Some s.

(** Modelled from the spec: [defaultString] is declared outside the two
    source files; a nil pointer becomes the given default value ("nil
    pointer -> type-appropriate zero value, e.g., empty string"). *)
Definition defaultString (p : option string) (def : string) : string :=
  match p with Some s => s | None => def end.

(** Modelled from the spec: [defaultBool], as [defaultString]. *)
Definition defaultBool (p : option bool) (def : bool) : bool :=
  match p with Some b => b | None => def end.

(** [schema.Set.List()]: the elements, each once. The library lists them
    by the hash codes of the elements, sorted as text; that order is not
    in the adapter's source, and the order of [elements] stands for it:
    which elements a loop over the list visits does not depend on it,
    the order among them does. *)
Definition Set_List (s : gset string) : list string := elements s.

(** [schema.Set.Len()] *)
Definition Set_Len (s : gset string) : nat := size s.

(* ===================================================================== *)
(** ** strings.ToLower and strings.TrimSuffix                              *)
(* ===================================================================== *)

Section StringsToLower.

(** [strings.Map(unicode.ToLower, s)], the path [strings.ToLower] takes for
    a string that holds a byte outside ASCII. The Unicode case tables are
    the Go library's; the adapter only calls them. *)
Variable unicode_ToLower_Map : string -> string.

(** [c < utf8.RuneSelf] *)
Definition byte_is_ascii (c : ascii) : bool := (N_of_ascii c <? 128)%N.

(** ['A' <= c && c <= 'Z'] *)
Definition byte_is_upper (c : ascii) : bool :=
  ((65 <=? N_of_ascii c) && (N_of_ascii c <=? 90))%N.

(** [c += 'a' - 'A'] for an upper-case byte. *)
Definition byte_to_lower (c : ascii) : ascii :=
  if byte_is_upper c then ascii_of_N (N_of_ascii c + 32) else c.

Fixpoint isASCII (s : string) : bool :=
  match s with
  | EmptyString => true
  | String c s' => byte_is_ascii c && isASCII s'
  end.

Fixpoint hasUpper (s : string) : bool :=
  match s with
  | EmptyString => false
  | String c s' => byte_is_upper c || hasUpper s'
  end.

Fixpoint lower_bytes (s : string) : string :=
  match s with
  | EmptyString => EmptyString
  | String c s' => String (byte_to_lower c) (lower_bytes s')
  end.

(** [strings.ToLower]: an ASCII-only string is returned as it is when it
    has no upper-case letter and lowered byte by byte otherwise; any
    other string goes through the Unicode mapping. *)
Definition strings_ToLower (s : string) : string :=
  if isASCII s then
    if negb (hasUpper s) then s else lower_bytes s
  else unicode_ToLower_Map s.

End StringsToLower.

(** [strings.TrimSuffix(s, ".")]: one trailing dot is removed. *)
Fixpoint strings_TrimSuffix_dot (s : string) : string :=
  match s with
  | EmptyString => EmptyString
  | String c EmptyString => if Ascii.eqb c "."%char then EmptyString else s
  | String c s' => String c (strings_TrimSuffix_dot s')
  end.

(* ===================================================================== *)
(** ** exoscale_security_group                                             *)
(* ===================================================================== *)

Module SecurityGroupResource.

(** One level of attribute values of the schema
    [resourceSecurityGroupSchema]: every attribute at its schema type,
    an attribute that is not set being at the zero value of its type (as
    [d.Get] reports it). *)
Record Attrs := mkAttrs {
  name : string;
  description : string;
  external_sources : gset string
}.

(** [*schema.ResourceData] for this resource: the identifier, the prior
    state, the planned (desired) values, and the values written by
    [d.Set] during the callback, which [d.Get] reads first. *)
Record ResourceData := mkResourceData {
  Id : string;
  prior : Attrs;
  planned : Attrs;
  set_name : option string;
  set_description : option string;
  set_external_sources : option (gset string)
}.

Abbreviation Cb := (M ResourceData).

(** [d.Id()] *)
Definition d_Id : Cb string := d ← get_d; mret (Id d).

(** [d.SetId(v)] *)
Definition d_SetId (v : string) : Cb unit :=
  modify_d (fun d =>
    {| Id := v; prior := prior d; planned := planned d;
       set_name := set_name d; set_description := set_description d;
       set_external_sources := set_external_sources d |}).

(** [d.Get(resSecurityGroupAttrName).(string)] *)
Definition d_Get_name : Cb string :=
  d ← get_d; mret (default (name (planned d)) (set_name d)).

(** [d.Get(resSecurityGroupAttrDescription).(string)] *)
Definition d_Get_description : Cb string :=
  d ← get_d; mret (default (description (planned d)) (set_description d)).

(** [d.GetOk(resSecurityGroupAttrExternalSources)]: the value, and whether
    it is set to something else than the zero value (the empty set). *)
Definition d_GetOk_external_sources : Cb (gset string * bool) :=
  d ← get_d;
  let v := default (external_sources (planned d)) (set_external_sources d) in
  mret (v, bool_decide (v ≠ ∅)).

(** [d.GetChange(resSecurityGroupAttrExternalSources)]: the value in the
    prior state and the planned one. *)
Definition d_GetChange_external_sources : Cb (gset string * gset string) :=
  d ← get_d; mret (external_sources (prior d), external_sources (planned d)).

(** [d.HasChange(resSecurityGroupAttrExternalSources)]: the two values of
    [GetChange] differ (as sets: [schema.Set] has an [Equal] method). *)
Definition d_HasChange_external_sources : Cb bool :=
  '(o, n) ← d_GetChange_external_sources;
  mret (bool_decide (o ≠ n)).

(** [d.Set(key, value)] for the three attributes. The typed container
    leaves out the only failure of [d.Set], a value of the wrong type. *)
Definition d_Set_name (v : string) : Cb unit :=
  modify_d (fun d =>
    {| Id := Id d; prior := prior d; planned := planned d;
       set_name := Some v; set_description := set_description d;
       set_external_sources := set_external_sources d |}).

Definition d_Set_description (v : string) : Cb unit :=
  modify_d (fun d =>
    {| Id := Id d; prior := prior d; planned := planned d;
       set_name := set_name d; set_description := Some v;
       set_external_sources := set_external_sources d |}).

Definition d_Set_external_sources (v : list string) : Cb unit :=
  modify_d (fun d =>
    {| Id := Id d; prior := prior d; planned := planned d;
       set_name := set_name d; set_description := set_description d;
       set_external_sources := Some (list_to_set v) |}).

(** *** The state upgrader *)

Set Warnings "-register-all".

(** A value of the raw, JSON-decoded state ([interface{}]); a number is
    kept as its literal. *)
Inductive RawValue :=
| RawNil
| RawBool (b : bool)
| RawNumber (literal : string)
| RawString (s : string)
| RawList (l : list RawValue)
| RawMap (m : list (string * RawValue)).

Section StateUpgrade.

Variable unicode_ToLower_Map : string -> string.

(** [resourceSecurityGroupStateUpgradeV0]: the pair (state, error) it
    returns. The function receives no client handle. *)
Definition resourceSecurityGroupStateUpgradeV0 (rawState : gmap string RawValue)
  : option (gmap string RawValue) * option error :=
  match rawState !! "name" with
  | Some (RawString name) =>
      (Some (<["name" := RawString (strings_ToLower unicode_ToLower_Map name)]> rawState),
       None)
  | _ => (None, Some (fmt_Errorf "unable to get resource name during migration"))
  end.

End StateUpgrade.

(** *** The lifecycle callbacks *)

Section Callbacks.

(** The package constant [defaultZone], declared outside this file. *)
Variable defaultZone : string.

(** [getClient(meta)] *)
Variable client : Client.

(** [resourceSecurityGroupApply] *)
Definition resourceSecurityGroupApply (securityGroup : SecurityGroup)
  : Cb (option error) :=
  n ← deref (SG_Name securityGroup);
  d_Set_name n;;
  match SG_ExternalSources securityGroup with
  | Some es => d_Set_external_sources es
  | None => mret tt
  end;;
  d_Set_description (defaultString (SG_Description securityGroup) "");;
  mret None.

(** [resourceSecurityGroupRead] *)
Definition resourceSecurityGroupRead : Cb Diagnostics :=
  id ← d_Id;
  r ← remote (fun h => answer_GetSecurityGroup client h defaultZone id)
             (GetSecurityGroup defaultZone id);
  match r with
  | inl err =>
      if errors_Is_ErrNotFound err then
        (* Resource doesn't exist anymore *)
        d_SetId "";; mret []
      else mret (diag_FromErr (Some err))
  | inr securityGroup =>
      e ← resourceSecurityGroupApply securityGroup;
      mret (diag_FromErr e)
  end.

(** [resourceSecurityGroupCreate] *)
Definition resourceSecurityGroupCreate : Cb Diagnostics :=
  n ← d_Get_name;
  ds ← d_Get_description;
  let req := {| SG_Description := nonEmptyStringPtr ds;
                SG_ExternalSources := None;
                SG_ID := None;
                SG_Name := nonEmptyStringPtr n |} in
  r ← remote (fun h => answer_CreateSecurityGroup client h defaultZone req)
             (CreateSecurityGroup defaultZone req);
  match r with
  | inl err => mret (diag_FromErr (Some err))
  | inr securityGroup =>
      '(externalSourcesSet, ok) ← d_GetOk_external_sources;
      e ← (if ok : bool then
             range_until_error
               (fun cidr =>
                  remote (fun h => answer_AddExternalSourceToSecurityGroup
                                     client h defaultZone securityGroup cidr)
                         (AddExternalSourceToSecurityGroup defaultZone securityGroup cidr))
               (Set_List externalSourcesSet)
           else mret None);
      match e with
      | Some err => mret (diag_FromErr (Some err))
      | None =>
          id ← deref (SG_ID securityGroup);
          d_SetId id;;
          resourceSecurityGroupRead
      end
  end.

(** [resourceSecurityGroupUpdate] *)
Definition resourceSecurityGroupUpdate : Cb Diagnostics :=
  id ← d_Id;
  r ← remote (fun h => answer_GetSecurityGroup client h defaultZone id)
             (GetSecurityGroup defaultZone id);
  match r with
  | inl err => mret (diag_FromErr (Some err))
  | inr securityGroup =>
      changed ← d_HasChange_external_sources;
      e ← (if changed : bool then
             '(old, cur) ← d_GetChange_external_sources;
             let added := cur ∖ old in
             e1 ← (if bool_decide (0 < Set_Len added)%nat then
                     range_until_error
                       (fun cidr =>
                          remote (fun h => answer_AddExternalSourceToSecurityGroup
                                             client h defaultZone securityGroup cidr)
                                 (AddExternalSourceToSecurityGroup defaultZone securityGroup cidr))
                       (Set_List added)
                   else mret None);
             match e1 with
             | Some err => mret (Some err)
             | None =>
                 let removed := old ∖ cur in
                 if bool_decide (0 < Set_Len removed)%nat then
                   range_until_error
                     (fun cidr =>
                        remote (fun h => answer_RemoveExternalSourceFromSecurityGroup
                                           client h defaultZone securityGroup cidr)
                               (RemoveExternalSourceFromSecurityGroup defaultZone securityGroup cidr))
                     (Set_List removed)
                 else mret None
             end
           else mret None);
      match e with
      | Some err => mret (diag_FromErr (Some err))
      | None => resourceSecurityGroupRead
      end
  end.

(** [resourceSecurityGroupDelete] *)
Definition resourceSecurityGroupDelete : Cb Diagnostics :=
  id ← d_Id;
  let req := {| SG_Description := None; SG_ExternalSources := None;
                SG_ID := nonEmptyStringPtr id; SG_Name := None |} in
  e ← remote (fun h => answer_DeleteSecurityGroup client h defaultZone req)
             (DeleteSecurityGroup defaultZone req);
  mret (diag_FromErr e).

End Callbacks.

End SecurityGroupResource.

(* ===================================================================== *)
(** ** exoscale_elastic_ip                                                 *)
(* ===================================================================== *)

Module ElasticIPResource.

(** Go integer conversions, on [Z] with the wrap-around written out. *)
Definition uint16 (z : Z) : Z := z mod 65536.

Definition int64 (z : Z) : Z := (z + 9223372036854775808) mod 18446744073709551616 - 9223372036854775808.

(** [time.Second], in nanoseconds. *)
Definition time_Second : Z := 1000000000.

(** [time.Duration(v) * time.Second] *)
Definition seconds_Duration (v : Z) : Z := int64 (int64 v * time_Second).

(** [Duration.Seconds()] as the container stores it in an attribute of
    type int: the float is truncated toward zero. The quotient is what
    the code computes for every duration of whole seconds; for a duration
    with a fraction of a second the float may round up to the next second
    (from 2^24 seconds on), which the quotient does not follow. *)
Definition Duration_Seconds (dur : Z) : Z := Z.quot dur time_Second.

(** One [healthcheck] block of the schema. *)
Record HealthcheckAttrs := mkHealthcheckAttrs {
  interval : Z;
  mode : string;
  port : Z;
  timeout : Z;
  strikes_fail : Z;
  strikes_ok : Z;
  tls_skip_verify : bool;
  tls_sni : string;
  uri : string
}.

(** One level of attribute values of the schema of [resourceElasticIP];
    an attribute that is not set is at the zero value of its type.
    [healthcheck] is a list of at most one block. *)
Record Attrs := mkAttrs {
  address_family : string;
  cidr : string;
  description : string;
  healthcheck : list HealthcheckAttrs;
  ip_address : string;
  reverse_dns : string;
  labels : gmap string string;
  zone : string
}.

(** A [healthcheck] block as the configuration gives it: [mode] and
    [port] are required by the schema, the other attributes are optional. *)
Record HealthcheckConfig := mkHealthcheckConfig {
  cfg_interval : option Z;
  cfg_mode : string;
  cfg_port : Z;
  cfg_timeout : option Z;
  cfg_strikes_fail : option Z;
  cfg_strikes_ok : option Z;
  cfg_tls_skip_verify : option bool;
  cfg_tls_sni : option string;
  cfg_uri : option string
}.

(** The planned block the host engine derives from a configured one: an
    absent optional attribute takes the [Default] of the schema of
    [resourceElasticIP] (interval 10, timeout 3, strikes_fail 2,
    strikes_ok 3) or, without one, the zero value of its type. *)
Definition planned_healthcheck (c : HealthcheckConfig) : HealthcheckAttrs :=
  {| interval := default 10 (cfg_interval c);
     mode := cfg_mode c;
     port := cfg_port c;
     timeout := default 3 (cfg_timeout c);
     strikes_fail := default 2 (cfg_strikes_fail c);
     strikes_ok := default 3 (cfg_strikes_ok c);
     tls_skip_verify := default false (cfg_tls_skip_verify c);
     tls_sni := default "" (cfg_tls_sni c);
     uri := default "" (cfg_uri c) |}.

(** The values written by [d.Set] during the callback. *)
Record Written := mkWritten {
  set_address_family : option string;
  set_cidr : option string;
  set_description : option string;
  set_healthcheck : option (list HealthcheckAttrs);
  set_ip_address : option string;
  set_reverse_dns : option string;
  set_labels : option (gmap string string)
}.

Definition nothing_written : Written :=
  {| set_address_family := None; set_cidr := None; set_description := None;
     set_healthcheck := None; set_ip_address := None; set_reverse_dns := None;
     set_labels := None |}.

(** [*schema.ResourceData] for this resource. *)
Record ResourceData := mkResourceData {
  Id : string;
  prior : Attrs;
  planned : Attrs;
  written : Written
}.

Abbreviation Cb := (M ResourceData).

(** [d.Id()] and [d.SetId(v)] *)
Definition d_Id : Cb string := d ← get_d; mret (Id d).

Definition d_SetId (v : string) : Cb unit :=
  modify_d (fun d =>
    {| Id := v; prior := prior d; planned := planned d; written := written d |}).

(** [d.Get(key)] for a top-level attribute: the value written by [d.Set]
    if there is one, the planned value otherwise. *)
Definition Get {A} (f : Attrs -> A) (g : Written -> option A) (d : ResourceData) : A :=
  default (f (planned d)) (g (written d)).

(** The attribute [healthcheck.0.<a>] of a level: the zero value when the
    level has no healthcheck block. *)
Definition block_attr {A} (f : HealthcheckAttrs -> A) (zero : A)
  (blocks : list HealthcheckAttrs) : A :=
  match blocks !! 0%nat with
  | Some h => f h
  | None => zero
  end.

(** [d.Get(resElasticIPAttrHealthcheck(a))] *)
Definition Get_healthcheck {A} (f : HealthcheckAttrs -> A) (zero : A)
  (d : ResourceData) : A :=
  block_attr f zero (Get healthcheck set_healthcheck d).

(** [d.HasChange(key)]: the prior and the planned value differ. *)
Definition HasChange {A} `{EqDecision A} (f : Attrs -> A) (d : ResourceData) : bool :=
  bool_decide (f (prior d) ≠ f (planned d)).

Definition HasChange_healthcheck {A} `{EqDecision A}
  (f : HealthcheckAttrs -> A) (zero : A) (d : ResourceData) : bool :=
  HasChange (fun a => block_attr f zero (healthcheck a)) d.

(** [d.GetOk(key)]: the value of [d.Get], and whether it differs from the
    zero value of its type. *)
Definition GetOk {A} `{EqDecision A} (v zero : A) : A * bool :=
  (v, bool_decide (v ≠ zero)).

(** [d.Set(key, value)], one per attribute that [resourceElasticIPApply]
    writes. *)
Definition d_Set (f : Written -> Written) : Cb unit :=
  modify_d (fun d =>
    {| Id := Id d; prior := prior d; planned := planned d; written := f (written d) |}).

Definition write_address_family (v : string) (w : Written) : Written :=
  {| set_address_family := Some v; set_cidr := set_cidr w;
     set_description := set_description w; set_healthcheck := set_healthcheck w;
     set_ip_address := set_ip_address w; set_reverse_dns := set_reverse_dns w;
     set_labels := set_labels w |}.

Definition write_cidr (v : string) (w : Written) : Written :=
  {| set_address_family := set_address_family w; set_cidr := Some v;
     set_description := set_description w; set_healthcheck := set_healthcheck w;
     set_ip_address := set_ip_address w; set_reverse_dns := set_reverse_dns w;
     set_labels := set_labels w |}.

Definition write_description (v : string) (w : Written) : Written :=
  {| set_address_family := set_address_family w; set_cidr := set_cidr w;
     set_description := Some v; set_healthcheck := set_healthcheck w;
     set_ip_address := set_ip_address w; set_reverse_dns := set_reverse_dns w;
     set_labels := set_labels w |}.

Definition write_healthcheck (v : list HealthcheckAttrs) (w : Written) : Written :=
  {| set_address_family := set_address_family w; set_cidr := set_cidr w;
     set_description := set_description w; set_healthcheck := Some v;
     set_ip_address := set_ip_address w; set_reverse_dns := set_reverse_dns w;
     set_labels := set_labels w |}.

Definition write_ip_address (v : string) (w : Written) : Written :=
  {| set_address_family := set_address_family w; set_cidr := set_cidr w;
     set_description := set_description w; set_healthcheck := set_healthcheck w;
     set_ip_address := Some v; set_reverse_dns := set_reverse_dns w;
     set_labels := set_labels w |}.

Definition write_reverse_dns (v : string) (w : Written) : Written :=
  {| set_address_family := set_address_family w; set_cidr := set_cidr w;
     set_description := set_description w; set_healthcheck := set_healthcheck w;
     set_ip_address := set_ip_address w; set_reverse_dns := Some v;
     set_labels := set_labels w |}.

Definition write_labels (v : gmap string string) (w : Written) : Written :=
  {| set_address_family := set_address_family w; set_cidr := set_cidr w;
     set_description := set_description w; set_healthcheck := set_healthcheck w;
     set_ip_address := set_ip_address w; set_reverse_dns := set_reverse_dns w;
     set_labels := Some v |}.

(** Assignments to the fields of the remote objects. *)
Definition with_AddressFamily (v : option string) (e : ElasticIP) : ElasticIP :=
  {| EIP_AddressFamily := v; EIP_CIDR := EIP_CIDR e;
     EIP_Description := EIP_Description e; EIP_Healthcheck := EIP_Healthcheck e;
     EIP_ID := EIP_ID e; EIP_IPAddress := EIP_IPAddress e; EIP_Labels := EIP_Labels e |}.

Definition with_Description (v : option string) (e : ElasticIP) : ElasticIP :=
  {| EIP_AddressFamily := EIP_AddressFamily e; EIP_CIDR := EIP_CIDR e;
     EIP_Description := v; EIP_Healthcheck := EIP_Healthcheck e;
     EIP_ID := EIP_ID e; EIP_IPAddress := EIP_IPAddress e; EIP_Labels := EIP_Labels e |}.

Definition with_Healthcheck (v : option ElasticIPHealthcheck) (e : ElasticIP) : ElasticIP :=
  {| EIP_AddressFamily := EIP_AddressFamily e; EIP_CIDR := EIP_CIDR e;
     EIP_Description := EIP_Description e; EIP_Healthcheck := v;
     EIP_ID := EIP_ID e; EIP_IPAddress := EIP_IPAddress e; EIP_Labels := EIP_Labels e |}.

Definition with_Labels (v : option (gmap string string)) (e : ElasticIP) : ElasticIP :=
  {| EIP_AddressFamily := EIP_AddressFamily e; EIP_CIDR := EIP_CIDR e;
     EIP_Description := EIP_Description e; EIP_Healthcheck := EIP_Healthcheck e;
     EIP_ID := EIP_ID e; EIP_IPAddress := EIP_IPAddress e; EIP_Labels := v |}.

Definition with_Interval (v : option Z) (h : ElasticIPHealthcheck) : ElasticIPHealthcheck :=
  {| HC_Interval := v; HC_Mode := HC_Mode h; HC_Port := HC_Port h;
     HC_StrikesFail := HC_StrikesFail h; HC_StrikesOK := HC_StrikesOK h;
     HC_TLSSNI := HC_TLSSNI h; HC_TLSSkipVerify := HC_TLSSkipVerify h;
     HC_Timeout := HC_Timeout h; HC_URI := HC_URI h |}.

Definition with_Mode (v : option string) (h : ElasticIPHealthcheck) : ElasticIPHealthcheck :=
  {| HC_Interval := HC_Interval h; HC_Mode := v; HC_Port := HC_Port h;
     HC_StrikesFail := HC_StrikesFail h; HC_StrikesOK := HC_StrikesOK h;
     HC_TLSSNI := HC_TLSSNI h; HC_TLSSkipVerify := HC_TLSSkipVerify h;
     HC_Timeout := HC_Timeout h; HC_URI := HC_URI h |}.

Definition with_Port (v : option Z) (h : ElasticIPHealthcheck) : ElasticIPHealthcheck :=
  {| HC_Interval := HC_Interval h; HC_Mode := HC_Mode h; HC_Port := v;
     HC_StrikesFail := HC_StrikesFail h; HC_StrikesOK := HC_StrikesOK h;
     HC_TLSSNI := HC_TLSSNI h; HC_TLSSkipVerify := HC_TLSSkipVerify h;
     HC_Timeout := HC_Timeout h; HC_URI := HC_URI h |}.

Definition with_StrikesFail (v : option Z) (h : ElasticIPHealthcheck) : ElasticIPHealthcheck :=
  {| HC_Interval := HC_Interval h; HC_Mode := HC_Mode h; HC_Port := HC_Port h;
     HC_StrikesFail := v; HC_StrikesOK := HC_StrikesOK h;
     HC_TLSSNI := HC_TLSSNI h; HC_TLSSkipVerify := HC_TLSSkipVerify h;
     HC_Timeout := HC_Timeout h; HC_URI := HC_URI h |}.

Definition with_StrikesOK (v : option Z) (h : ElasticIPHealthcheck) : ElasticIPHealthcheck :=
  {| HC_Interval := HC_Interval h; HC_Mode := HC_Mode h; HC_Port := HC_Port h;
     HC_StrikesFail := HC_StrikesFail h; HC_StrikesOK := v;
     HC_TLSSNI := HC_TLSSNI h; HC_TLSSkipVerify := HC_TLSSkipVerify h;
     HC_Timeout := HC_Timeout h; HC_URI := HC_URI h |}.

Definition with_TLSSNI (v : option string) (h : ElasticIPHealthcheck) : ElasticIPHealthcheck :=
  {| HC_Interval := HC_Interval h; HC_Mode := HC_Mode h; HC_Port := HC_Port h;
     HC_StrikesFail := HC_StrikesFail h; HC_StrikesOK := HC_StrikesOK h;
     HC_TLSSNI := v; HC_TLSSkipVerify := HC_TLSSkipVerify h;
     HC_Timeout := HC_Timeout h; HC_URI := HC_URI h |}.

Definition with_TLSSkipVerify (v : option bool) (h : ElasticIPHealthcheck) : ElasticIPHealthcheck :=
  {| HC_Interval := HC_Interval h; HC_Mode := HC_Mode h; HC_Port := HC_Port h;
     HC_StrikesFail := HC_StrikesFail h; HC_StrikesOK := HC_StrikesOK h;
     HC_TLSSNI := HC_TLSSNI h; HC_TLSSkipVerify := v;
     HC_Timeout := HC_Timeout h; HC_URI := HC_URI h |}.

Definition with_Timeout (v : option Z) (h : ElasticIPHealthcheck) : ElasticIPHealthcheck :=
  {| HC_Interval := HC_Interval h; HC_Mode := HC_Mode h; HC_Port := HC_Port h;
     HC_StrikesFail := HC_StrikesFail h; HC_StrikesOK := HC_StrikesOK h;
     HC_TLSSNI := HC_TLSSNI h; HC_TLSSkipVerify := HC_TLSSkipVerify h;
     HC_Timeout := v; HC_URI := HC_URI h |}.

Definition with_URI (v : option string) (h : ElasticIPHealthcheck) : ElasticIPHealthcheck :=
  {| HC_Interval := HC_Interval h; HC_Mode := HC_Mode h; HC_Port := HC_Port h;
     HC_StrikesFail := HC_StrikesFail h; HC_StrikesOK := HC_StrikesOK h;
     HC_TLSSNI := HC_TLSSNI h; HC_TLSSkipVerify := HC_TLSSkipVerify h;
     HC_Timeout := HC_Timeout h; HC_URI := v |}.

(** [labels := make(map[string]string); for k, v := range m { labels[k] = v.(string) }] *)
Definition copy_labels (m : gmap string string) : gmap string string :=
  map_fold (fun k v acc => <[k := v]> acc) ∅ m.

(** Attribute reads of the callbacks. *)
Definition d_Get_zone : Cb string := d ← get_d; mret (zone (planned d)).

Definition d_Get_description : Cb string :=
  d ← get_d; mret (Get description set_description d).

Definition d_Get_labels : Cb (gmap string string) :=
  d ← get_d; mret (Get labels set_labels d).

Definition d_Get_reverse_dns : Cb string :=
  d ← get_d; mret (Get reverse_dns set_reverse_dns d).

Definition d_Get_healthcheck {A} (f : HealthcheckAttrs -> A) (zero : A) : Cb A :=
  d ← get_d; mret (Get_healthcheck f zero d).

Definition d_GetOk {A} `{EqDecision A} (f : Attrs -> A) (g : Written -> option A)
  (zero : A) : Cb (A * bool) :=
  d ← get_d; mret (GetOk (Get f g d) zero).

Definition d_GetOk_healthcheck {A} `{EqDecision A} (f : HealthcheckAttrs -> A)
  (zero : A) : Cb (A * bool) :=
  d ← get_d; mret (GetOk (Get_healthcheck f zero d) zero).

Definition d_HasChange {A} `{EqDecision A} (f : Attrs -> A) : Cb bool :=
  d ← get_d; mret (HasChange f d).

Definition d_HasChange_healthcheck {A} `{EqDecision A}
  (f : HealthcheckAttrs -> A) (zero : A) : Cb bool :=
  d ← get_d; mret (HasChange_healthcheck f zero d).

(** [elasticIP.Healthcheck.<Field> = &v]: the assignment goes through the
    pointer [elasticIP.Healthcheck], with no test that it is set. *)
Definition assign_Healthcheck (upd : ElasticIPHealthcheck -> ElasticIPHealthcheck)
  (elasticIP : ElasticIP) : Cb ElasticIP :=
  hc ← deref (EIP_Healthcheck elasticIP);
  mret (with_Healthcheck (Some (upd hc)) elasticIP).

(** One [if d.HasChange(key) { ...; updated = true }] statement of
    [resourceElasticIPUpdate], on the pair of the local variables
    [elasticIP] and [updated]. *)
Definition if_changed (changed : Cb bool) (assign : ElasticIP -> Cb ElasticIP)
  (st : ElasticIP * bool) : Cb (ElasticIP * bool) :=
  c ← changed;
  if c : bool then
    e ← assign (fst st);
    mret (e, true)
  else mret st.

Section Callbacks.

(** [GetComputeClient(meta)] *)
Variable client : Client.

(** [resourceElasticIPApply] *)
Definition resourceElasticIPApply (elasticIP : ElasticIP) : Cb Diagnostics :=
  d_Set (write_address_family (defaultString (EIP_AddressFamily elasticIP) ""));;
  d_Set (write_cidr (defaultString (EIP_CIDR elasticIP) ""));;
  d_Set (write_description (defaultString (EIP_Description elasticIP) ""));;
  match EIP_Healthcheck elasticIP with
  | Some hc =>
      i ← deref (HC_Interval hc);
      m ← deref (HC_Mode hc);
      p ← deref (HC_Port hc);
      sf ← deref (HC_StrikesFail hc);
      so ← deref (HC_StrikesOK hc);
      t ← deref (HC_Timeout hc);
      d_Set (write_healthcheck
               [ {| interval := Duration_Seconds i;
                    mode := m;
                    port := p;
                    timeout := Duration_Seconds t;
                    strikes_fail := sf;
                    strikes_ok := so;
                    tls_skip_verify := defaultBool (HC_TLSSkipVerify hc) false;
                    tls_sni := defaultString (HC_TLSSNI hc) "";
                    uri := defaultString (HC_URI hc) "" |} ])
  | None => mret tt
  end;;
  match EIP_IPAddress elasticIP with
  | Some ip => d_Set (write_ip_address ip)
  | None => mret tt
  end;;
  z ← d_Get_zone;
  id ← deref (EIP_ID elasticIP);
  '(rdns, err) ← remote (fun h => answer_GetElasticIPReverseDNS client h z id)
                        (GetElasticIPReverseDNS z id);
  match err with
  | Some e =>
      if negb (errors_Is_ErrNotFound e)
      then mret (Some (diag_Errorf "unable to retrieve elasticIP reverse-dns: " e))
      else mret None
  | None => mret None
  end ≫= fun failed =>
  match failed with
  | Some ds => mret ds
  | None =>
      d_Set (write_reverse_dns (strings_TrimSuffix_dot rdns));;
      d_Set (write_labels (default ∅ (EIP_Labels elasticIP)));;
      mret []
  end.

(** [resourceElasticIPRead] *)
Definition resourceElasticIPRead : Cb Diagnostics :=
  z ← d_Get_zone;
  id ← d_Id;
  r ← remote (fun h => answer_GetElasticIP client h z id) (GetElasticIP z id);
  match r with
  | inl err =>
      if errors_Is_ErrNotFound err then
        (* Resource doesn't exist anymore *)
        d_SetId "";; mret []
      else mret (diag_FromErr (Some err))
  | inr elasticIP => resourceElasticIPApply elasticIP
  end.

(** The part of [resourceElasticIPCreate] that fills
    [elasticIP := new(egoscale.ElasticIP)] from the configuration. *)
Definition resourceElasticIPCreate_request : Cb ElasticIP :=
  let elasticIP := new_ElasticIP in
  '(s, ok) ← d_GetOk address_family set_address_family "";
  let elasticIP :=
    if ok : bool then
      if decide (s ≠ "") then with_AddressFamily (Some s) elasticIP else elasticIP
    else elasticIP in
  '(s, ok) ← d_GetOk description set_description "";
  let elasticIP := if ok : bool then with_Description (Some s) elasticIP else elasticIP in
  '(healthcheckMode, ok) ← d_GetOk_healthcheck mode "";
  if ok : bool then
    p ← d_Get_healthcheck port 0;
    let hc := {| HC_Interval := None; HC_Mode := nonEmptyStringPtr healthcheckMode;
                 HC_Port := Some (uint16 p); HC_StrikesFail := None;
                 HC_StrikesOK := None; HC_TLSSNI := None; HC_TLSSkipVerify := None;
                 HC_Timeout := None; HC_URI := None |} in
    '(v, ok) ← d_GetOk_healthcheck interval 0;
    let hc := if ok : bool then with_Interval (Some (seconds_Duration v)) hc else hc in
    '(v, ok) ← d_GetOk_healthcheck strikes_fail 0;
    let hc := if ok : bool then with_StrikesFail (Some (int64 v)) hc else hc in
    '(v, ok) ← d_GetOk_healthcheck strikes_ok 0;
    let hc := if ok : bool then with_StrikesOK (Some (int64 v)) hc else hc in
    '(v, ok) ← d_GetOk_healthcheck tls_sni "";
    let hc := if ok : bool then with_TLSSNI (nonEmptyStringPtr v) hc else hc in
    '(v, ok) ← d_GetOk_healthcheck tls_skip_verify false;
    let hc := if ok : bool then with_TLSSkipVerify (Some v) hc else hc in
    '(v, ok) ← d_GetOk_healthcheck timeout 0;
    let hc := if ok : bool then with_Timeout (Some (seconds_Duration v)) hc else hc in
    '(v, ok) ← d_GetOk_healthcheck uri "";
    let hc := if ok : bool then with_URI (nonEmptyStringPtr v) hc else hc in
    let elasticIP := with_Healthcheck (Some hc) elasticIP in
    '(l, ok) ← d_GetOk labels set_labels ∅;
    let elasticIP :=
      if ok : bool then with_Labels (Some (copy_labels l)) elasticIP else elasticIP in
    mret elasticIP
  else mret elasticIP.

(** [resourceElasticIPCreate] *)
Definition resourceElasticIPCreate : Cb Diagnostics :=
  z ← d_Get_zone;
  elasticIP ← resourceElasticIPCreate_request;
  r ← remote (fun h => answer_CreateElasticIP client h z elasticIP)
             (CreateElasticIP z elasticIP);
  match r with
  | inl err => mret (diag_FromErr (Some err))
  | inr elasticIP =>
      id ← deref (EIP_ID elasticIP);
      d_SetId id;;
      '(rdns, ok) ← d_GetOk reverse_dns set_reverse_dns "";
      e ← (if ok : bool then
             id ← deref (EIP_ID elasticIP);
             remote (fun h => answer_UpdateElasticIPReverseDNS client h z id rdns)
                    (UpdateElasticIPReverseDNS z id rdns)
           else mret None);
      match e with
      | Some err => mret (diag_Errorf "unable to create Reverse DNS record: " err)
      | None => resourceElasticIPRead
      end
  end.

(** The statements of [resourceElasticIPUpdate] from [var updated bool] to
    the last [if d.HasChange(...)] on a healthcheck attribute: the local
    variables [elasticIP] and [updated] when they are done. *)
Definition resourceElasticIPUpdate_merge (elasticIP : ElasticIP)
  : Cb (ElasticIP * bool) :=
  let updated := false in
  st ← if_changed (d_HasChange labels)
         (fun e => l ← d_Get_labels; mret (with_Labels (Some (copy_labels l)) e))
         (elasticIP, updated);
  st ← if_changed (d_HasChange description)
         (fun e => v ← d_Get_description; mret (with_Description (Some v) e)) st;
  st ← if_changed (d_HasChange_healthcheck mode "")
         (fun e => v ← d_Get_healthcheck mode "";
                   assign_Healthcheck (with_Mode (Some v)) e) st;
  st ← if_changed (d_HasChange_healthcheck port 0)
         (fun e => v ← d_Get_healthcheck port 0;
                   assign_Healthcheck (with_Port (Some (uint16 v))) e) st;
  st ← if_changed (d_HasChange_healthcheck interval 0)
         (fun e => v ← d_Get_healthcheck interval 0;
                   assign_Healthcheck (with_Interval (Some (seconds_Duration v))) e) st;
  st ← if_changed (d_HasChange_healthcheck strikes_fail 0)
         (fun e => v ← d_Get_healthcheck strikes_fail 0;
                   assign_Healthcheck (with_StrikesFail (Some (int64 v))) e) st;
  st ← if_changed (d_HasChange_healthcheck strikes_ok 0)
         (fun e => v ← d_Get_healthcheck strikes_ok 0;
                   assign_Healthcheck (with_StrikesOK (Some (int64 v))) e) st;
  st ← if_changed (d_HasChange_healthcheck timeout 0)
         (fun e => v ← d_Get_healthcheck timeout 0;
                   assign_Healthcheck (with_Timeout (Some (seconds_Duration v))) e) st;
  st ← if_changed (d_HasChange_healthcheck tls_sni "")
         (fun e => v ← d_Get_healthcheck tls_sni "";
                   assign_Healthcheck (with_TLSSNI (Some v)) e) st;
  st ← if_changed (d_HasChange_healthcheck tls_skip_verify false)
         (fun e => v ← d_Get_healthcheck tls_skip_verify false;
                   assign_Healthcheck (with_TLSSkipVerify (Some v)) e) st;
  if_changed (d_HasChange_healthcheck uri "")
         (fun e => v ← d_Get_healthcheck uri "";
                   assign_Healthcheck (with_URI (Some v)) e) st.

(** [resourceElasticIPUpdate] *)
Definition resourceElasticIPUpdate : Cb Diagnostics :=
  z ← d_Get_zone;
  id ← d_Id;
  r ← remote (fun h => answer_GetElasticIP client h z id) (GetElasticIP z id);
  match r with
  | inl err => mret (diag_FromErr (Some err))
  | inr elasticIP =>
      '(elasticIP, updated) ← resourceElasticIPUpdate_merge elasticIP;
      e ← (if updated : bool then
             remote (fun h => answer_UpdateElasticIP client h z elasticIP)
                    (UpdateElasticIP z elasticIP)
           else mret None);
      match e with
      | Some err => mret (diag_FromErr (Some err))
      | None =>
          c ← d_HasChange reverse_dns;
          e ← (if c : bool then
                 rdns ← d_Get_reverse_dns;
                 id ← deref (EIP_ID elasticIP);
                 if decide (rdns = "") then
                   remote (fun h => answer_DeleteElasticIPReverseDNS client h z id)
                          (DeleteElasticIPReverseDNS z id)
                 else
                   remote (fun h => answer_UpdateElasticIPReverseDNS client h z id rdns)
                          (UpdateElasticIPReverseDNS z id rdns)
               else mret None);
          match e with
          | Some err => mret (diag_FromErr (Some err))
          | None => resourceElasticIPRead
          end
      end
  end.

(** [resourceElasticIPDelete] *)
Definition resourceElasticIPDelete : Cb Diagnostics :=
  z ← d_Get_zone;
  elasticIPID ← d_Id;
  e ← remote (fun h => answer_DeleteElasticIPReverseDNS client h z elasticIPID)
             (DeleteElasticIPReverseDNS z elasticIPID);
  match e with
  | Some err =>
      if negb (errors_Is_ErrNotFound err) then mret (Some err) else mret None
  | None => mret None
  end ≫= fun failed =>
  match failed with
  | Some err => mret (diag_FromErr (Some err))
  | None =>
      let req := {| EIP_AddressFamily := None; EIP_CIDR := None;
                    EIP_Description := None; EIP_Healthcheck := None;
                    EIP_ID := Some elasticIPID; EIP_IPAddress := None;
                    EIP_Labels := None |} in
      e ← remote (fun h => answer_DeleteElasticIP client h z req)
                 (DeleteElasticIP z req);
      mret (diag_FromErr e)
  end.

End Callbacks.

End ElasticIPResource.

(* ===================================================================== *)
(** ** Observations on the log of remote calls                             *)
(* ===================================================================== *)

(** The sources of the add-external-source calls of a log, in order. *)
Definition added_sources (cs : list Call) : list string :=
  omap (fun c => match c with
                 | AddExternalSourceToSecurityGroup _ _ cidr => Some cidr
                 | _ => None
                 end) cs.

(** The sources of the remove-external-source calls of a log, in order. *)
Definition removed_sources (cs : list Call) : list string :=
  omap (fun c => match c with
                 | RemoveExternalSourceFromSecurityGroup _ _ cidr => Some cidr
                 | _ => None
                 end) cs.

(** The objects carried by the update calls of a log, in order. *)
Definition updates_issued (cs : list Call) : list ElasticIP :=
  omap (fun c => match c with
                 | UpdateElasticIP _ eip => Some eip
                 | _ => None
                 end) cs.

(** The primary delete calls of a log, in order. *)
Definition deletes_issued (cs : list Call) : list Call :=
  omap (fun c => match c with
                 | DeleteElasticIP _ _ | DeleteSecurityGroup _ _ => Some c
                 | _ => None
                 end) cs.

(** A Go function ended with a panic. *)
Definition panicked {A} (r : Res A) : bool :=
  match r with Panic _ => true | Ok _ => false end.

(* ===================================================================== *)
(** ** What the host engine reports changed, and the merged object         *)
(* ===================================================================== *)

Module ElasticIPChanges.
Import ElasticIPResource.

(** Some attribute of the healthcheck block is reported changed. *)
Definition healthcheck_changed (d : ResourceData) : bool :=
  HasChange_healthcheck mode "" d
  || HasChange_healthcheck port 0 d
  || HasChange_healthcheck interval 0 d
  || HasChange_healthcheck strikes_fail 0 d
  || HasChange_healthcheck strikes_ok 0 d
  || HasChange_healthcheck timeout 0 d
  || HasChange_healthcheck tls_sni "" d
  || HasChange_healthcheck tls_skip_verify false d
  || HasChange_healthcheck uri "" d.

(** Some simple field (labels, description, healthcheck attributes) is
    reported changed. *)
Definition simple_field_changed (d : ResourceData) : bool :=
  HasChange labels d || HasChange description d || healthcheck_changed d.

(** The merged object, in the words of the specification: the fetched
    remote object in which every changed simple field holds the desired
    value, every other field being the fetched one. *)
Definition merged_healthcheck (d : ResourceData) (hc : ElasticIPHealthcheck)
  : ElasticIPHealthcheck :=
  {| HC_Interval :=
       if HasChange_healthcheck interval 0 d
       then Some (seconds_Duration (Get_healthcheck interval 0 d))
       else HC_Interval hc;
     HC_Mode :=
       if HasChange_healthcheck mode "" d
       then Some (Get_healthcheck mode "" d) else HC_Mode hc;
     HC_Port :=
       if HasChange_healthcheck port 0 d
       then Some (uint16 (Get_healthcheck port 0 d)) else HC_Port hc;
     HC_StrikesFail :=
       if HasChange_healthcheck strikes_fail 0 d
       then Some (int64 (Get_healthcheck strikes_fail 0 d)) else HC_StrikesFail hc;
     HC_StrikesOK :=
       if HasChange_healthcheck strikes_ok 0 d
       then Some (int64 (Get_healthcheck strikes_ok 0 d)) else HC_StrikesOK hc;
     HC_TLSSNI :=
       if HasChange_healthcheck tls_sni "" d
       then Some (Get_healthcheck tls_sni "" d) else HC_TLSSNI hc;
     HC_TLSSkipVerify :=
       if HasChange_healthcheck tls_skip_verify false d
       then Some (Get_healthcheck tls_skip_verify false d) else HC_TLSSkipVerify hc;
     HC_Timeout :=
       if HasChange_healthcheck timeout 0 d
       then Some (seconds_Duration (Get_healthcheck timeout 0 d))
       else HC_Timeout hc;
     HC_URI :=
       if HasChange_healthcheck uri "" d
       then Some (Get_healthcheck uri "" d) else HC_URI hc |}.

Definition merged_object (d : ResourceData) (e : ElasticIP) : ElasticIP :=
  {| EIP_AddressFamily := EIP_AddressFamily e;
     EIP_CIDR := EIP_CIDR e;
     EIP_Description :=
       if HasChange description d
       then Some (Get description set_description d) else EIP_Description e;
     EIP_Healthcheck := merged_healthcheck d <$> EIP_Healthcheck e;
     EIP_ID := EIP_ID e;
     EIP_IPAddress := EIP_IPAddress e;
     EIP_Labels :=
       if HasChange labels d
       then Some (Get labels set_labels d) else EIP_Labels e |}.

End ElasticIPChanges.

(* ===================================================================== *)
(** ** Scenarios                                                           *)
(* ===================================================================== *)

(** A remote system whose answers depend neither on the arguments of a
    call nor on the calls before it. *)
Definition constant_client
  (create_sg get_sg : error + SecurityGroup)
  (add_source remove_source delete_sg : option error)
  (create_eip get_eip : error + ElasticIP)
  (update_eip delete_eip update_rdns delete_rdns : option error)
  (get_rdns : string * option error) : Client :=
  {| answer_CreateSecurityGroup := fun _ _ _ => create_sg;
     answer_GetSecurityGroup := fun _ _ _ => get_sg;
     answer_DeleteSecurityGroup := fun _ _ _ => delete_sg;
     answer_AddExternalSourceToSecurityGroup := fun _ _ _ _ => add_source;
     answer_RemoveExternalSourceFromSecurityGroup := fun _ _ _ _ => remove_source;
     answer_CreateElasticIP := fun _ _ _ => create_eip;
     answer_GetElasticIP := fun _ _ _ => get_eip;
     answer_UpdateElasticIP := fun _ _ _ => update_eip;
     answer_DeleteElasticIP := fun _ _ _ => delete_eip;
     answer_UpdateElasticIPReverseDNS := fun _ _ _ _ => update_rdns;
     answer_DeleteElasticIPReverseDNS := fun _ _ _ => delete_rdns;
     answer_GetElasticIPReverseDNS := fun _ _ _ => get_rdns |}.

Definition err_not_found : error :=
  {| Error := "resource not found"; IsErrNotFound := true |}.

Definition err_unavailable : error :=
  {| Error := "service unavailable"; IsErrNotFound := false |}.

Module SecurityGroupScenario.
Import SecurityGroupResource.

Definition web_group : SecurityGroup :=
  {| SG_Description := None; SG_ExternalSources := None;
     SG_ID := Some "sg-1"; SG_Name := Some "web" |}.

(** Every call succeeds. *)
Definition healthy : Client :=
  constant_client (inr web_group) (inr web_group) None None None
    (inl err_unavailable) (inl err_unavailable) None None None None ("", None).

(** The group is created, adding an external source fails. *)
Definition add_source_fails : Client :=
  constant_client (inr web_group) (inr web_group) (Some err_unavailable) None None
    (inl err_unavailable) (inl err_unavailable) None None None None ("", None).

(** The remote system reports the group as not found. *)
Definition group_gone : Client :=
  constant_client (inl err_not_found) (inl err_not_found) None None None
    (inl err_not_found) (inl err_not_found) None None None None ("", None).

(** A new group "web" with one external source: no identifier and no
    prior state yet. *)
Definition new_web : ResourceData :=
  {| Id := "";
     prior := {| name := ""; description := ""; external_sources := ∅ |};
     planned := {| name := "web"; description := "";
                   external_sources := {[ "10.0.0.0/24" ]} |};
     set_name := None; set_description := None; set_external_sources := None |}.

(** The group "sg-1" whose external source is to be replaced. *)
Definition web_change_source : ResourceData :=
  {| Id := "sg-1";
     prior := {| name := "web"; description := "";
                 external_sources := {[ "10.0.0.0/24" ]} |};
     planned := {| name := "web"; description := "";
                   external_sources := {[ "192.168.0.0/16" ]} |};
     set_name := None; set_description := None; set_external_sources := None |}.

End SecurityGroupScenario.

Module ElasticIPScenario.
Import ElasticIPResource.

Definition unset (z : string) : Attrs :=
  {| address_family := ""; cidr := ""; description := ""; healthcheck := [];
     ip_address := ""; reverse_dns := ""; labels := ∅; zone := z |}.

(** The configured block [healthcheck { mode = "tcp", port = 80 }]. *)
Definition tcp_80 : HealthcheckConfig :=
  {| cfg_interval := None; cfg_mode := "tcp"; cfg_port := 80;
     cfg_timeout := None; cfg_strikes_fail := None; cfg_strikes_ok := None;
     cfg_tls_skip_verify := None; cfg_tls_sni := None; cfg_uri := None |}.

(** A new elastic IP with a label and no healthcheck block. *)
Definition new_labelled : ResourceData :=
  {| Id := "";
     prior := unset "";
     planned := {| address_family := ""; cidr := ""; description := "";
                   healthcheck := []; ip_address := ""; reverse_dns := "";
                   labels := {[ "env" := "prod" ]}; zone := "ch-gva-2" |};
     written := nothing_written |}.

(** A new elastic IP with the healthcheck block [tcp_80]. *)
Definition new_checked : ResourceData :=
  {| Id := "";
     prior := unset "";
     planned := {| address_family := ""; cidr := ""; description := "";
                   healthcheck := [planned_healthcheck tcp_80]; ip_address := "";
                   reverse_dns := ""; labels := ∅; zone := "ch-gva-2" |};
     written := nothing_written |}.

(** A new elastic IP with a reverse-DNS name. *)
Definition new_named : ResourceData :=
  {| Id := "";
     prior := unset "";
     planned := {| address_family := ""; cidr := ""; description := "";
                   healthcheck := []; ip_address := "";
                   reverse_dns := "eip.example.net"; labels := ∅;
                   zone := "ch-gva-2" |};
     written := nothing_written |}.

(** The elastic IP "eip-1", whose description is to be changed. *)
Definition change_description : ResourceData :=
  {| Id := "eip-1";
     prior := {| address_family := "inet4"; cidr := ""; description := "old";
                 healthcheck := []; ip_address := "203.0.113.7";
                 reverse_dns := ""; labels := ∅; zone := "ch-gva-2" |};
     planned := {| address_family := "inet4"; cidr := ""; description := "new";
                   healthcheck := []; ip_address := "203.0.113.7";
                   reverse_dns := ""; labels := ∅; zone := "ch-gva-2" |};
     written := nothing_written |}.

(** The elastic IP "eip-1", to which the block [tcp_80] is to be added. *)
Definition add_healthcheck : ResourceData :=
  {| Id := "eip-1";
     prior := {| address_family := "inet4"; cidr := ""; description := "";
                 healthcheck := []; ip_address := "203.0.113.7";
                 reverse_dns := ""; labels := ∅; zone := "ch-gva-2" |};
     planned := {| address_family := "inet4"; cidr := ""; description := "";
                   healthcheck := [planned_healthcheck tcp_80];
                   ip_address := "203.0.113.7";
                   reverse_dns := ""; labels := ∅; zone := "ch-gva-2" |};
     written := nothing_written |}.

(** The remote object "eip-1": no healthcheck, no labels. *)
Definition eip_1 : ElasticIP :=
  {| EIP_AddressFamily := Some "inet4"; EIP_CIDR := None;
     EIP_Description := Some "old"; EIP_Healthcheck := None;
     EIP_ID := Some "eip-1"; EIP_IPAddress := Some "203.0.113.7";
     EIP_Labels := None |}.

(** Every call succeeds; the elastic IP has no reverse-DNS record. *)
Definition healthy : Client :=
  constant_client (inl err_unavailable) (inl err_unavailable) None None None
    (inr eip_1) (inr eip_1) None None None None ("", Some err_not_found).

(** As [healthy], but there is no reverse-DNS record to delete. *)
Definition no_reverse_dns : Client :=
  constant_client (inl err_unavailable) (inl err_unavailable) None None None
    (inr eip_1) (inr eip_1) None None None (Some err_not_found)
    ("", Some err_not_found).

(** As [healthy], but the reverse-DNS record cannot be set. *)
Definition reverse_dns_fails : Client :=
  constant_client (inl err_unavailable) (inl err_unavailable) None None None
    (inr eip_1) (inr eip_1) None None (Some err_unavailable) None
    ("", Some err_not_found).

(** The remote system reports the elastic IP as not found. *)
Definition eip_gone : Client :=
  constant_client (inl err_unavailable) (inl err_unavailable) None None None
    (inl err_not_found) (inl err_not_found) None None None None
    ("", Some err_not_found).

End ElasticIPScenario.

(* ===================================================================== *)
(** ** strings.EqualFold and the schema of the security group              *)
(* ===================================================================== *)

Section StringsEqualFold.

(** The Unicode loop of [strings.EqualFold], which takes over at the first
    position where one of the two bytes is outside ASCII; it is handed
    the two remaining suffixes. The folding tables are the Go library's. *)
Variable unicode_EqualFold : string -> string -> bool.

(** [strings.EqualFold]: the ASCII loop. Equal bytes pass; two different
    bytes pass when the smaller is an upper-case letter and the larger is
    its lower-case form; when one string ends, both must have ended. *)
Fixpoint strings_EqualFold (s t : string) : bool :=
  match s, t with
  | String sr s', String tr t' =>
      if negb (byte_is_ascii sr && byte_is_ascii tr) then unicode_EqualFold s t
      else if Ascii.eqb tr sr then strings_EqualFold s' t'
      else
        let swap := (N_of_ascii tr <? N_of_ascii sr)%N in
        let lo := if swap then tr else sr in
        let hi := if swap then sr else tr in
        if byte_is_upper lo && (N_of_ascii hi =? N_of_ascii lo + 32)%N
        then strings_EqualFold s' t'
        else false
  | EmptyString, EmptyString => true
  | _, _ => false
  end.

End StringsEqualFold.

Module SecurityGroupSchema.
Import SecurityGroupResource.

Section DiffSuppress.

Variable unicode_EqualFold : string -> string -> bool.

(** The [DiffSuppressFunc] of the attribute [name] in
    [resourceSecurityGroupSchema]: a difference between the stored and the
    configured name is ignored when it answers true. *)
Definition name_DiffSuppressFunc (k old new : string) (d : ResourceData) : bool :=
  strings_EqualFold unicode_EqualFold old new.

End DiffSuppress.

Section ImportCallback.

Variable defaultZone : string.

(** The answer of [client.FindSecurityGroup(ctx, zone, x)], which looks a
    group up by identifier or by name. The log of calls of the lifecycle
    callbacks has no entry for it: the one remote call of Import is not
    logged. *)
Variable answer_FindSecurityGroup : string -> string -> error + SecurityGroup.

(** [resourceSecurityGroupImport]: the pair (resources, error) it returns;
    the one resource is the state container [d] itself. *)
Definition resourceSecurityGroupImport : Cb (option (list ResourceData) * option error) :=
  id ← d_Id;
  match answer_FindSecurityGroup defaultZone id with
  | inl err => mret (None, Some err)
  | inr securityGroup =>
      e ← resourceSecurityGroupApply securityGroup;
      match e with
      | Some err => mret (None, Some err)
      | None => d ← get_d; mret (Some [d], None)
      end
  end.

End ImportCallback.

End SecurityGroupSchema.

(* ===================================================================== *)
(** ** The validators of the healthcheck block                             *)
(* ===================================================================== *)

Module ElasticIPSchema.
Import ElasticIPResource.

(** [validation.IntBetween(min, max)]: the value is refused when
    [v < min || v > max]. *)
Definition IntBetween (min max v : Z) : bool := negb ((v <? min)%Z || (v >? max)%Z).

(** The [ValidateFunc]s of the integer attributes of the healthcheck block
    in the schema of [resourceElasticIP], all at once. *)
Definition healthcheck_in_range (hc : HealthcheckAttrs) : bool :=
  IntBetween 5 300 (interval hc)
  && IntBetween 1 65535 (port hc)
  && IntBetween 2 60 (timeout hc)
  && IntBetween 1 20 (strikes_fail hc)
  && IntBetween 1 20 (strikes_ok hc).

End ElasticIPSchema.

(** The reverse-DNS calls of a log that change the record, in order. *)
Definition reverse_dns_changes (cs : list Call) : list Call :=
  omap (fun c => match c with
                 | UpdateElasticIPReverseDNS _ _ _ | DeleteElasticIPReverseDNS _ _ => Some c
                 | _ => None
                 end) cs.

(* ===================================================================== *)
(** ** exoscale_affinity (the legacy resource)                             *)
(* ===================================================================== *)

Module AffinityGroupResource.

(** [egoscale.AffinityGroup] of the legacy client, the fields the adapter
    reads. *)
Record AffinityGroup := mkAffinityGroup {
  AG_ID : string;
  AG_Name : string;
  AG_Description : string;
  AG_Type : string;
  AG_VirtualMachineIDs : list string
}.

(** The requests the adapter passes to [client.Request] and
    [client.BooleanRequest]. *)
Inductive Command :=
| CreateAffinityGroup (name description type : string)
| ListAffinityGroups (id : string)
| DeleteAffinityGroup (id : string).

(** The dynamic type and content of a response of [client.Request]. *)
Inductive Response :=
| CreateAffinityGroupResponse (ag : AffinityGroup)
| ListAffinityGroupsResponse (count : Z) (groups : list AffinityGroup)
| OtherResponse.

(** [*schema.ResourceData] of the legacy resource: the identifier and the
    value [d.Get] reports for each attribute (the configured value, the
    [Default] of the schema for an absent [type], or the value of the
    last [d.Set]). *)
Record ResourceData := mkResourceData {
  Id : string;
  name : string;
  description : string;
  type : string;
  virtual_machine_ids : gset string
}.

(** A legacy callback: from the state container to its result, or a
    panic, and the state container it leaves. *)
Definition Legacy (A : Type) : Type := ResourceData -> Res A * ResourceData.

Section Callbacks.

(** [client.Request] and [client.BooleanRequest] of [GetComputeClient(meta)]. *)
Variable Request : Command -> error + Response.
Variable BooleanRequest : Command -> option error.

(** [handleNotFound(d, err)], declared outside the source file: the state
    container it leaves and the error it returns. *)
Variable handleNotFound : ResourceData -> error -> ResourceData * option error.

(** [applyAffinityGroup]: the results of [d.Set] are dropped. *)
Definition applyAffinityGroup (affinity : AffinityGroup) : Legacy (option error) :=
  fun d =>
    (Ok None,
     {| Id := AG_ID affinity;
        name := AG_Name affinity;
        description := AG_Description affinity;
        type := AG_Type affinity;
        virtual_machine_ids := list_to_set (AG_VirtualMachineIDs affinity) |}).

(** [createAffinityGroup] *)
Definition createAffinityGroup : Legacy (option error) :=
  fun d =>
    match Request (CreateAffinityGroup (name d) (description d) (type d)) with
    | inl err => (Ok (Some err), d)
    | inr resp =>
        match resp with
        | CreateAffinityGroupResponse ag => applyAffinityGroup ag d
        | _ => (Panic "interface conversion", d)
        end
    end.

(** [existsAffinityGroup] *)
Definition existsAffinityGroup : Legacy (bool * option error) :=
  fun d =>
    match Request (ListAffinityGroups (Id d)) with
    | inl err =>
        let '(d', e) := handleNotFound d err in
        (Ok (bool_decide (Id d' ≠ ""), e), d')
    | inr resp =>
        match resp with
        | ListAffinityGroupsResponse count _ => (Ok ((0 <? count)%Z, None), d)
        | _ => (Panic "interface conversion", d)
        end
    end.

(** [readAffinityGroup] *)
Definition readAffinityGroup : Legacy (option error) :=
  fun d =>
    match Request (ListAffinityGroups (Id d)) with
    | inl err =>
        let '(d', e) := handleNotFound d err in (Ok e, d')
    | inr resp =>
        match resp with
        | ListAffinityGroupsResponse _ groups =>
            match groups !! 0%nat with
            | Some ag => applyAffinityGroup ag d
            | None => (Panic "index out of range", d)
            end
        | _ => (Panic "interface conversion", d)
        end
    end.

(** [deleteAffinityGroup] *)
Definition deleteAffinityGroup : Legacy (option error) :=
  fun d => (Ok (BooleanRequest (DeleteAffinityGroup (Id d))), d).

(** [importAffinityGroup]: the pair (resources, error); the one resource
    is the state container itself. *)
Definition importAffinityGroup : Legacy (option (list ResourceData) * option error) :=
  fun d =>
    match readAffinityGroup d with
    | (Ok (Some err), d') => (Ok (None, Some err), d')
    | (Ok None, d') => (Ok (Some [d'], None), d')
    | (Panic msg, d') => (Panic msg, d')
    end.

End Callbacks.

End AffinityGroupResource.

(* ===================================================================== *)
(** ** More scenarios                                                      *)
(* ===================================================================== *)

Module MoreScenarios.

(** A lookup that finds the group "web" whatever it is asked for. *)
Definition find_web (zone x : string) : error + SecurityGroup :=
  inr SecurityGroupScenario.web_group.

(** The container that Import receives when the operator gives the name
    of the group as identifier. *)
Definition import_by_name : SecurityGroupResource.ResourceData :=
  {| SecurityGroupResource.Id := "web";
     SecurityGroupResource.prior :=
       {| SecurityGroupResource.name := "";
          SecurityGroupResource.description := "";
          SecurityGroupResource.external_sources := ∅ |};
     SecurityGroupResource.planned :=
       {| SecurityGroupResource.name := "";
          SecurityGroupResource.description := "";
          SecurityGroupResource.external_sources := ∅ |};
     SecurityGroupResource.set_name := None;
     SecurityGroupResource.set_description := None;
     SecurityGroupResource.set_external_sources := None |}.

(** The group "sg-1", which is to get two external sources. *)
Definition web_add_two : SecurityGroupResource.ResourceData :=
  {| SecurityGroupResource.Id := "sg-1";
     SecurityGroupResource.prior :=
       {| SecurityGroupResource.name := "web";
          SecurityGroupResource.description := "";
          SecurityGroupResource.external_sources := ∅ |};
     SecurityGroupResource.planned :=
       {| SecurityGroupResource.name := "web";
          SecurityGroupResource.description := "";
          SecurityGroupResource.external_sources :=
            {[ "10.0.0.0/24"; "192.168.0.0/16" ]} |};
     SecurityGroupResource.set_name := None;
     SecurityGroupResource.set_description := None;
     SecurityGroupResource.set_external_sources := None |}.

(** A remote system that accepts one external source and refuses every
    further one: an add call fails when the log holds an add call
    already. *)
Definition second_add_fails : Client :=
  {| answer_CreateSecurityGroup := fun _ _ _ => inr SecurityGroupScenario.web_group;
     answer_GetSecurityGroup := fun _ _ _ => inr SecurityGroupScenario.web_group;
     answer_DeleteSecurityGroup := fun _ _ _ => None;
     answer_AddExternalSourceToSecurityGroup :=
       fun h _ _ _ => match added_sources h with
                      | [] => None
                      | _ :: _ => Some err_unavailable
                      end;
     answer_RemoveExternalSourceFromSecurityGroup := fun _ _ _ _ => None;
     answer_CreateElasticIP := fun _ _ _ => inl err_unavailable;
     answer_GetElasticIP := fun _ _ _ => inl err_unavailable;
     answer_UpdateElasticIP := fun _ _ _ => None;
     answer_DeleteElasticIP := fun _ _ _ => None;
     answer_UpdateElasticIPReverseDNS := fun _ _ _ _ => None;
     answer_DeleteElasticIPReverseDNS := fun _ _ _ => None;
     answer_GetElasticIPReverseDNS := fun _ _ _ => ("", None) |}.

(** The group "sg-1" as the remote system holds it, with one external
    source and a description. *)
Definition web_described : SecurityGroup :=
  {| SG_Description := Some "front"; SG_ExternalSources := Some ["10.0.0.0/24"];
     SG_ID := Some "sg-1"; SG_Name := Some "web" |}.

(** A remote system that answers every fetch with [web_described]. *)
Definition web_served : Client :=
  constant_client (inr web_described) (inr web_described) None None None
    (inl err_unavailable) (inl err_unavailable) None None None None ("", None).

(** The reverse-DNS record of the elastic IP cannot be read. *)
Definition reverse_dns_unreadable : Client :=
  constant_client (inl err_unavailable) (inl err_unavailable) None None None
    (inr ElasticIPScenario.eip_1) (inr ElasticIPScenario.eip_1) None None None None
    ("", Some err_unavailable).

(** The elastic IP has the reverse-DNS record "eip.example.net.". *)
Definition reverse_dns_named : Client :=
  constant_client (inl err_unavailable) (inl err_unavailable) None None None
    (inr ElasticIPScenario.eip_1) (inr ElasticIPScenario.eip_1) None None None None
    ("eip.example.net.", None).

(** The update call of the elastic IP is refused. *)
Definition update_refused : Client :=
  constant_client (inl err_unavailable) (inl err_unavailable) None None None
    (inr ElasticIPScenario.eip_1) (inr ElasticIPScenario.eip_1)
    (Some err_unavailable) None None None ("", Some err_not_found).

(** The reverse-DNS record cannot be deleted. *)
Definition cleanup_refused : Client :=
  constant_client (inl err_unavailable) (inl err_unavailable) None None None
    (inr ElasticIPScenario.eip_1) (inr ElasticIPScenario.eip_1) None None None
    (Some err_unavailable) ("", Some err_not_found).

(** The create call of the elastic IP is refused. *)
Definition create_refused : Client :=
  constant_client (inl err_unavailable) (inl err_unavailable) None None None
    (inl err_unavailable) (inl err_unavailable) None None None None
    ("", Some err_not_found).

(** The elastic IP "eip-1", which is to get the reverse-DNS name
    "eip.example.net". *)
Definition change_reverse_dns : ElasticIPResource.ResourceData :=
  {| ElasticIPResource.Id := "eip-1";
     ElasticIPResource.prior :=
       {| ElasticIPResource.address_family := "inet4";
          ElasticIPResource.cidr := "";
          ElasticIPResource.description := "old";
          ElasticIPResource.healthcheck := [];
          ElasticIPResource.ip_address := "203.0.113.7";
          ElasticIPResource.reverse_dns := "";
          ElasticIPResource.labels := ∅;
          ElasticIPResource.zone := "ch-gva-2" |};
     ElasticIPResource.planned :=
       {| ElasticIPResource.address_family := "inet4";
          ElasticIPResource.cidr := "";
          ElasticIPResource.description := "old";
          ElasticIPResource.healthcheck := [];
          ElasticIPResource.ip_address := "203.0.113.7";
          ElasticIPResource.reverse_dns := "eip.example.net";
          ElasticIPResource.labels := ∅;
          ElasticIPResource.zone := "ch-gva-2" |};
     ElasticIPResource.written := ElasticIPResource.nothing_written |}.

(** An affinity group of the remote system, a container that asks for a
    group of that name, and two remote systems: one that holds the group,
    one that answers every listing with an empty list. *)
Definition anti : AffinityGroupResource.AffinityGroup :=
  {| AffinityGroupResource.AG_ID := "ag-1";
     AffinityGroupResource.AG_Name := "anti";
     AffinityGroupResource.AG_Description := "";
     AffinityGroupResource.AG_Type := "host anti-affinity";
     AffinityGroupResource.AG_VirtualMachineIDs := [] |}.

Definition new_anti : AffinityGroupResource.ResourceData :=
  {| AffinityGroupResource.Id := "";
     AffinityGroupResource.name := "anti";
     AffinityGroupResource.description := "";
     AffinityGroupResource.type := "host anti-affinity";
     AffinityGroupResource.virtual_machine_ids := ∅ |}.

Definition holds_anti (c : AffinityGroupResource.Command)
  : error + AffinityGroupResource.Response :=
  match c with
  | AffinityGroupResource.CreateAffinityGroup _ _ _ =>
      inr (AffinityGroupResource.CreateAffinityGroupResponse anti)
  | AffinityGroupResource.ListAffinityGroups _ =>
      inr (AffinityGroupResource.ListAffinityGroupsResponse 1 [anti])
  | AffinityGroupResource.DeleteAffinityGroup _ => inr AffinityGroupResource.OtherResponse
  end.

Definition lists_nothing (c : AffinityGroupResource.Command)
  : error + AffinityGroupResource.Response :=
  inr (AffinityGroupResource.ListAffinityGroupsResponse 0 []).

Definition always_fails (c : AffinityGroupResource.Command)
  : error + AffinityGroupResource.Response :=
  inl err_not_found.

(** A [handleNotFound] that clears the identifier and drops the error. *)
Definition clear_and_drop (d : AffinityGroupResource.ResourceData) (err : error)
  : AffinityGroupResource.ResourceData * option error :=
  ({| AffinityGroupResource.Id := "";
      AffinityGroupResource.name := AffinityGroupResource.name d;
      AffinityGroupResource.description := AffinityGroupResource.description d;
      AffinityGroupResource.type := AffinityGroupResource.type d;
      AffinityGroupResource.virtual_machine_ids :=
        AffinityGroupResource.virtual_machine_ids d |}, None).

End MoreScenarios.

(* ===================================================================== *)
(** * Properties                                                           *)
(* ===================================================================== *)

(** ** Running computations of [M] *)

Lemma run_bind {RD A B} (m : M RD A) (f : A -> M RD B) (w : World RD) :
  (m ≫= f) w = match m w with
               | (Ok a, w') => f a w'
               | (Panic msg, w') => (Panic msg, w')
               end.
Proof. reflexivity. Qed.

Lemma run_ret {RD A} (a : A) (w : World RD) : (mret a : M RD A) w = (Ok a, w).
Proof. reflexivity. Qed.

(** A loop whose calls all succeed issues one call per element, in the
    order of the list, and leaves the state container alone. *)
Lemma range_until_error_all_ok {RD A} (ans : A -> list Call -> option error)
  (mk : A -> Call) (l : list A) (w : World RD) :
  (forall x h, ans x h = None) ->
  range_until_error (fun x => remote (ans x) (mk x)) l w
  = (Ok None, {| w_d := w_d w; w_calls := w_calls w ++ map mk l |}).
Proof.
  intros Hok. revert w.
  induction l as [|x xs IH]; intros w.
  - cbn. rewrite app_nil_r. by destruct w.
  - cbn [range_until_error]. rewrite run_bind. unfold remote at 1.
    rewrite Hok. rewrite IH. cbn. by rewrite <- app_assoc.
Qed.

(** Whatever the answers, a loop issues calls for a prefix of the list
    only, never panics and leaves the state container alone. *)
Lemma range_until_error_prefix {RD A} (ans : A -> list Call -> option error)
  (mk : A -> Call) (l : list A) (w : World RD) :
  exists (e : option error) (k : nat),
    range_until_error (fun x => remote (ans x) (mk x)) l w
    = (Ok e, {| w_d := w_d w; w_calls := w_calls w ++ map mk (take k l) |})
    /\ (e = None -> k = length l).
Proof.
  revert w. induction l as [|x xs IH]; intros w.
  - exists None, 0%nat. cbn. rewrite app_nil_r. by destruct w.
  - cbn [range_until_error]. rewrite run_bind. unfold remote at 1.
    destruct (ans x (w_calls w)) as [err|] eqn:E.
    + exists (Some err), 1%nat. cbn. rewrite take_0. split; [done|discriminate].
    + destruct (IH {| w_d := w_d w; w_calls := w_calls w ++ [mk x] |})
        as (e & k & Hrun & Hk).
      exists e, (S k). rewrite Hrun. cbn. rewrite <- app_assoc. split; [done|].
      intros He. by rewrite (Hk He).
Qed.

(** A loop, call by call: the calls it issues are those of the first [k]
    elements; every call but the last was answered without error, and the
    last one with the result of the loop. *)
Lemma range_until_error_trace {RD A} (ans : A -> list Call -> option error)
  (mk : A -> Call) (l : list A) (w : World RD) :
  exists (e : option error) (k : nat),
    range_until_error (fun x => remote (ans x) (mk x)) l w
    = (Ok e, {| w_d := w_d w; w_calls := w_calls w ++ map mk (take k l) |})
    /\ (k <= length l)%nat
    /\ (forall err, e = Some err -> (0 < k)%nat)
    /\ (forall i x, l !! i = Some x -> (i < k)%nat ->
          ans x (w_calls w ++ map mk (take i l))
          = if decide (S i = k) then e else None).
Proof.
  revert w. induction l as [|x xs IH]; intros w.
  - exists None, 0%nat. cbn. rewrite app_nil_r.
    split; [by destruct w|]. split; [done|]. split; [done|]. intros i y _ Hi. lia.
  - cbn [range_until_error]. rewrite run_bind. unfold remote at 1.
    destruct (ans x (w_calls w)) as [err|] eqn:E.
    + exists (Some err), 1%nat. cbn. rewrite take_0.
      split; [done|]. split; [lia|]. split; [intros; lia|].
      intros i y Hy Hi. assert (i = 0%nat) as -> by lia.
      cbn in Hy. injection Hy as <-. cbn. by rewrite app_nil_r.
    + destruct (IH {| w_d := w_d w; w_calls := w_calls w ++ [mk x] |})
        as (e & k & Hrun & Hk & Hpos & Htr).
      exists e, (S k). cbn. cbn in Hrun. rewrite Hrun. rewrite <- app_assoc.
      split; [done|]. split; [lia|]. split; [intros; lia|].
      intros [|i] y Hy Hi.
      * cbn in Hy. injection Hy as <-. cbn. rewrite app_nil_r, E.
        destruct (decide (1%nat = S k)) as [Hk1|]; [|done].
        destruct e as [err|]; [|done].
        specialize (Hpos err eq_refl). lia.
      * cbn in Hy. specialize (Htr i y Hy ltac:(lia)). cbn in Htr.
        rewrite <- app_assoc in Htr. cbn in Htr. cbn [take map]. rewrite Htr.
        destruct (decide (S i = k)), (decide (S (S i) = S k)); (done || lia).
Qed.

(* ===================================================================== *)
(** ** strings.ToLower                                                     *)
(* ===================================================================== *)

Section ToLowerFacts.

Variable U : string -> string.

Lemma byte_to_lower_not_upper (c : ascii) : byte_is_upper (byte_to_lower c) = false.
Proof. by destruct c as [[] [] [] [] [] [] [] []]. Qed.

Lemma byte_to_lower_ascii (c : ascii) :
  byte_is_ascii c = true -> byte_is_ascii (byte_to_lower c) = true.
Proof. by destruct c as [[] [] [] [] [] [] [] []]. Qed.

Lemma lower_bytes_no_upper (s : string) : hasUpper (lower_bytes s) = false.
Proof.
  induction s as [|c s IH]; [done|].
  cbn. by rewrite byte_to_lower_not_upper, IH.
Qed.

Lemma lower_bytes_ascii (s : string) :
  isASCII s = true -> isASCII (lower_bytes s) = true.
Proof.
  induction s as [|c s IH]; [done|].
  cbn. intros [Hc Hs]%andb_prop.
  by rewrite (byte_to_lower_ascii _ Hc), (IH Hs).
Qed.

(** A string without upper-case ASCII letter is lowered to itself, byte by
    byte. *)
Lemma lower_bytes_fixed (s : string) : hasUpper s = false -> lower_bytes s = s.
Proof.
  induction s as [|c s IH]; [done|].
  cbn. intros [Hc Hs]%orb_false_elim.
  unfold byte_to_lower. by rewrite Hc, (IH Hs).
Qed.

(** On ASCII-only strings [strings.ToLower] is the byte-wise lowering. *)
Lemma strings_ToLower_ascii (s : string) :
  isASCII s = true -> strings_ToLower U s = lower_bytes s.
Proof.
  intros Ha. unfold strings_ToLower. rewrite Ha.
  destruct (hasUpper s) eqn:Hu; [done|]. cbn. by rewrite lower_bytes_fixed.
Qed.






End ToLowerFacts.

(* ===================================================================== *)
(** ** Security group: the state upgrader                                  *)
(* ===================================================================== *)

Module SecurityGroupUpgrade.
Import SecurityGroupResource.


(** C8. For a raw state in which the "name" key is missing or holds a
    value that is not a string, the upgrade function returns no state and
    the error "unable to get resource name during migration". The function
    is a function of the raw state alone: it is handed no client and its
    result holds no log of calls, so it issues no remote call. *)
Theorem state_upgrade_v0_fails_without_name
  (U : string -> string) (rawState : gmap string RawValue) :
  (rawState !! "name" = None
   \/ exists v, rawState !! "name" = Some v /\ forall s, v ≠ RawString s) ->
  resourceSecurityGroupStateUpgradeV0 U rawState
  = (None, Some (fmt_Errorf "unable to get resource name during migration"))
  /\ Error (fmt_Errorf "unable to get resource name during migration") ≠ "".
Proof.
  intros H. split; [|done].
  unfold resourceSecurityGroupStateUpgradeV0.
  destruct H as [-> | (v & -> & Hv)]; [done|].
  destruct v; try done. by destruct (Hv s).
Qed.


Lemma state_upgrade_v0_fails_without_name_witness :
  resourceSecurityGroupStateUpgradeV0 (fun s => s) {[ "name" := RawNumber "42" ]}
  = (None, Some (fmt_Errorf "unable to get resource name during migration")).
Proof.
  destruct (state_upgrade_v0_fails_without_name
              (fun s => s) {[ "name" := RawNumber "42" ]}) as [H _].
  - right. exists (RawNumber "42"). split; [reflexivity | discriminate].
  - exact H.
Defined.

End SecurityGroupUpgrade.

(** The same for a loop that runs only when the set is not empty:
    [if s.Len() > 0 { for _, x := range s.List() { ... } }]. *)
Lemma guarded_range_all_ok {RD} (ans : string -> list Call -> option error)
  (mk : string -> Call) (s : gset string) (w : World RD) :
  (forall x h, ans x h = None) ->
  (if bool_decide (0 < Set_Len s)%nat
   then range_until_error (fun x => remote (ans x) (mk x)) (Set_List s)
   else (fun w0 => (Ok None, w0))) w
  = (Ok None, {| w_d := w_d w; w_calls := w_calls w ++ map mk (Set_List s) |}).
Proof.
  intros Hok. case_bool_decide as Hlen.
  - by apply range_until_error_all_ok.
  - unfold Set_Len, Set_List in *.
    assert (s = ∅) as -> by (apply leibniz_equiv, size_empty_inv; lia).
    rewrite elements_empty. cbn. rewrite app_nil_r. by destruct w.
Qed.

Lemma guarded_range_prefix {RD} (ans : string -> list Call -> option error)
  (mk : string -> Call) (s : gset string) (w : World RD) :
  exists (e : option error) (k : nat),
    (if bool_decide (0 < Set_Len s)%nat
     then range_until_error (fun x => remote (ans x) (mk x)) (Set_List s)
     else (fun w0 => (Ok None, w0))) w
    = (Ok e, {| w_d := w_d w; w_calls := w_calls w ++ map mk (take k (Set_List s)) |}).
Proof.
  case_bool_decide.
  - destruct (range_until_error_prefix ans mk (Set_List s) w) as (e & k & Hrun & _).
    by exists e, k.
  - exists None, 0%nat. rewrite take_0. cbn. rewrite app_nil_r. by destruct w.
Qed.

(** The same, for a loop behind its test [Len() > 0]. *)
Lemma guarded_range_trace {RD} (ans : string -> list Call -> option error)
  (mk : string -> Call) (s : gset string) (w : World RD) :
  exists (e : option error) (k : nat),
    (if bool_decide (0 < Set_Len s)%nat
     then range_until_error (fun x => remote (ans x) (mk x)) (Set_List s)
     else (fun w0 => (Ok None, w0))) w
    = (Ok e, {| w_d := w_d w; w_calls := w_calls w ++ map mk (take k (Set_List s)) |})
    /\ (k <= length (Set_List s))%nat
    /\ (forall err, e = Some err -> (0 < k)%nat)
    /\ (forall i x, Set_List s !! i = Some x -> (i < k)%nat ->
          ans x (w_calls w ++ map mk (take i (Set_List s)))
          = if decide (S i = k) then e else None).
Proof.
  case_bool_decide.
  - apply range_until_error_trace.
  - exists None, 0%nat. rewrite take_0. cbn. rewrite app_nil_r.
    split; [by destruct w|]. split; [lia|]. split; [done|]. intros; lia.
Qed.

Module SecurityGroupLifecycle.
Import SecurityGroupResource.

Ltac run_sg :=
  repeat (progress unfold resourceSecurityGroupApply,
    d_Id, d_SetId, d_Get_name, d_Get_description, d_GetOk_external_sources,
    d_GetChange_external_sources, d_HasChange_external_sources,
    d_Set_name, d_Set_description, d_Set_external_sources,
    get_d, modify_d, deref, mbind, mret, M_bind, M_ret); cbn.

Section WithClient.

Variable defaultZone : string.
Variable client : Client.

(** Read issues the fetch and nothing else. *)
Lemma security_group_read_calls (d : ResourceData) (h : list Call) :
  w_calls (snd (resourceSecurityGroupRead defaultZone client {| w_d := d; w_calls := h |}))
  = h ++ [GetSecurityGroup defaultZone (Id d)].
Proof.
  unfold resourceSecurityGroupRead. run_sg.
  destruct (answer_GetSecurityGroup client h defaultZone (Id d)) as [err|sg];
    [by destruct (errors_Is_ErrNotFound err)|].
  destruct (SG_Name sg); cbn; [|done].
  by destruct (SG_ExternalSources sg).
Qed.

(** When the fetch fails, Read clears the identifier on not-found and
    reports every other error; it touches nothing else. *)
Lemma security_group_read_fetch_failure (d : ResourceData) (h : list Call) (err : error) :
  answer_GetSecurityGroup client h defaultZone (Id d) = inl err ->
  resourceSecurityGroupRead defaultZone client {| w_d := d; w_calls := h |}
  = if errors_Is_ErrNotFound err
    then (Ok [],
          {| w_d := {| Id := ""; prior := prior d; planned := planned d;
                       set_name := set_name d;
                       set_description := set_description d;
                       set_external_sources := set_external_sources d |};
             w_calls := h ++ [GetSecurityGroup defaultZone (Id d)] |})
    else (Ok (diag_FromErr (Some err)),
          {| w_d := d; w_calls := h ++ [GetSecurityGroup defaultZone (Id d)] |}).
Proof.
  intros Hget. unfold resourceSecurityGroupRead. run_sg. rewrite Hget.
  by destruct (errors_Is_ErrNotFound err).
Qed.

Lemma update_calls_all_ok (d : ResourceData) (h : list Call) (sg : SecurityGroup) :
  answer_GetSecurityGroup client h defaultZone (Id d) = inr sg ->
  (forall h' s c, answer_AddExternalSourceToSecurityGroup client h' defaultZone s c = None) ->
  (forall h' s c, answer_RemoveExternalSourceFromSecurityGroup client h' defaultZone s c = None) ->
  w_calls (snd (resourceSecurityGroupUpdate defaultZone client {| w_d := d; w_calls := h |}))
  = h ++ [GetSecurityGroup defaultZone (Id d)]
      ++ map (AddExternalSourceToSecurityGroup defaultZone sg)
             (Set_List (external_sources (planned d) ∖ external_sources (prior d)))
      ++ map (RemoveExternalSourceFromSecurityGroup defaultZone sg)
             (Set_List (external_sources (prior d) ∖ external_sources (planned d)))
      ++ [GetSecurityGroup defaultZone (Id d)].
Proof.
  intros Hget Hadd Hrem.
  unfold resourceSecurityGroupUpdate. run_sg. rewrite Hget.
  case_bool_decide as Hchg.
  - rewrite (guarded_range_all_ok
               (fun cidr h0 => answer_AddExternalSourceToSecurityGroup client h0 defaultZone sg cidr)
               (AddExternalSourceToSecurityGroup defaultZone sg)) by done.
    rewrite (guarded_range_all_ok
               (fun cidr h0 => answer_RemoveExternalSourceFromSecurityGroup client h0 defaultZone sg cidr)
               (RemoveExternalSourceFromSecurityGroup defaultZone sg)) by done.
    cbn. rewrite security_group_read_calls. cbn. by rewrite <- !app_assoc.
  - cbn in Hchg. rewrite Hchg, difference_diag_L.
    unfold Set_List. rewrite elements_empty. cbn.
    rewrite security_group_read_calls. cbn. by rewrite <- app_assoc.
Qed.

(** Without a change of the set, Update issues its fetch and, when that
    succeeded, the fetch of the final Read: whatever the remote answers. *)
Lemma update_calls_no_change (d : ResourceData) (h : list Call) :
  external_sources (prior d) = external_sources (planned d) ->
  w_calls (snd (resourceSecurityGroupUpdate defaultZone client {| w_d := d; w_calls := h |}))
  = h ++ GetSecurityGroup defaultZone (Id d)
         :: match answer_GetSecurityGroup client h defaultZone (Id d) with
            | inl _ => []
            | inr _ => [GetSecurityGroup defaultZone (Id d)]
            end.
Proof.
  intros Hsame.
  unfold resourceSecurityGroupUpdate. run_sg.
  destruct (answer_GetSecurityGroup client h defaultZone (Id d)) as [err|sg]; [done|].
  rewrite bool_decide_eq_false_2 by (by intros []).
  rewrite security_group_read_calls. cbn. by rewrite <- app_assoc.
Qed.

(** Create stores the identifier after the loop of add calls only: when
    the group is created and the first add call fails, Create reports the
    failure and the state container is the one it was handed, its
    identifier included; no delete call is issued. *)
Lemma create_add_failure_leaves_container (d : ResourceData) (h : list Call)
  (sg : SecurityGroup) (err : error) :
  let req := {| SG_Description :=
                  nonEmptyStringPtr (default (description (planned d)) (set_description d));
                SG_ExternalSources := None;
                SG_ID := None;
                SG_Name := nonEmptyStringPtr (default (name (planned d)) (set_name d)) |} in
  answer_CreateSecurityGroup client h defaultZone req = inr sg ->
  default (external_sources (planned d)) (set_external_sources d) ≠ ∅ ->
  (forall c, answer_AddExternalSourceToSecurityGroup client
               (h ++ [CreateSecurityGroup defaultZone req]) defaultZone sg c = Some err) ->
  exists c,
    resourceSecurityGroupCreate defaultZone client {| w_d := d; w_calls := h |}
    = (Ok (diag_FromErr (Some err)),
       {| w_d := d;
          w_calls := h ++ [CreateSecurityGroup defaultZone req;
                           AddExternalSourceToSecurityGroup defaultZone sg c] |}).
Proof.
  intros req Hcreate Hsources Hfail.
  unfold resourceSecurityGroupCreate. run_sg. fold req. rewrite Hcreate. cbn.
  rewrite bool_decide_eq_true_2 by done. unfold Set_List.
  destruct (elements (default (external_sources (planned d)) (set_external_sources d)))
    as [|c cs] eqn:Hl.
  { apply elements_empty_inv in Hl. by apply leibniz_equiv in Hl. }
  exists c. cbn. rewrite run_bind. unfold remote at 1. cbn. rewrite Hfail. cbn.
  by rewrite <- app_assoc.
Qed.

End WithClient.

Lemma added_sources_app (l1 l2 : list Call) :
  added_sources (l1 ++ l2) = added_sources l1 ++ added_sources l2.
Proof. apply omap_app. Qed.

Lemma removed_sources_app (l1 l2 : list Call) :
  removed_sources (l1 ++ l2) = removed_sources l1 ++ removed_sources l2.
Proof. apply omap_app. Qed.

Lemma added_sources_adds (z : string) (sg : SecurityGroup) (l : list string) :
  added_sources (map (AddExternalSourceToSecurityGroup z sg) l) = l.
Proof. induction l as [|x l IH]; [done|]. cbn. by f_equal. Qed.

Lemma added_sources_removes (z : string) (sg : SecurityGroup) (l : list string) :
  added_sources (map (RemoveExternalSourceFromSecurityGroup z sg) l) = [].
Proof. induction l as [|x l IH]; [done|]. cbn. by f_equal. Qed.

Lemma removed_sources_adds (z : string) (sg : SecurityGroup) (l : list string) :
  removed_sources (map (AddExternalSourceToSecurityGroup z sg) l) = [].
Proof. induction l as [|x l IH]; [done|]. cbn. by f_equal. Qed.

Lemma removed_sources_removes (z : string) (sg : SecurityGroup) (l : list string) :
  removed_sources (map (RemoveExternalSourceFromSecurityGroup z sg) l) = l.
Proof. induction l as [|x l IH]; [done|]. cbn. by f_equal. Qed.

(** Whatever the remote system answers, the add calls of a run of Update
    go through the elements of S2 ∖ S1 in order and the remove calls
    through those of S1 ∖ S2, stopping at the first failure. *)
Lemma update_sources_prefix (defaultZone : string) (client : Client)
  (d : ResourceData) (h : list Call) :
  let issued :=
    drop (length h)
      (w_calls (snd (resourceSecurityGroupUpdate defaultZone client
                       {| w_d := d; w_calls := h |}))) in
  added_sources issued
    `prefix_of` Set_List (external_sources (planned d) ∖ external_sources (prior d))
  /\ removed_sources issued
    `prefix_of` Set_List (external_sources (prior d) ∖ external_sources (planned d)).
Proof.
  unfold resourceSecurityGroupUpdate. run_sg.
  destruct (answer_GetSecurityGroup client h defaultZone (Id d)) as [err|sg]; cbn.
  { rewrite drop_app_length. cbn. split; apply prefix_nil. }
  case_bool_decide as Hchg; cbn; cycle 1.
  { rewrite security_group_read_calls. cbn. rewrite <- app_assoc, drop_app_length. cbn.
    split; apply prefix_nil. }
  destruct (guarded_range_prefix
              (fun cidr h0 => answer_AddExternalSourceToSecurityGroup client h0 defaultZone sg cidr)
              (AddExternalSourceToSecurityGroup defaultZone sg)
              (external_sources (planned d) ∖ external_sources (prior d))
              {| w_d := d; w_calls := h ++ [GetSecurityGroup defaultZone (Id d)] |})
    as (e1 & k1 & Hrun1).
  rewrite Hrun1. cbn.
  destruct e1 as [err1|]; cbn.
  { rewrite <- app_assoc, drop_app_length.
    change (?x :: ?l) with ([x] ++ l).
    rewrite added_sources_app, removed_sources_app, added_sources_adds, removed_sources_adds.
    cbn. split; [apply prefix_take | apply prefix_nil]. }
  destruct (guarded_range_prefix
              (fun cidr h0 => answer_RemoveExternalSourceFromSecurityGroup client h0 defaultZone sg cidr)
              (RemoveExternalSourceFromSecurityGroup defaultZone sg)
              (external_sources (prior d) ∖ external_sources (planned d))
              {| w_d := d;
                 w_calls := (h ++ [GetSecurityGroup defaultZone (Id d)])
                            ++ map (AddExternalSourceToSecurityGroup defaultZone sg)
                                 (take k1 (Set_List (external_sources (planned d)
                                                     ∖ external_sources (prior d)))) |})
    as (e2 & k2 & Hrun2).
  rewrite Hrun2. cbn.
  destruct e2 as [err2|]; cbn; [|rewrite security_group_read_calls; cbn];
    rewrite <- !app_assoc, drop_app_length;
    change (?x :: ?l) with ([x] ++ l);
    rewrite !added_sources_app, !removed_sources_app, added_sources_adds,
      removed_sources_adds, added_sources_removes, removed_sources_removes;
    cbn; rewrite ?app_nil_r; split; apply prefix_take.
Qed.

(** C1. Let S1 be the old and S2 the new value of [external_sources], and
    take the calls that one run of Update appends to the log. When the
    fetch of the group succeeds and no add or remove call fails, the add
    calls are issued for the elements of S2 ∖ S1, each once (|S2 ∖ S1|
    calls), and the remove calls for the elements of S1 ∖ S2, each once
    (|S1 ∖ S2| calls). When S1 = S2 no add and no remove call is issued,
    whatever the remote system answers. In every run, a failed call
    included, the add calls are a prefix of the list of S2 ∖ S1 and the
    remove calls a prefix of the list of S1 ∖ S2: never a call for another
    source, never two for the same. *)
Theorem update_external_sources_one_call_per_difference
  (defaultZone : string) (client : Client) (d : ResourceData) (h : list Call) :
  let S1 := external_sources (prior d) in
  let S2 := external_sources (planned d) in
  let issued :=
    drop (length h)
      (w_calls (snd (resourceSecurityGroupUpdate defaultZone client
                       {| w_d := d; w_calls := h |}))) in
  (forall sg,
     answer_GetSecurityGroup client h defaultZone (Id d) = inr sg ->
     (forall h' s c,
        answer_AddExternalSourceToSecurityGroup client h' defaultZone s c = None) ->
     (forall h' s c,
        answer_RemoveExternalSourceFromSecurityGroup client h' defaultZone s c = None) ->
     (length (added_sources issued) = size (S2 ∖ S1)
      /\ NoDup (added_sources issued)
      /\ (forall c, c ∈ added_sources issued <-> c ∈ S2 /\ c ∉ S1))
     /\ (length (removed_sources issued) = size (S1 ∖ S2)
         /\ NoDup (removed_sources issued)
         /\ (forall c, c ∈ removed_sources issued <-> c ∈ S1 /\ c ∉ S2)))
  /\ (S1 = S2 -> added_sources issued = [] /\ removed_sources issued = [])
  /\ (added_sources issued `prefix_of` Set_List (S2 ∖ S1)
      /\ removed_sources issued `prefix_of` Set_List (S1 ∖ S2)).
Proof.
  intros S1 S2 issued. split; [|split].
  - intros sg Hget Hadd Hrem.
    assert (Hadded : added_sources issued = elements (S2 ∖ S1)).
    { unfold issued. rewrite (update_calls_all_ok _ _ _ _ sg Hget Hadd Hrem).
      rewrite drop_app_length.
      change (?x :: ?l) with ([x] ++ l).
      rewrite !added_sources_app, added_sources_adds, added_sources_removes.
      cbn. by rewrite app_nil_r. }
    assert (Hremoved : removed_sources issued = elements (S1 ∖ S2)).
    { unfold issued. rewrite (update_calls_all_ok _ _ _ _ sg Hget Hadd Hrem).
      rewrite drop_app_length.
      change (?x :: ?l) with ([x] ++ l).
      rewrite !removed_sources_app, removed_sources_adds, removed_sources_removes.
      cbn. by rewrite app_nil_r. }
    rewrite Hadded, Hremoved.
    split; (split; [done|]); (split; [apply NoDup_elements|]);
      intros c; rewrite elem_of_elements; set_solver.
  - intros Hsame. unfold issued.
    rewrite (update_calls_no_change _ _ _ _ Hsame), drop_app_length.
    by destruct (answer_GetSecurityGroup client h defaultZone (Id d)).
  - apply update_sources_prefix.
Qed.

Import SecurityGroupScenario.

Lemma update_external_sources_witness :
  let issued :=
    drop 0 (w_calls (snd (resourceSecurityGroupUpdate "ch-gva-2" healthy
                            {| w_d := web_change_source; w_calls := [] |}))) in
  length (added_sources issued) = 1%nat /\ length (removed_sources issued) = 1%nat.
Proof.
  destruct (update_external_sources_one_call_per_difference
              "ch-gva-2" healthy web_change_source []) as [H _].
  destruct (H web_group) as [(Ha & _) (Hr & _)]; [reflexivity | reflexivity | reflexivity |].
  split; [exact Ha | exact Hr].
Defined.

(** C4, on the security group: the group is created, the one external
    source cannot be added. Create reports the failure, and the
    identifier "sg-1" returned by the create call is not in the state
    container: [d.SetId] comes after the loop of add calls. No delete call
    is issued. *)
Theorem security_group_create_add_failure_id_not_stored :
  resourceSecurityGroupCreate "ch-gva-2" add_source_fails
    {| w_d := new_web; w_calls := [] |}
  = (Ok (diag_FromErr (Some err_unavailable)),
     {| w_d := new_web;
        w_calls :=
          [ CreateSecurityGroup "ch-gva-2"
              {| SG_Description := None; SG_ExternalSources := None;
                 SG_ID := None; SG_Name := Some "web" |};
            AddExternalSourceToSecurityGroup "ch-gva-2" web_group "10.0.0.0/24" ] |})
  /\ Id new_web = "".
Proof.
  split; [|reflexivity]. vm_compute. reflexivity.
Qed.

End SecurityGroupLifecycle.

(* ===================================================================== *)
(** ** Elastic IP                                                          *)
(* ===================================================================== *)

Module ElasticIPLifecycle.
Import ElasticIPResource ElasticIPChanges.

Ltac run_eip :=
  repeat (progress unfold
    d_Id, d_SetId, d_Get_zone, d_Get_description, d_Get_labels,
    d_Get_reverse_dns, d_Get_healthcheck, d_GetOk, d_GetOk_healthcheck,
    d_HasChange, d_HasChange_healthcheck, d_Set, assign_Healthcheck,
    get_d, modify_d, deref, mbind, mret, M_bind, M_ret); cbn.

(** The copy loop over a map of labels yields the same map. *)
Lemma copy_labels_id (m : gmap string string) : copy_labels m = m.
Proof.
  unfold copy_labels.
  apply (map_fold_weak_ind (fun r m => r = m)); [done|].
  intros k v m0 r _ ->. done.
Qed.

(** One statement on a top-level attribute. *)
Lemma if_changed_top_run {B} (changed : Cb bool) (c : bool) (getter : Cb B) (v : B)
  (g : B -> ElasticIP -> ElasticIP) (st : ElasticIP * bool) (w : World ResourceData) :
  changed w = (Ok c, w) ->
  getter w = (Ok v, w) ->
  if_changed changed (fun e => x ← getter; mret (g x e)) st w
  = (Ok (if c then (g v (fst st), true) else st), w).
Proof.
  intros Hc Hg. unfold if_changed. rewrite run_bind, Hc.
  destruct c; [|done]. by rewrite !run_bind, Hg.
Qed.

(** One statement on an attribute of the healthcheck block. *)
Lemma if_changed_healthcheck_run {B} (changed : Cb bool) (c : bool) (getter : Cb B) (v : B)
  (upd : B -> ElasticIPHealthcheck -> ElasticIPHealthcheck)
  (st : ElasticIP * bool) (w : World ResourceData) :
  changed w = (Ok c, w) ->
  getter w = (Ok v, w) ->
  if_changed changed (fun e => x ← getter; assign_Healthcheck (upd x) e) st w
  = (if c then
       match EIP_Healthcheck (fst st) with
       | Some hc => Ok (with_Healthcheck (Some (upd v hc)) (fst st), true)
       | None => Panic nil_deref
       end
     else Ok st, w).
Proof.
  intros Hc Hg. unfold if_changed. rewrite run_bind, Hc.
  destruct c; [|done]. rewrite !run_bind, Hg.
  unfold assign_Healthcheck, deref. rewrite run_bind.
  by destruct (EIP_Healthcheck st.1).
Qed.

Local Ltac merge_step :=
  try rewrite run_bind;
  first [ erewrite if_changed_top_run by reflexivity
        | erewrite if_changed_healthcheck_run by reflexivity ];
  cbn -[if_changed];
  match goal with
  | |- ?lhs = _ =>
      match lhs with context [if ?c then _ else _] => destruct c end
  end;
  cbn -[if_changed].

(** The simple-field statements of Update, run on the fetched object [e]:
    they end in a nil dereference when a healthcheck attribute changed
    and [e] has no healthcheck, and otherwise leave the merged object and
    the dirty flag in the local variables. They change neither the state
    container nor the log. *)
Lemma merge_run (d : ResourceData) (h : list Call) (e : ElasticIP) :
  resourceElasticIPUpdate_merge e {| w_d := d; w_calls := h |}
  = (if healthcheck_changed d && bool_decide (EIP_Healthcheck e = None)
     then Panic nil_deref
     else Ok (merged_object d e, simple_field_changed d),
     {| w_d := d; w_calls := h |}).
Proof.
  unfold resourceElasticIPUpdate_merge.
  unfold simple_field_changed, healthcheck_changed, merged_object, merged_healthcheck.
  destruct e as [af ci de [hc|] id ip la]; cbn -[if_changed].
  - destruct hc. do 11 merge_step; rewrite ?copy_labels_id; reflexivity.
  - repeat merge_step; rewrite ?copy_labels_id; reflexivity.
Qed.

Section WithClient.

Variable client : Client.

(** Apply issues the reverse-DNS fetch, or no call when a nil pointer
    stops it before. *)
Lemma apply_calls (e : ElasticIP) (d : ResourceData) (h : list Call) :
  exists tail,
    w_calls (snd (resourceElasticIPApply client e {| w_d := d; w_calls := h |}))
    = h ++ tail
    /\ (tail = [] \/ exists id, tail = [GetElasticIPReverseDNS (zone (planned d)) id]).
Proof.
  unfold resourceElasticIPApply.
  destruct e as [af ci de hc id ip la].
  destruct hc as [[[i|] [m|] [p|] [sf|] [so|] ts tv [t|] u]|], ip, id; run_eip;
    try (destruct (answer_GetElasticIPReverseDNS client _ _ _) as [rdns [err|]];
         [destruct (errors_Is_ErrNotFound err)|]; cbn);
    first [ exists []; rewrite app_nil_r; split; [reflexivity | by left]
          | eexists [_]; split; [reflexivity | right; eauto] ].
Qed.

(** When the fetch fails, Read clears the identifier on not-found and
    reports every other error; it touches nothing else. *)
Lemma elastic_ip_read_fetch_failure (d : ResourceData) (h : list Call) (err : error) :
  answer_GetElasticIP client h (zone (planned d)) (Id d) = inl err ->
  resourceElasticIPRead client {| w_d := d; w_calls := h |}
  = if errors_Is_ErrNotFound err
    then (Ok [],
          {| w_d := {| Id := ""; prior := prior d; planned := planned d;
                       written := written d |};
             w_calls := h ++ [GetElasticIP (zone (planned d)) (Id d)] |})
    else (Ok (diag_FromErr (Some err)),
          {| w_d := d; w_calls := h ++ [GetElasticIP (zone (planned d)) (Id d)] |}).
Proof.
  intros Hget. unfold resourceElasticIPRead. run_eip. rewrite Hget.
  by destruct (errors_Is_ErrNotFound err).
Qed.

(** Read issues the fetch and, at most, the reverse-DNS fetch of Apply. *)
Lemma elastic_ip_read_calls (d : ResourceData) (h : list Call) :
  exists tail,
    w_calls (snd (resourceElasticIPRead client {| w_d := d; w_calls := h |}))
    = h ++ GetElasticIP (zone (planned d)) (Id d) :: tail
    /\ (tail = [] \/ exists id, tail = [GetElasticIPReverseDNS (zone (planned d)) id]).
Proof.
  destruct (answer_GetElasticIP client h (zone (planned d)) (Id d)) as [err|e] eqn:Hget.
  - exists []. rewrite (elastic_ip_read_fetch_failure _ _ _ Hget).
    split; [by destruct (errors_Is_ErrNotFound err) | by left].
  - unfold resourceElasticIPRead. run_eip. rewrite Hget.
    destruct (apply_calls e d (h ++ [GetElasticIP (zone (planned d)) (Id d)]))
      as (tail & Hcalls & Htail).
    exists tail. rewrite Hcalls, <- app_assoc. done.
Qed.

Lemma updates_issued_app (l1 l2 : list Call) :
  updates_issued (l1 ++ l2) = updates_issued l1 ++ updates_issued l2.
Proof. apply omap_app. Qed.

Local Arguments resourceElasticIPUpdate_merge : simpl never.
Local Arguments resourceElasticIPRead : simpl never.

(** With a changed healthcheck attribute and a fetched object without
    healthcheck, Update ends in a nil dereference right after the fetch. *)
Lemma update_panics_without_healthcheck (d : ResourceData) (h : list Call) (e : ElasticIP) :
  answer_GetElasticIP client h (zone (planned d)) (Id d) = inr e ->
  healthcheck_changed d = true ->
  EIP_Healthcheck e = None ->
  resourceElasticIPUpdate client {| w_d := d; w_calls := h |}
  = (Panic nil_deref,
     {| w_d := d; w_calls := h ++ [GetElasticIP (zone (planned d)) (Id d)] |}).
Proof.
  intros Hget Hchg Hnil.
  unfold resourceElasticIPUpdate. run_eip. rewrite Hget. cbn.
  rewrite merge_run, Hchg, Hnil. reflexivity.
Qed.

(** An Update whose fetch succeeds, on an object with a healthcheck if a
    healthcheck attribute changed: the local variables after the
    simple-field statements, and the update calls of the run. *)
Lemma update_calls_merged (d : ResourceData) (h : list Call) (e : ElasticIP) :
  answer_GetElasticIP client h (zone (planned d)) (Id d) = inr e ->
  (healthcheck_changed d = true -> EIP_Healthcheck e ≠ None) ->
  fst (resourceElasticIPUpdate_merge e
         {| w_d := d; w_calls := h ++ [GetElasticIP (zone (planned d)) (Id d)] |})
  = Ok (merged_object d e, simple_field_changed d)
  /\ updates_issued
       (drop (length h)
          (w_calls (snd (resourceElasticIPUpdate client {| w_d := d; w_calls := h |}))))
     = (if simple_field_changed d then [merged_object d e] else []).
Proof.
  intros Hget Hhc.
  assert (Hcond : healthcheck_changed d && bool_decide (EIP_Healthcheck e = None) = false).
  { destruct (healthcheck_changed d); [|done]. cbn.
    apply bool_decide_eq_false_2. by apply Hhc. }
  split; [by rewrite merge_run, Hcond|].
  unfold resourceElasticIPUpdate. run_eip. rewrite Hget. cbn.
  rewrite merge_run, Hcond. cbn.
  destruct (simple_field_changed d); cbn;
    [destruct (answer_UpdateElasticIP client _ _ _); cbn|];
    try (rewrite <- ?app_assoc; rewrite drop_app_length; reflexivity);
    (destruct (HasChange reverse_dns d); cbn;
     [destruct (EIP_ID e); cbn;
      [destruct (decide (Get reverse_dns set_reverse_dns d = "")); cbn;
       match goal with
       | |- context [answer_DeleteElasticIPReverseDNS ?c ?a ?z ?i] =>
           destruct (answer_DeleteElasticIPReverseDNS c a z i)
       | |- context [answer_UpdateElasticIPReverseDNS ?c ?a ?z ?i ?r] =>
           destruct (answer_UpdateElasticIPReverseDNS c a z i r)
       end; cbn|]|]);
    try match goal with
        | |- context [resourceElasticIPRead client ?w] =>
            let tail := fresh "tail" in
            let Hc := fresh "Hc" in
            destruct (elastic_ip_read_calls (w_d w) (w_calls w)) as (tail & Hc & [-> | [? ->]]);
            cbn in Hc; rewrite Hc
        end;
    rewrite <- ?app_assoc; rewrite drop_app_length; reflexivity.
Qed.

(** The update calls of a run of Update whose simple-field statements
    complete. Take the calls that one run appends to the log. When the
    fetch returns the object [e], the healthcheck of [e] being set if a
    healthcheck attribute changed (without it the run ends in a panic
    before any update call), the simple-field statements leave in the
    local variables the merged object (every changed simple field at its
    desired value, every other field as fetched) and the dirty flag, which
    is set exactly when some simple field changed; and the run issues
    exactly one update call, carrying the merged object, when a simple
    field changed. When no simple field changed the run issues no update
    call, whatever the remote system answers. *)
Theorem update_issues_one_update_call_with_merged_object
  (d : ResourceData) (h : list Call) :
  let issued :=
    drop (length h)
      (w_calls (snd (resourceElasticIPUpdate client {| w_d := d; w_calls := h |}))) in
  (forall e,
     answer_GetElasticIP client h (zone (planned d)) (Id d) = inr e ->
     (healthcheck_changed d = true -> EIP_Healthcheck e ≠ None) ->
     fst (resourceElasticIPUpdate_merge e
            {| w_d := d; w_calls := h ++ [GetElasticIP (zone (planned d)) (Id d)] |})
     = Ok (merged_object d e, simple_field_changed d)
     /\ (simple_field_changed d = true -> updates_issued issued = [merged_object d e]))
  /\ (simple_field_changed d = false -> updates_issued issued = []).
Proof.
  intros issued. split.
  - intros e Hget Hhc.
    destruct (update_calls_merged d h e Hget Hhc) as [Hmerge Hcalls].
    split; [exact Hmerge|]. intros Hs. unfold issued. by rewrite Hcalls, Hs.
  - intros Hs. unfold issued.
    destruct (answer_GetElasticIP client h (zone (planned d)) (Id d)) as [err|e] eqn:Hget.
    + unfold resourceElasticIPUpdate. run_eip. rewrite Hget. cbn.
      by rewrite drop_app_length.
    + assert (Hhc : healthcheck_changed d = false).
      { unfold simple_field_changed in Hs.
        by apply orb_false_elim in Hs as [_ ?]. }
      destruct (update_calls_merged d h e Hget) as [_ Hcalls].
      { by rewrite Hhc. }
      by rewrite Hcalls, Hs.
Qed.

(** C10. When some attribute of the healthcheck block is reported changed,
    the simple-field statements of Update assign through
    [elasticIP.Healthcheck] with no test that it is set: run on the
    fetched object they are free of a nil dereference exactly when that
    object has a healthcheck, and an Update whose fetch returns an object
    without healthcheck ends in the nil-dereference panic. *)
Theorem update_healthcheck_assignment_requires_healthcheck
  (d : ResourceData) (h : list Call) (e : ElasticIP) :
  healthcheck_changed d = true ->
  (panicked (fst (resourceElasticIPUpdate_merge e {| w_d := d; w_calls := h |})) = false
   <-> EIP_Healthcheck e ≠ None)
  /\ (answer_GetElasticIP client h (zone (planned d)) (Id d) = inr e ->
      EIP_Healthcheck e = None ->
      fst (resourceElasticIPUpdate client {| w_d := d; w_calls := h |}) = Panic nil_deref).
Proof.
  intros Hchg. split.
  - rewrite merge_run, Hchg. cbn.
    case_bool_decide as Hnil; cbn; split; done.
  - intros Hget Hnil. by rewrite (update_panics_without_healthcheck _ _ _ Hget Hchg Hnil).
Qed.

(** C7. When the reverse-DNS cleanup call of Delete succeeds or fails with
    not-found, the primary delete call is issued next, and the operation
    reports what that call answers: no diagnostic when it succeeds, an
    error when it fails. *)
Theorem delete_tolerates_missing_reverse_dns (d : ResourceData) (h : list Call) :
  let z := zone (planned d) in
  let target :=
    {| EIP_AddressFamily := None; EIP_CIDR := None; EIP_Description := None;
       EIP_Healthcheck := None; EIP_ID := Some (Id d); EIP_IPAddress := None;
       EIP_Labels := None |} in
  let cleanup := DeleteElasticIPReverseDNS z (Id d) in
  let outcome := answer_DeleteElasticIP client (h ++ [cleanup]) z target in
  (answer_DeleteElasticIPReverseDNS client h z (Id d) = None
   \/ exists err, answer_DeleteElasticIPReverseDNS client h z (Id d) = Some err
                  /\ errors_Is_ErrNotFound err = true) ->
  resourceElasticIPDelete client {| w_d := d; w_calls := h |}
  = (Ok (diag_FromErr outcome),
     {| w_d := d; w_calls := h ++ [cleanup; DeleteElasticIP z target] |})
  /\ (outcome = None -> diag_FromErr outcome = [])
  /\ (forall err, outcome = Some err -> HasError (diag_FromErr outcome) = true).
Proof.
  intros z target cleanup outcome Hcleanup.
  split; [|split].
  - unfold resourceElasticIPDelete. run_eip. fold z.
    destruct Hcleanup as [-> | (err & -> & ->)]; cbn; by rewrite <- app_assoc.
  - by intros ->.
  - by intros err ->.
Qed.

(** Any other failure of the cleanup call ends Delete before the primary
    delete call. *)
Lemma delete_stops_on_cleanup_failure (d : ResourceData) (h : list Call) (err : error) :
  answer_DeleteElasticIPReverseDNS client h (zone (planned d)) (Id d) = Some err ->
  errors_Is_ErrNotFound err = false ->
  resourceElasticIPDelete client {| w_d := d; w_calls := h |}
  = (Ok (diag_FromErr (Some err)),
     {| w_d := d; w_calls := h ++ [DeleteElasticIPReverseDNS (zone (planned d)) (Id d)] |}).
Proof.
  intros Hc Hnf. unfold resourceElasticIPDelete. run_eip. by rewrite Hc, Hnf.
Qed.

(** Building the request reads the configuration only: it cannot panic,
    and it changes neither the state container nor the log. *)
Lemma create_request_pure (w : World ResourceData) :
  exists req, resourceElasticIPCreate_request w = (Ok req, w).
Proof.
  unfold resourceElasticIPCreate_request. run_eip.
  destruct (bool_decide (Get_healthcheck mode "" (w_d w) ≠ "")); eauto.
Qed.

(** The labels reach the request only together with a healthcheck block:
    the copy of the labels is inside the branch of the healthcheck mode. *)
Lemma create_request_labels (w : World ResourceData) :
  exists req,
    resourceElasticIPCreate_request w = (Ok req, w)
    /\ EIP_Labels req
       = (if bool_decide (Get_healthcheck mode "" (w_d w) ≠ "")
          then (if bool_decide (Get labels set_labels (w_d w) ≠ ∅)
                then Some (Get labels set_labels (w_d w)) else None)
          else None)
    /\ (EIP_Healthcheck req = None <-> Get_healthcheck mode "" (w_d w) = "").
Proof.
  unfold resourceElasticIPCreate_request. run_eip.
  destruct (bool_decide (Get address_family set_address_family (w_d w) ≠ ""));
  destruct (decide (Get address_family set_address_family (w_d w) ≠ ""));
  destruct (bool_decide (Get description set_description (w_d w) ≠ ""));
  (case_bool_decide as Hmode;
   [ eexists; split; [reflexivity|]; split;
     destruct (bool_decide (Get labels set_labels (w_d w) ≠ ∅)); cbn;
     rewrite ?copy_labels_id; try done;
     (split; [done | intros ?; by destruct Hmode])
   | eexists; split; [reflexivity|]; split; [done|];
     split; [intros _|done];
     by destruct (decide (Get_healthcheck mode "" (w_d w) = "")) ]).
Qed.

Local Arguments resourceElasticIPCreate_request : simpl never.

(** Elastic-IP Create stores the identifier before the reverse-DNS call:
    when that call fails, the operation reports the failure, the
    identifier stays in the state container, and no delete call follows. *)
Lemma create_reverse_dns_failure_keeps_id (d : ResourceData) (h : list Call)
  (req e : ElasticIP) (id : string) (err : error) :
  let z := zone (planned d) in
  let rdns := Get reverse_dns set_reverse_dns d in
  fst (resourceElasticIPCreate_request {| w_d := d; w_calls := h |}) = Ok req ->
  answer_CreateElasticIP client h z req = inr e ->
  EIP_ID e = Some id ->
  rdns ≠ "" ->
  answer_UpdateElasticIPReverseDNS client (h ++ [CreateElasticIP z req]) z id rdns = Some err ->
  resourceElasticIPCreate client {| w_d := d; w_calls := h |}
  = (Ok (diag_Errorf "unable to create Reverse DNS record: " err),
     {| w_d := {| Id := id; prior := prior d; planned := planned d; written := written d |};
        w_calls := h ++ [CreateElasticIP z req; UpdateElasticIPReverseDNS z id rdns] |}).
Proof.
  intros z rdns Hreq Hcreate Hid Hrdns Hfail. unfold z, rdns in *. clear z rdns.
  unfold Get in Hrdns, Hfail |- *.
  destruct (create_request_pure {| w_d := d; w_calls := h |}) as [req' Hrun].
  rewrite Hrun in Hreq. cbn in Hreq. injection Hreq as ->.
  unfold resourceElasticIPCreate. run_eip. rewrite Hrun. cbn.
  rewrite Hcreate. cbn. rewrite Hid. cbn.
  rewrite bool_decide_eq_true_2 by done. cbn. unfold Get. cbn.
  rewrite Hfail. cbn. by rewrite <- app_assoc.
Qed.

End WithClient.

Import ElasticIPScenario.

(** C6, on the failing input: a configuration with the label env=prod and
    no healthcheck block. The request that Create builds, and sends in its
    create call, is the empty object: the labels of the configuration are
    not in it. With the block [tcp_80] added to the same configuration the
    labels are in the request. *)
Theorem create_drops_labels_without_healthcheck :
  labels (planned new_labelled) = {[ "env" := "prod" ]}
  /\ resourceElasticIPCreate_request {| w_d := new_labelled; w_calls := [] |}
     = (Ok new_ElasticIP, {| w_d := new_labelled; w_calls := [] |})
  /\ EIP_Labels new_ElasticIP = None
  /\ head (w_calls (snd (resourceElasticIPCreate healthy
                           {| w_d := new_labelled; w_calls := [] |})))
     = Some (CreateElasticIP "ch-gva-2" new_ElasticIP).
Proof.
  split; [reflexivity|]. split; [by vm_compute|]. split; [reflexivity|].
  by vm_compute.
Qed.

(** The defaults of the schema reach the request: for the block [tcp_80],
    which gives no interval, no timeout and no strike counts, the request
    holds the defaults (10 s, 3 s, 2 and 3). *)
Lemma create_request_holds_schema_defaults :
  exists req hc,
    resourceElasticIPCreate_request {| w_d := new_checked; w_calls := [] |}
    = (Ok req, {| w_d := new_checked; w_calls := [] |})
    /\ EIP_Healthcheck req = Some hc
    /\ HC_Mode hc = Some "tcp" /\ HC_Port hc = Some 80
    /\ HC_Interval hc = Some (10 * time_Second)
    /\ HC_Timeout hc = Some (3 * time_Second)
    /\ HC_StrikesFail hc = Some 2 /\ HC_StrikesOK hc = Some 3.
Proof.
  eexists _, _. split; [by vm_compute|]. cbn. split; [reflexivity|].
  repeat split.
Qed.

(** C5, on the elastic IP "eip-1", which has no healthcheck and is to get
    the block [healthcheck { mode = "tcp", port = 80 }]: a simple field
    changed and the fetch succeeds, yet the run issues no update call. The
    first assignment through [elasticIP.Healthcheck], which is nil, ends
    Update in a nil dereference; the fetch is the only call of the run. *)
Theorem update_adding_healthcheck_issues_no_update_call :
  let r := resourceElasticIPUpdate healthy {| w_d := add_healthcheck; w_calls := [] |} in
  answer_GetElasticIP healthy [] "ch-gva-2" "eip-1" = inr eip_1
  /\ simple_field_changed add_healthcheck = true
  /\ fst r = Panic nil_deref
  /\ w_calls (snd r) = [GetElasticIP "ch-gva-2" "eip-1"]
  /\ updates_issued (w_calls (snd r)) = [].
Proof.
  cbv zeta.
  rewrite (update_panics_without_healthcheck healthy add_healthcheck [] eip_1)
    by (by vm_compute).
  repeat split.
Qed.

Lemma update_issues_one_update_call_witness :
  updates_issued
    (drop 0 (w_calls (snd (resourceElasticIPUpdate healthy
                             {| w_d := change_description; w_calls := [] |}))))
  = [merged_object change_description eip_1].
Proof.
  destruct (update_issues_one_update_call_with_merged_object
              healthy change_description []) as [H _].
  destruct (H eip_1) as [_ Hcalls].
  - reflexivity.
  - intros Hc. vm_compute in Hc. discriminate Hc.
  - apply Hcalls. by vm_compute.
Defined.

Lemma update_healthcheck_assignment_witness :
  fst (resourceElasticIPUpdate healthy {| w_d := add_healthcheck; w_calls := [] |})
  = Panic nil_deref.
Proof.
  destruct (update_healthcheck_assignment_requires_healthcheck
              healthy add_healthcheck [] eip_1) as [_ H].
  - by vm_compute.
  - apply H; reflexivity.
Defined.

Lemma delete_tolerates_missing_reverse_dns_witness :
  fst (resourceElasticIPDelete no_reverse_dns
         {| w_d := change_description; w_calls := [] |}) = Ok [].
Proof.
  destruct (delete_tolerates_missing_reverse_dns no_reverse_dns change_description [])
    as [H _].
  - right. exists err_not_found. split; reflexivity.
  - rewrite H. reflexivity.
Defined.

End ElasticIPLifecycle.

(* ===================================================================== *)
(** ** Read on a resource that is gone                                     *)
(* ===================================================================== *)

Module ReadNotFound.

(** C2. When the fetch of Read fails with the not-found error, Read sets
    the identifier to the empty string and returns no diagnostic; when it
    fails with any other error, Read returns that error as a diagnostic.
    This holds for the security group and for the elastic IP. *)
Theorem read_not_found_clears_id_other_errors_reported :
  (forall defaultZone client (d : SecurityGroupResource.ResourceData) h err,
     answer_GetSecurityGroup client h defaultZone (SecurityGroupResource.Id d)
     = inl err ->
     let r := SecurityGroupResource.resourceSecurityGroupRead defaultZone client
                {| w_d := d; w_calls := h |} in
     (errors_Is_ErrNotFound err = true ->
      fst r = Ok [] /\ SecurityGroupResource.Id (w_d (snd r)) = "")
     /\ (errors_Is_ErrNotFound err = false ->
         fst r = Ok (diag_FromErr (Some err))
         /\ HasError (diag_FromErr (Some err)) = true))
  /\ (forall client (d : ElasticIPResource.ResourceData) h err,
        answer_GetElasticIP client h
          (ElasticIPResource.zone (ElasticIPResource.planned d))
          (ElasticIPResource.Id d) = inl err ->
        let r := ElasticIPResource.resourceElasticIPRead client
                   {| w_d := d; w_calls := h |} in
        (errors_Is_ErrNotFound err = true ->
         fst r = Ok [] /\ ElasticIPResource.Id (w_d (snd r)) = "")
        /\ (errors_Is_ErrNotFound err = false ->
            fst r = Ok (diag_FromErr (Some err))
            /\ HasError (diag_FromErr (Some err)) = true)).
Proof.
  split.
  - intros defaultZone client d h err Hget r. unfold r.
    rewrite (SecurityGroupLifecycle.security_group_read_fetch_failure _ _ _ _ _ Hget).
    split; intros ->; done.
  - intros client d h err Hget r. unfold r.
    rewrite (ElasticIPLifecycle.elastic_ip_read_fetch_failure _ _ _ _ Hget).
    split; intros ->; done.
Qed.

(** C9. When the fetch of Read fails with the not-found error, the state
    container after Read is the one before it with the identifier
    cleared: the prior values, the planned values and the values written
    by [d.Set] (name, description, external_sources, labels, ...) are the
    same. This holds for the security group and for the elastic IP. *)
Theorem read_not_found_changes_only_id :
  (forall defaultZone client (d : SecurityGroupResource.ResourceData) h err,
     answer_GetSecurityGroup client h defaultZone (SecurityGroupResource.Id d)
     = inl err ->
     errors_Is_ErrNotFound err = true ->
     let d' := w_d (snd (SecurityGroupResource.resourceSecurityGroupRead
                           defaultZone client {| w_d := d; w_calls := h |})) in
     SecurityGroupResource.prior d' = SecurityGroupResource.prior d
     /\ SecurityGroupResource.planned d' = SecurityGroupResource.planned d
     /\ SecurityGroupResource.set_name d' = SecurityGroupResource.set_name d
     /\ SecurityGroupResource.set_description d'
        = SecurityGroupResource.set_description d
     /\ SecurityGroupResource.set_external_sources d'
        = SecurityGroupResource.set_external_sources d
     /\ SecurityGroupResource.Id d' = "")
  /\ (forall client (d : ElasticIPResource.ResourceData) h err,
        answer_GetElasticIP client h
          (ElasticIPResource.zone (ElasticIPResource.planned d))
          (ElasticIPResource.Id d) = inl err ->
        errors_Is_ErrNotFound err = true ->
        let d' := w_d (snd (ElasticIPResource.resourceElasticIPRead client
                              {| w_d := d; w_calls := h |})) in
        ElasticIPResource.prior d' = ElasticIPResource.prior d
        /\ ElasticIPResource.planned d' = ElasticIPResource.planned d
        /\ ElasticIPResource.written d' = ElasticIPResource.written d
        /\ ElasticIPResource.Id d' = "").
Proof.
  split.
  - intros defaultZone client d h err Hget Hnf d'. unfold d'.
    by rewrite (SecurityGroupLifecycle.security_group_read_fetch_failure
                  _ _ _ _ _ Hget), Hnf.
  - intros client d h err Hget Hnf d'. unfold d'.
    by rewrite (ElasticIPLifecycle.elastic_ip_read_fetch_failure _ _ _ _ Hget), Hnf.
Qed.

Lemma read_not_found_clears_id_witness :
  fst (SecurityGroupResource.resourceSecurityGroupRead "ch-gva-2"
         SecurityGroupScenario.group_gone
         {| w_d := SecurityGroupScenario.web_change_source; w_calls := [] |}) = Ok []
  /\ fst (ElasticIPResource.resourceElasticIPRead ElasticIPScenario.eip_gone
            {| w_d := ElasticIPScenario.change_description; w_calls := [] |}) = Ok [].
Proof.
  destruct read_not_found_clears_id_other_errors_reported as [Hsg Heip].
  split.
  - destruct (Hsg "ch-gva-2" SecurityGroupScenario.group_gone
                SecurityGroupScenario.web_change_source [] err_not_found)
      as [H _]; [reflexivity|].
    destruct H as [H _]; [reflexivity | exact H].
  - destruct (Heip ElasticIPScenario.eip_gone
                ElasticIPScenario.change_description [] err_not_found)
      as [H _]; [reflexivity|].
    destruct H as [H _]; [reflexivity | exact H].
Defined.

Lemma read_not_found_changes_only_id_witness :
  SecurityGroupResource.planned
    (w_d (snd (SecurityGroupResource.resourceSecurityGroupRead "ch-gva-2"
                 SecurityGroupScenario.group_gone
                 {| w_d := SecurityGroupScenario.web_change_source;
                    w_calls := [] |})))
  = SecurityGroupResource.planned SecurityGroupScenario.web_change_source
  /\ ElasticIPResource.planned
       (w_d (snd (ElasticIPResource.resourceElasticIPRead ElasticIPScenario.eip_gone
                    {| w_d := ElasticIPScenario.change_description;
                       w_calls := [] |})))
     = ElasticIPResource.planned ElasticIPScenario.change_description.
Proof.
  destruct read_not_found_changes_only_id as [Hsg Heip].
  split.
  - destruct (Hsg "ch-gva-2" SecurityGroupScenario.group_gone
                SecurityGroupScenario.web_change_source [] err_not_found)
      as (_ & H & _); [reflexivity | reflexivity | exact H].
  - destruct (Heip ElasticIPScenario.eip_gone
                ElasticIPScenario.change_description [] err_not_found)
      as (_ & H & _); [reflexivity | reflexivity | exact H].
Defined.

End ReadNotFound.

(* ===================================================================== *)
(** ** Security group: the rest of the lifecycle                           *)
(* ===================================================================== *)

Lemma calls_lookup_map {A B} (f : A -> B) (l : list A) (i : nat) (y : B) :
  map f l !! i = Some y -> exists x, l !! i = Some x /\ y = f x.
Proof.
  revert i. induction l as [|a l IH]; intros [|i]; cbn; try done.
  - intros [= <-]. by exists a.
  - apply IH.
Qed.

Lemma calls_take_map_take {A B} (f : A -> B) (l : list A) (i k : nat) :
  (i <= k)%nat -> take i (map f (take k l)) = map f (take i l).
Proof.
  revert i k. induction l as [|a l IH]; intros [|i] [|k] Hik; cbn; try done; try lia.
  f_equal. apply IH. lia.
Qed.

Lemma calls_length_map_take {A B} (f : A -> B) (l : list A) (k : nat) :
  (k <= length l)%nat -> length (map f (take k l)) = k.
Proof.
  revert k. induction l as [|a l IH]; intros [|k] Hk; cbn in *; try done; try lia.
  f_equal. apply IH. lia.
Qed.

Lemma added_sources_lookup (l : list Call) (i : nat) (z : string)
  (sg : SecurityGroup) (c : string) :
  l !! i = Some (AddExternalSourceToSecurityGroup z sg c) -> c ∈ added_sources l.
Proof.
  revert i. induction l as [|a l IH]; intros [|i]; cbn; try done.
  - intros [= ->]. cbn. apply list_elem_of_here.
  - intros Hi. specialize (IH i Hi). unfold added_sources in *. cbn.
    destruct a; cbn; try done. apply elem_of_cons. by right.
Qed.

Module SecurityGroupMore.
Import SecurityGroupResource SecurityGroupLifecycle.

Section WithClient.

Variable defaultZone : string.
Variable client : Client.

(** X1. When the group is created with an identifier and no add call
    fails, Create issues the create call, then one add call per configured
    external source (each source once; the order among the sources is the
    set's and is left open here), stores the identifier and ends as the
    Read that follows: the calls of the whole run are the create call,
    the add calls and the one fetch of that Read. *)
Theorem create_issues_one_add_per_source (d : ResourceData) (h : list Call)
  (sg : SecurityGroup) (id : string) :
  let req := {| SG_Description :=
                  nonEmptyStringPtr (default (description (planned d)) (set_description d));
                SG_ExternalSources := None;
                SG_ID := None;
                SG_Name := nonEmptyStringPtr (default (name (planned d)) (set_name d)) |} in
  let sources := default (external_sources (planned d)) (set_external_sources d) in
  answer_CreateSecurityGroup client h defaultZone req = inr sg ->
  SG_ID sg = Some id ->
  (forall h' c, answer_AddExternalSourceToSecurityGroup client h' defaultZone sg c = None) ->
  exists cidrs : list string,
    NoDup cidrs
    /\ (forall c, c ∈ cidrs <-> c ∈ sources)
    /\ length cidrs = size sources
    /\ resourceSecurityGroupCreate defaultZone client {| w_d := d; w_calls := h |}
       = resourceSecurityGroupRead defaultZone client
           {| w_d := {| Id := id; prior := prior d; planned := planned d;
                        set_name := set_name d; set_description := set_description d;
                        set_external_sources := set_external_sources d |};
              w_calls := h ++ CreateSecurityGroup defaultZone req
                           :: map (AddExternalSourceToSecurityGroup defaultZone sg) cidrs |}
    /\ w_calls (snd (resourceSecurityGroupCreate defaultZone client
                       {| w_d := d; w_calls := h |}))
       = h ++ CreateSecurityGroup defaultZone req
            :: map (AddExternalSourceToSecurityGroup defaultZone sg) cidrs
            ++ [GetSecurityGroup defaultZone id].
Proof.
  intros req sources Hcreate Hid Hadd.
  exists (Set_List sources).
  assert (Hrun :
    resourceSecurityGroupCreate defaultZone client {| w_d := d; w_calls := h |}
    = resourceSecurityGroupRead defaultZone client
      {| w_d := {| Id := id; prior := prior d; planned := planned d;
                   set_name := set_name d; set_description := set_description d;
                   set_external_sources := set_external_sources d |};
         w_calls := h ++ CreateSecurityGroup defaultZone req
                      :: map (AddExternalSourceToSecurityGroup defaultZone sg)
                           (Set_List sources) |}).
  { unfold resourceSecurityGroupCreate. run_sg. fold req. rewrite Hcreate. cbn.
    fold sources.
    case_bool_decide as Hs; cbn.
    - rewrite (range_until_error_all_ok
                 (fun cidr h0 =>
                    answer_AddExternalSourceToSecurityGroup client h0 defaultZone sg cidr)
                 (AddExternalSourceToSecurityGroup defaultZone sg)) by done.
      cbn. rewrite Hid. cbn. by rewrite <- app_assoc.
    - assert (Hempty : sources = ∅) by (by destruct (decide (sources = ∅))).
      rewrite Hempty. unfold Set_List. rewrite elements_empty. cbn. rewrite Hid. done. }
  split; [apply NoDup_elements|].
  split; [intros c; apply elem_of_elements|].
  split; [reflexivity|].
  split; [exact Hrun|].
  rewrite Hrun, security_group_read_calls. cbn. by rewrite <- app_assoc.
Qed.

(** X2. When the first remote call fails (the create call of Create, the
    fetch of Update), the callback returns that error as its diagnostic,
    issues no other call and leaves the state container as it was: the
    identifier of a new resource stays empty. *)
Theorem security_group_first_call_failure (d : ResourceData) (h : list Call) :
  let req := {| SG_Description :=
                  nonEmptyStringPtr (default (description (planned d)) (set_description d));
                SG_ExternalSources := None;
                SG_ID := None;
                SG_Name := nonEmptyStringPtr (default (name (planned d)) (set_name d)) |} in
  (forall err,
     answer_CreateSecurityGroup client h defaultZone req = inl err ->
     resourceSecurityGroupCreate defaultZone client {| w_d := d; w_calls := h |}
     = (Ok (diag_FromErr (Some err)),
        {| w_d := d; w_calls := h ++ [CreateSecurityGroup defaultZone req] |}))
  /\ (forall err,
        answer_GetSecurityGroup client h defaultZone (Id d) = inl err ->
        resourceSecurityGroupUpdate defaultZone client {| w_d := d; w_calls := h |}
        = (Ok (diag_FromErr (Some err)),
           {| w_d := d; w_calls := h ++ [GetSecurityGroup defaultZone (Id d)] |})).
Proof.
  intros req. split; intros err Herr.
  - unfold resourceSecurityGroupCreate. run_sg. fold req. by rewrite Herr.
  - unfold resourceSecurityGroupUpdate. run_sg. by rewrite Herr.
Qed.

(** Read on a group that the fetch returns. *)
Lemma read_success_run (d : ResourceData) (h : list Call) (sg : SecurityGroup) :
  answer_GetSecurityGroup client h defaultZone (Id d) = inr sg ->
  resourceSecurityGroupRead defaultZone client {| w_d := d; w_calls := h |}
  = match SG_Name sg with
    | None => (Panic nil_deref,
               {| w_d := d; w_calls := h ++ [GetSecurityGroup defaultZone (Id d)] |})
    | Some n =>
        (Ok [],
         {| w_d := {| Id := Id d; prior := prior d; planned := planned d;
                      set_name := Some n;
                      set_description := Some (defaultString (SG_Description sg) "");
                      set_external_sources :=
                        match SG_ExternalSources sg with
                        | Some es => Some (list_to_set es)
                        | None => set_external_sources d
                        end |};
            w_calls := h ++ [GetSecurityGroup defaultZone (Id d)] |})
    end.
Proof.
  intros Hget. unfold resourceSecurityGroupRead. run_sg. rewrite Hget.
  by destruct sg as [de [es|] i [n|]].
Qed.

(** X3. When the fetch of Read returns a group, Read ends in a nil
    dereference exactly when the group has no name. Otherwise it returns
    no diagnostic and writes the name, the description (the empty string
    for a nil one) and, only when the group carries a list of them, the
    external sources; a group without that list leaves the stored external
    sources as they were. The identifier, the prior and the planned values
    are unchanged. *)
Theorem read_writes_fetched_group (d : ResourceData) (h : list Call) (sg : SecurityGroup) :
  answer_GetSecurityGroup client h defaultZone (Id d) = inr sg ->
  let r := resourceSecurityGroupRead defaultZone client {| w_d := d; w_calls := h |} in
  (panicked (fst r) = true <-> SG_Name sg = None)
  /\ (forall n, SG_Name sg = Some n ->
        fst r = Ok []
        /\ w_d (snd r)
           = {| Id := Id d; prior := prior d; planned := planned d;
                set_name := Some n;
                set_description := Some (defaultString (SG_Description sg) "");
                set_external_sources :=
                  match SG_ExternalSources sg with
                  | Some es => Some (list_to_set es)
                  | None => set_external_sources d
                  end |}).
Proof.
  intros Hget r. unfold r. rewrite (read_success_run _ _ _ Hget).
  destruct (SG_Name sg) as [n|]; cbn.
  - split; [split; discriminate|]. by intros n' [= <-].
  - split; [done|]. discriminate.
Qed.

(** X4. Read is idempotent: against a remote system that gives the same
    answer to every fetch, a second Read returns what the first returned
    and leaves the state container as the first left it. *)
Theorem security_group_read_idempotent (ans : error + SecurityGroup)
  (d : ResourceData) (h : list Call) :
  (forall h' z id, answer_GetSecurityGroup client h' z id = ans) ->
  let once := resourceSecurityGroupRead defaultZone client {| w_d := d; w_calls := h |} in
  let twice := resourceSecurityGroupRead defaultZone client (snd once) in
  fst twice = fst once /\ w_d (snd twice) = w_d (snd once).
Proof.
  intros Hans once twice. unfold twice, once.
  destruct ans as [err|sg].
  - rewrite (security_group_read_fetch_failure _ _ _ _ _ (Hans _ _ _)).
    destruct (errors_Is_ErrNotFound err) eqn:Hnf; cbn;
      rewrite (security_group_read_fetch_failure _ _ _ _ _ (Hans _ _ _)), Hnf; done.
  - rewrite (read_success_run _ _ _ (Hans _ _ _)).
    destruct (SG_Name sg) as [n|] eqn:Hn; cbn;
      rewrite (read_success_run _ _ _ (Hans _ _ _)), Hn; cbn; [|done].
    by destruct (SG_ExternalSources sg).
Qed.

(** The calls of Update after a successful fetch: the fetch, the add calls
    of the first [k] sources to add, and a rest without add call. *)
Lemma update_add_trace (d : ResourceData) (h : list Call) (sg : SecurityGroup) :
  let z := defaultZone in
  let r := resourceSecurityGroupUpdate defaultZone client {| w_d := d; w_calls := h |} in
  let l := Set_List (external_sources (planned d) ∖ external_sources (prior d)) in
  answer_GetSecurityGroup client h z (Id d) = inr sg ->
  exists (e : option error) (k : nat) (rest : list Call),
    drop (length h) (w_calls (snd r))
    = GetSecurityGroup z (Id d)
        :: map (AddExternalSourceToSecurityGroup z sg) (take k l) ++ rest
    /\ (k <= length l)%nat
    /\ added_sources rest = []
    /\ (forall i x, l !! i = Some x -> (i < k)%nat ->
          answer_AddExternalSourceToSecurityGroup client
            (h ++ GetSecurityGroup z (Id d)
               :: map (AddExternalSourceToSecurityGroup z sg) (take i l)) z sg x
          = if decide (S i = k) then e else None)
    /\ (forall err, e = Some err ->
          rest = [] /\ fst r = Ok (diag_FromErr (Some err)) /\ w_d (snd r) = d).
Proof.
  intros z r l Hget. unfold r, l, z in *. clear r l z.
  unfold resourceSecurityGroupUpdate. run_sg. rewrite Hget. cbn.
  case_bool_decide as Hchg; cbn; cycle 1.
  { exists None, 0%nat, [GetSecurityGroup defaultZone (Id d)].
    rewrite security_group_read_calls. cbn. rewrite <- app_assoc, drop_app_length.
    rewrite take_0. cbn.
    split; [done|]. split; [lia|]. split; [done|]. split; [intros; lia|done]. }
  destruct (guarded_range_trace
              (fun cidr h0 => answer_AddExternalSourceToSecurityGroup client h0 defaultZone sg cidr)
              (AddExternalSourceToSecurityGroup defaultZone sg)
              (external_sources (planned d) ∖ external_sources (prior d))
              {| w_d := d; w_calls := h ++ [GetSecurityGroup defaultZone (Id d)] |})
    as (e1 & k1 & Hrun1 & Hk1 & _ & Htr1).
  rewrite Hrun1. cbn. cbn in Htr1.
  assert (Htr : forall i x,
    Set_List (external_sources (planned d) ∖ external_sources (prior d)) !! i = Some x ->
    (i < k1)%nat ->
    answer_AddExternalSourceToSecurityGroup client
      (h ++ GetSecurityGroup defaultZone (Id d)
         :: map (AddExternalSourceToSecurityGroup defaultZone sg)
              (take i (Set_List (external_sources (planned d) ∖ external_sources (prior d)))))
      defaultZone sg x
    = if decide (S i = k1) then e1 else None).
  { intros i x Hx Hi. rewrite <- (Htr1 i x Hx Hi). by rewrite <- app_assoc. }
  destruct e1 as [err1|]; cbn.
  { exists (Some err1), k1, []. rewrite <- app_assoc, drop_app_length, app_nil_r. cbn.
    split; [done|]. split; [done|]. split; [done|]. split; [exact Htr|].
    by intros err [= <-]. }
  destruct (guarded_range_prefix
              (fun cidr h0 =>
                 answer_RemoveExternalSourceFromSecurityGroup client h0 defaultZone sg cidr)
              (RemoveExternalSourceFromSecurityGroup defaultZone sg)
              (external_sources (prior d) ∖ external_sources (planned d))
              {| w_d := d;
                 w_calls := (h ++ [GetSecurityGroup defaultZone (Id d)])
                            ++ map (AddExternalSourceToSecurityGroup defaultZone sg)
                                 (take k1 (Set_List (external_sources (planned d)
                                                     ∖ external_sources (prior d)))) |})
    as (e2 & k2 & Hrun2).
  rewrite Hrun2. cbn.
  destruct e2 as [err2|]; cbn; [|rewrite security_group_read_calls; cbn];
    rewrite <- !app_assoc, drop_app_length; cbn;
    eexists None, k1, _; (split; [reflexivity|]); (split; [done|]);
    (split; [|split; [exact Htr | done]]);
    rewrite ?added_sources_app, added_sources_removes; reflexivity.
Qed.

(** X5. An add call of Update that fails is the last call of the run,
    whichever add call it is: take any position of the calls of the run
    that holds an add call, answered with an error by the remote system
    at the log of that moment. Then Update returns that error, the run
    has no further call (no add call, no remove call, no final Read), and
    the state container is as it was. *)
Theorem update_stops_at_failed_add (d : ResourceData) (h : list Call)
  (j : nat) (sg : SecurityGroup) (c : string) (err : error) :
  let r := resourceSecurityGroupUpdate defaultZone client {| w_d := d; w_calls := h |} in
  let issued := drop (length h) (w_calls (snd r)) in
  issued !! j = Some (AddExternalSourceToSecurityGroup defaultZone sg c) ->
  answer_AddExternalSourceToSecurityGroup client (h ++ take j issued) defaultZone sg c
  = Some err ->
  fst r = Ok (diag_FromErr (Some err))
  /\ length issued = S j
  /\ removed_sources issued = []
  /\ w_d (snd r) = d.
Proof.
  intros r issued. unfold issued, r. clear issued r.
  destruct (answer_GetSecurityGroup client h defaultZone (Id d)) as [err0|sg0] eqn:Hget.
  { unfold resourceSecurityGroupUpdate. run_sg. rewrite Hget. cbn.
    rewrite drop_app_length. by destruct j as [|[|j]]. }
  destruct (update_add_trace d h sg0 Hget) as (e & k & rest & Hcalls & Hk & Hrest & Htr & Hend).
  rewrite Hcalls. clear Hcalls.
  destruct j as [|j]; [done|]. cbn [lookup list_lookup take].
  intros Hlook Hans. cbn in Hlook.
  apply lookup_app_Some in Hlook as [Hlook | [_ Hlook]]; cycle 1.
  { apply added_sources_lookup in Hlook. rewrite Hrest in Hlook.
    by apply elem_of_nil in Hlook. }
  apply calls_lookup_map in Hlook as (x & Hx & Heq).
  injection Heq as Hsg Hc. destruct Hsg, Hc. rename c into x.
  apply lookup_take_Some in Hx as [Hx Hj].
  rewrite take_app_le in Hans by (rewrite calls_length_map_take by done; lia).
  rewrite calls_take_map_take in Hans by lia.
  rewrite (Htr j x Hx Hj) in Hans.
  destruct (decide (S j = k)) as [<-|]; [|done].
  destruct (Hend err Hans) as (-> & Hres & Hd).
  split; [exact Hres|]. split; [|split; [|exact Hd]].
  - cbn. rewrite app_nil_r, calls_length_map_take by done. done.
  - rewrite app_nil_r. change (?a :: ?l) with ([a] ++ l).
    by rewrite removed_sources_app, removed_sources_adds.
Qed.

End WithClient.

Import SecurityGroupScenario MoreScenarios.

Lemma create_issues_one_add_per_source_witness :
  w_calls (snd (resourceSecurityGroupCreate "ch-gva-2" healthy
                  {| w_d := new_web; w_calls := [] |}))
  = [ CreateSecurityGroup "ch-gva-2"
        {| SG_Description := None; SG_ExternalSources := None;
           SG_ID := None; SG_Name := Some "web" |};
      AddExternalSourceToSecurityGroup "ch-gva-2" web_group "10.0.0.0/24";
      GetSecurityGroup "ch-gva-2" "sg-1" ].
Proof.
  destruct (create_issues_one_add_per_source "ch-gva-2" healthy new_web []
              web_group "sg-1") as (cidrs & _ & Hin & Hlen & _ & H);
    [reflexivity | reflexivity | reflexivity |].
  change (forall c, c ∈ cidrs <-> c ∈ ({[ "10.0.0.0/24" ]} : gset string)) in Hin.
  change (length cidrs = size ({[ "10.0.0.0/24" ]} : gset string)) in Hlen.
  rewrite size_singleton in Hlen.
  destruct cidrs as [|c [|c' cidrs]]; [discriminate Hlen | | discriminate Hlen].
  assert (Hc : c = "10.0.0.0/24").
  { apply (elem_of_singleton (C := gset string)). apply Hin. by left. }
  rewrite Hc in H. exact H.
Defined.

Lemma security_group_first_call_failure_witness :
  fst (resourceSecurityGroupCreate "ch-gva-2" group_gone
         {| w_d := new_web; w_calls := [] |})
  = Ok (diag_FromErr (Some err_not_found))
  /\ Id (w_d (snd (resourceSecurityGroupUpdate "ch-gva-2" group_gone
                     {| w_d := web_change_source; w_calls := [] |}))) = "sg-1".
Proof.
  destruct (security_group_first_call_failure "ch-gva-2" group_gone new_web [])
    as [Hc _].
  destruct (security_group_first_call_failure "ch-gva-2" group_gone web_change_source [])
    as [_ Hu].
  split.
  - rewrite (Hc err_not_found); reflexivity.
  - rewrite (Hu err_not_found); reflexivity.
Defined.

Lemma read_writes_fetched_group_witness :
  set_external_sources
    (w_d (snd (resourceSecurityGroupRead "ch-gva-2" web_served
                 {| w_d := web_change_source; w_calls := [] |})))
  = Some (list_to_set ["10.0.0.0/24"]).
Proof.
  destruct (read_writes_fetched_group "ch-gva-2" web_served web_change_source []
              web_described) as [_ H]; [reflexivity|].
  destruct (H "web") as [_ Hd]; [reflexivity|].
  rewrite Hd. reflexivity.
Defined.

Lemma security_group_read_idempotent_witness :
  let once := resourceSecurityGroupRead "ch-gva-2" web_served
                {| w_d := web_change_source; w_calls := [] |} in
  w_d (snd (resourceSecurityGroupRead "ch-gva-2" web_served (snd once)))
  = w_d (snd once).
Proof.
  destruct (security_group_read_idempotent "ch-gva-2" web_served (inr web_described)
              web_change_source []) as [_ H]; [reflexivity|].
  exact H.
Defined.

Lemma update_stops_at_failed_add_witness :
  let r := resourceSecurityGroupUpdate "ch-gva-2" second_add_fails
             {| w_d := web_add_two; w_calls := [] |} in
  fst r = Ok (diag_FromErr (Some err_unavailable))
  /\ length (w_calls (snd r)) = 3%nat
  /\ removed_sources (w_calls (snd r)) = [].
Proof.
  edestruct (update_stops_at_failed_add "ch-gva-2" second_add_fails web_add_two []
               2 web_group) as (Hres & Hlen & Hrem & _).
  - vm_compute. reflexivity.
  - vm_compute. reflexivity.
  - split; [exact Hres|]. split; [exact Hlen | exact Hrem].
Defined.

End SecurityGroupMore.

(* ===================================================================== *)
(** ** Security group: the name of the schema, and Import                  *)
(* ===================================================================== *)

Section EqualFoldFacts.

Variable U : string -> string -> bool.

Lemma N_of_ascii_inj (a b : ascii) : N_of_ascii a = N_of_ascii b -> a = b.
Proof.
  intros H. rewrite <- (ascii_N_embedding a), <- (ascii_N_embedding b). by rewrite H.
Qed.

Lemma N_of_byte_to_lower (c : ascii) :
  N_of_ascii (byte_to_lower c)
  = if byte_is_upper c then (N_of_ascii c + 32)%N else N_of_ascii c.
Proof.
  unfold byte_to_lower. destruct (byte_is_upper c) eqn:Hu; [|done].
  apply N_ascii_embedding.
  unfold byte_is_upper in Hu. apply andb_prop in Hu as [_ Hu].
  apply N.leb_le in Hu. lia.
Qed.

(** One step of the ASCII loop of [strings.EqualFold] passes exactly when
    the two bytes have the same lower-case form. *)
Lemma byte_fold_step (sr tr : ascii) :
  (Ascii.eqb tr sr
   || (let swap := (N_of_ascii tr <? N_of_ascii sr)%N in
       let lo := if swap then tr else sr in
       let hi := if swap then sr else tr in
       byte_is_upper lo && (N_of_ascii hi =? N_of_ascii lo + 32)%N)) = true
  <-> byte_to_lower sr = byte_to_lower tr.
Proof.
  assert (Hlow : byte_to_lower sr = byte_to_lower tr
                 <-> N_of_ascii (byte_to_lower sr) = N_of_ascii (byte_to_lower tr)).
  { split; [by intros -> | apply N_of_ascii_inj]. }
  rewrite Hlow, !N_of_byte_to_lower. clear Hlow.
  assert (Heq : Ascii.eqb tr sr = (N_of_ascii tr =? N_of_ascii sr)%N).
  { destruct (Ascii.eqb_spec tr sr) as [->|Hne].
    - by rewrite N.eqb_refl.
    - symmetry. apply N.eqb_neq. intros H. by apply Hne, N_of_ascii_inj. }
  rewrite Heq. clear Heq. unfold byte_is_upper. cbn zeta.
  destruct (N.ltb_spec (N_of_ascii tr) (N_of_ascii sr)) as [Hlt|Hge];
    revert Hlt || revert Hge;
    generalize (N_of_ascii sr) (N_of_ascii tr); intros n m Hnm;
    repeat match goal with
           | |- context [(?a <=? ?b)%N] => destruct (N.leb_spec a b)
           | |- context [(?a =? ?b)%N] => destruct (N.eqb_spec a b)
           end; cbn; split; intros; try done; try lia.
Qed.

(** On ASCII-only strings [strings.EqualFold] compares the lower-case
    forms. *)
Lemma EqualFold_ascii (s t : string) :
  isASCII s = true -> isASCII t = true ->
  (strings_EqualFold U s t = true <-> lower_bytes s = lower_bytes t).
Proof.
  revert t. induction s as [|sr s IH]; intros [|tr t] Hs Ht; cbn; try done.
  apply andb_prop in Hs as [Hsr Hs]. apply andb_prop in Ht as [Htr Ht].
  rewrite Hsr, Htr. cbn.
  pose proof (byte_fold_step sr tr) as Hstep. cbn zeta in Hstep.
  destruct (Ascii.eqb tr sr) eqn:Heq.
  - rewrite (IH t Hs Ht). cbn in Hstep.
    split; [intros ->; f_equal; by apply Hstep | by intros [= _ ?]].
  - rewrite orb_false_l in Hstep.
    match type of Hstep with (?b = true <-> _) => destruct b eqn:Hb end.
    + rewrite (IH t Hs Ht).
      split; [intros ->; f_equal; by apply Hstep | by intros [= _ ?]].
    + split; [done|]. intros [= Hc _]. apply Hstep in Hc. done.
Qed.

End EqualFoldFacts.

Module SecurityGroupSchemaFacts.
Import SecurityGroupResource SecurityGroupSchema.

(** X6. For names of ASCII characters, the [DiffSuppressFunc] of the
    attribute [name] ignores a difference exactly when the stored and the
    configured name have the same lower-case form: a change of case is
    ignored, any other change of the name is reported. *)
Theorem name_diff_suppressed_iff_equal_up_to_case
  (U : string -> string -> bool) (k old new : string) (d : ResourceData) :
  isASCII old = true -> isASCII new = true ->
  (name_DiffSuppressFunc U k old new d = true <-> lower_bytes old = lower_bytes new).
Proof. intros Ho Hn. by apply EqualFold_ascii. Qed.

(** X7. The state upgrader and the [DiffSuppressFunc] fit together: after
    the upgrade of a state whose name has ASCII characters only, the
    difference between the stored name and the name as it was spelled
    before is ignored, so that the lower-casing of the stored name does
    not by itself replace the group. *)
Theorem upgraded_name_gives_no_diff
  (U : string -> string -> bool) (L : string -> string)
  (rawState upgraded : gmap string RawValue) (configured k : string) (d : ResourceData) :
  rawState !! "name" = Some (RawString configured) ->
  isASCII configured = true ->
  resourceSecurityGroupStateUpgradeV0 L rawState = (Some upgraded, None) ->
  exists stored,
    upgraded !! "name" = Some (RawString stored)
    /\ name_DiffSuppressFunc U k stored configured d = true.
Proof.
  intros Hname Hascii Hup.
  unfold resourceSecurityGroupStateUpgradeV0 in Hup. rewrite Hname in Hup.
  injection Hup as <-.
  exists (strings_ToLower L configured). split; [by rewrite lookup_insert_eq|].
  rewrite strings_ToLower_ascii by done.
  apply EqualFold_ascii; [by apply lower_bytes_ascii | done |].
  apply lower_bytes_fixed, lower_bytes_no_upper.
Qed.

Section ImportCallback.

Variable defaultZone : string.
Variable find : string -> string -> error + SecurityGroup.

(** X8. Import looks the group up with the identifier the operator
    supplied. When the lookup fails, Import returns that error, no
    resource, and leaves the state container alone. When it finds a group
    with a name, Import returns one resource, the state container with the
    name, description and external sources of the group, and the
    identifier still the supplied one: Import never stores the identifier
    of the group it found. A group without name ends Import in a nil
    dereference. *)
Theorem import_keeps_supplied_identifier (d : ResourceData) (h : list Call) :
  let r := resourceSecurityGroupImport defaultZone find {| w_d := d; w_calls := h |} in
  (forall err, find defaultZone (Id d) = inl err ->
     r = (Ok (None, Some err), {| w_d := d; w_calls := h |}))
  /\ (forall sg n, find defaultZone (Id d) = inr sg -> SG_Name sg = Some n ->
        exists d',
          r = (Ok (Some [d'], None), {| w_d := d'; w_calls := h |})
          /\ Id d' = Id d
          /\ default (name (planned d')) (set_name d') = n
          /\ default (description (planned d')) (set_description d')
             = defaultString (SG_Description sg) ""
          /\ (forall es, SG_ExternalSources sg = Some es ->
                default (external_sources (planned d')) (set_external_sources d')
                = list_to_set es))
  /\ (forall sg, find defaultZone (Id d) = inr sg -> SG_Name sg = None ->
        fst r = Panic nil_deref).
Proof.
  intros r. unfold r, resourceSecurityGroupImport. clear r.
  split; [|split].
  - intros err Hf. SecurityGroupLifecycle.run_sg. by rewrite Hf.
  - intros sg n Hf Hn. SecurityGroupLifecycle.run_sg. rewrite Hf.
    destruct sg as [de [es|] i nm]; cbn in Hn; subst nm; cbn;
      (eexists; split; [reflexivity|]; cbn; repeat split; try done;
       by intros ? [= <-]).
  - intros sg Hf Hn. SecurityGroupLifecycle.run_sg. rewrite Hf.
    destruct sg as [de [es|] i nm]; cbn in Hn; subst nm; done.
Qed.

End ImportCallback.

Import SecurityGroupScenario MoreScenarios.

Lemma name_diff_suppressed_witness :
  name_DiffSuppressFunc (fun _ _ => false) "name" "web" "Web" new_web = true.
Proof.
  apply (name_diff_suppressed_iff_equal_up_to_case
           (fun _ _ => false) "name" "web" "Web" new_web); reflexivity.
Defined.

Lemma upgraded_name_gives_no_diff_witness :
  exists stored,
    (<["name" := RawString "mygroup"]> ({[ "name" := RawString "MyGroup" ]}
                                         : gmap string RawValue)) !! "name"
    = Some (RawString stored)
    /\ name_DiffSuppressFunc (fun _ _ => false) "name" stored "MyGroup" new_web = true.
Proof.
  apply (upgraded_name_gives_no_diff (fun _ _ => false) (fun s => s)
           {[ "name" := RawString "MyGroup" ]} _ "MyGroup" "name" new_web);
    reflexivity.
Defined.

Lemma import_keeps_supplied_identifier_witness :
  exists d',
    resourceSecurityGroupImport "ch-gva-2" find_web
      {| w_d := import_by_name; w_calls := [] |}
    = (Ok (Some [d'], None), {| w_d := d'; w_calls := [] |})
    /\ Id d' = "web".
Proof.
  destruct (import_keeps_supplied_identifier "ch-gva-2" find_web import_by_name [])
    as (_ & H & _).
  destruct (H web_group "web") as (d' & Hr & Hid & _); [reflexivity | reflexivity |].
  exists d'. split; [exact Hr | exact Hid].
Defined.

End SecurityGroupSchemaFacts.

(** The primary delete calls of a log that is made of two parts. *)
Lemma deletes_issued_app (l1 l2 : list Call) :
  deletes_issued (l1 ++ l2) = deletes_issued l1 ++ deletes_issued l2.
Proof. apply omap_app. Qed.

(* ===================================================================== *)
(** ** Elastic IP: the rest of the lifecycle                               *)
(* ===================================================================== *)

Module ElasticIPMore.
Import ElasticIPResource ElasticIPChanges ElasticIPLifecycle ElasticIPSchema.

Lemma uint16_exact (p : Z) : uint16 p = p <-> 0 <= p < 65536.
Proof.
  unfold uint16. split.
  - intros <-. apply Z.mod_pos_bound. lia.
  - intros H. by apply Z.mod_small.
Qed.

Lemma int64_small (v : Z) :
  -9223372036854775808 <= v < 9223372036854775808 -> int64 v = v.
Proof. intros H. unfold int64. rewrite Z.mod_small by lia. lia. Qed.

Lemma seconds_Duration_small (v : Z) :
  -9223372036 <= v <= 9223372036 -> seconds_Duration v = v * time_Second.
Proof.
  intros H. unfold seconds_Duration. rewrite (int64_small v) by lia.
  apply int64_small. unfold time_Second. lia.
Qed.

(** X9. The conversions of Create and Update are exact on a bounded range
    only. For an [int] of 64 bits, [time.Duration(v) * time.Second] is v
    seconds exactly when v is between -9223372036 and 9223372036 (beyond,
    the product wraps around), and in that range [Seconds()] gives v back;
    [uint16(p)] is p exactly when p is between 0 and 65535. *)
Theorem conversions_exact_range (v p : Z) :
  -9223372036854775808 <= v < 9223372036854775808 ->
  (seconds_Duration v = v * time_Second <-> -9223372036 <= v <= 9223372036)
  /\ (-9223372036 <= v <= 9223372036 -> Duration_Seconds (seconds_Duration v) = v)
  /\ (uint16 p = p <-> 0 <= p < 65536).
Proof.
  intros Hv. split; [split|split].
  - unfold seconds_Duration. rewrite (int64_small v) by lia.
    unfold int64, time_Second. intros Heq.
    pose proof (Z.mod_pos_bound (v * 1000000000 + 9223372036854775808)
                  18446744073709551616 ltac:(lia)) as Hb.
    lia.
  - apply seconds_Duration_small.
  - intros Hr. rewrite (seconds_Duration_small v Hr).
    unfold Duration_Seconds. by rewrite Z.quot_mul.
  - apply uint16_exact.
Qed.

Lemma IntBetween_spec (lo hi v : Z) : IntBetween lo hi v = true <-> lo <= v <= hi.
Proof.
  unfold IntBetween.
  destruct (Z.ltb_spec v lo), (Z.gtb_spec v hi); cbn; split; (done || lia).
Qed.

Lemma healthcheck_in_range_spec (hc : HealthcheckAttrs) :
  healthcheck_in_range hc = true
  <-> 5 <= interval hc <= 300 /\ 1 <= port hc <= 65535 /\ 2 <= timeout hc <= 60
      /\ 1 <= strikes_fail hc <= 20 /\ 1 <= strikes_ok hc <= 20.
Proof.
  unfold healthcheck_in_range. rewrite !andb_true_iff, !IntBetween_spec. tauto.
Qed.

(** The remote healthcheck that the request of Create holds for a planned
    block within the ranges of the schema. *)
Lemma create_request_healthcheck (w : World ResourceData) (hcA : HealthcheckAttrs) :
  Get healthcheck set_healthcheck (w_d w) !! 0%nat = Some hcA ->
  healthcheck_in_range hcA = true ->
  mode hcA ≠ "" ->
  exists req,
    resourceElasticIPCreate_request w = (Ok req, w)
    /\ EIP_Healthcheck req
       = Some {| HC_Interval := Some (interval hcA * time_Second);
                 HC_Mode := Some (mode hcA);
                 HC_Port := Some (port hcA);
                 HC_StrikesFail := Some (strikes_fail hcA);
                 HC_StrikesOK := Some (strikes_ok hcA);
                 HC_TLSSNI := nonEmptyStringPtr (tls_sni hcA);
                 HC_TLSSkipVerify := if tls_skip_verify hcA then Some true else None;
                 HC_Timeout := Some (timeout hcA * time_Second);
                 HC_URI := nonEmptyStringPtr (uri hcA) |}.
Proof.
  intros Hblock Hrange Hmode.
  apply healthcheck_in_range_spec in Hrange as (Hi & Hp & Ht & Hsf & Hso).
  assert (Hget : forall A (f : HealthcheckAttrs -> A) (z : A),
             Get_healthcheck f z (w_d w) = f hcA).
  { intros A f z. unfold Get_healthcheck, block_attr. by rewrite Hblock. }
  unfold resourceElasticIPCreate_request. run_eip.
  rewrite !Hget.
  rewrite (bool_decide_eq_true_2 (mode hcA ≠ "")) by done. cbn. rewrite ?Hget.
  rewrite (bool_decide_eq_true_2 (interval hcA ≠ 0)) by lia.
  rewrite (bool_decide_eq_true_2 (strikes_fail hcA ≠ 0)) by lia.
  rewrite (bool_decide_eq_true_2 (strikes_ok hcA ≠ 0)) by lia.
  rewrite (bool_decide_eq_true_2 (timeout hcA ≠ 0)) by lia.
  eexists. split; [reflexivity|].
  rewrite !seconds_Duration_small, !int64_small by lia.
  rewrite (proj2 (uint16_exact (port hcA))) by lia.
  assert (Hmode' : nonEmptyStringPtr (mode hcA) = Some (mode hcA)).
  { unfold nonEmptyStringPtr. by destruct (decide (mode hcA = "")). }
  rewrite Hmode'.
  destruct (bool_decide (Get address_family set_address_family (w_d w) ≠ ""));
  destruct (decide (Get address_family set_address_family (w_d w) ≠ ""));
  destruct (bool_decide (Get description set_description (w_d w) ≠ ""));
  destruct (bool_decide (Get labels set_labels (w_d w) ≠ ∅));
  cbn; f_equal;
  (destruct (tls_skip_verify hcA); cbn;
   unfold nonEmptyStringPtr;
   destruct (decide (tls_sni hcA = "")) as [->|?], (decide (uri hcA = "")) as [->|?];
   cbn; rewrite ?bool_decide_eq_true_2 by done; cbn;
   repeat (case_decide; try done); reflexivity).
Qed.

Lemma strings_TrimSuffix_dot_app (s : string) : strings_TrimSuffix_dot (s +:+ ".") = s.
Proof.
  induction s as [|c s IH]; [done|].
  destruct s as [|c' s']; [reflexivity|].
  change (String c (strings_TrimSuffix_dot (String c' s' +:+ "."))
          = String c (String c' s')).
  by rewrite IH.
Qed.

Lemma reverse_dns_changes_app (l1 l2 : list Call) :
  reverse_dns_changes (l1 ++ l2) = reverse_dns_changes l1 ++ reverse_dns_changes l2.
Proof. apply omap_app. Qed.

Section WithClient.

Variable client : Client.

(** When Apply ends in a panic. *)
Lemma apply_panics_when (e : ElasticIP) (d : ResourceData) (h : list Call) :
  panicked (fst (resourceElasticIPApply client e {| w_d := d; w_calls := h |})) = true
  <-> EIP_ID e = None
      \/ exists hc, EIP_Healthcheck e = Some hc
                    /\ (HC_Interval hc = None \/ HC_Mode hc = None \/ HC_Port hc = None
                        \/ HC_StrikesFail hc = None \/ HC_StrikesOK hc = None
                        \/ HC_Timeout hc = None).
Proof.
  unfold resourceElasticIPApply.
  destruct e as [af ci de hc id ip la].
  destruct hc as [[[i|] [m|] [p|] [sf|] [so|] ts tv [t|] u]|], ip, id; run_eip;
    try (destruct (answer_GetElasticIPReverseDNS client _ _ _) as [rdns [err|]];
         [destruct (errors_Is_ErrNotFound err)|]; cbn);
    (split; [ try discriminate; intros _;
              first [ by left | right; eexists; split; [reflexivity|]; cbn; tauto ]
            | try done; intros [? | (hc' & [= <-] & Hf)]; try discriminate;
              cbn in Hf; intuition discriminate ]).
Qed.

(** Apply on an object it can process: what it returns, writes and issues. *)
Lemma apply_run_safe (e : ElasticIP) (d : ResourceData) (h : list Call)
  (id : string) :
  EIP_ID e = Some id ->
  (forall hc, EIP_Healthcheck e = Some hc ->
     is_Some (HC_Interval hc) /\ is_Some (HC_Mode hc) /\ is_Some (HC_Port hc)
     /\ is_Some (HC_StrikesFail hc) /\ is_Some (HC_StrikesOK hc)
     /\ is_Some (HC_Timeout hc)) ->
  let z := zone (planned d) in
  let block (hc : ElasticIPHealthcheck) :=
    {| interval := Duration_Seconds (default 0 (HC_Interval hc));
       mode := default "" (HC_Mode hc);
       port := default 0 (HC_Port hc);
       timeout := Duration_Seconds (default 0 (HC_Timeout hc));
       strikes_fail := default 0 (HC_StrikesFail hc);
       strikes_ok := default 0 (HC_StrikesOK hc);
       tls_skip_verify := defaultBool (HC_TLSSkipVerify hc) false;
       tls_sni := defaultString (HC_TLSSNI hc) "";
       uri := defaultString (HC_URI hc) "" |} in
  let first_part :=
    {| set_address_family := Some (defaultString (EIP_AddressFamily e) "");
       set_cidr := Some (defaultString (EIP_CIDR e) "");
       set_description := Some (defaultString (EIP_Description e) "");
       set_healthcheck :=
         match EIP_Healthcheck e with
         | Some hc => Some [block hc]
         | None => set_healthcheck (written d)
         end;
       set_ip_address :=
         match EIP_IPAddress e with
         | Some ip => Some ip
         | None => set_ip_address (written d)
         end;
       set_reverse_dns := set_reverse_dns (written d);
       set_labels := set_labels (written d) |} in
  let answer := answer_GetElasticIPReverseDNS client h z id in
  let failed :=
    match snd answer with
    | Some err => negb (errors_Is_ErrNotFound err)
    | None => false
    end in
  resourceElasticIPApply client e {| w_d := d; w_calls := h |}
  = (Ok (if failed
         then match snd answer with
              | Some err => diag_Errorf "unable to retrieve elasticIP reverse-dns: " err
              | None => []
              end
         else []),
     {| w_d := {| Id := Id d; prior := prior d; planned := planned d;
                  written :=
                    if failed then first_part
                    else write_labels (default ∅ (EIP_Labels e))
                           (write_reverse_dns (strings_TrimSuffix_dot (fst answer))
                              first_part) |};
        w_calls := h ++ [GetElasticIPReverseDNS z id] |}).
Proof.
  intros Hid Hsafe z block first_part answer failed.
  unfold failed, answer, first_part, block, z. clear failed answer first_part block z.
  unfold resourceElasticIPApply.
  destruct e as [af ci de hc id' ip la]. cbn in Hid. subst id'.
  destruct hc as [hc|].
  - destruct (Hsafe hc eq_refl) as ([i Hi] & [m Hm] & [p Hp] & [sf Hsf] & [so Hso] & [t Ht]).
    destruct hc as [i' m' p' sf' so' ts tv t' u]. cbn in *. subst.
    destruct ip; run_eip;
      (destruct (answer_GetElasticIPReverseDNS client _ _ _) as [rdns [err|]]; cbn;
       [destruct (errors_Is_ErrNotFound err)|]; cbn; reflexivity).
  - destruct ip; run_eip;
      (destruct (answer_GetElasticIPReverseDNS client _ _ _) as [rdns [err|]]; cbn;
       [destruct (errors_Is_ErrNotFound err)|]; cbn; reflexivity).
Qed.

Lemma apply_safe_of_no_panic (e : ElasticIP) (d : ResourceData) (h : list Call) :
  panicked (fst (resourceElasticIPApply client e {| w_d := d; w_calls := h |})) = false ->
  (exists id, EIP_ID e = Some id)
  /\ (forall hc, EIP_Healthcheck e = Some hc ->
        is_Some (HC_Interval hc) /\ is_Some (HC_Mode hc) /\ is_Some (HC_Port hc)
        /\ is_Some (HC_StrikesFail hc) /\ is_Some (HC_StrikesOK hc)
        /\ is_Some (HC_Timeout hc)).
Proof.
  intros Hno.
  assert (Hnot : ~ (EIP_ID e = None
      \/ exists hc, EIP_Healthcheck e = Some hc
                    /\ (HC_Interval hc = None \/ HC_Mode hc = None \/ HC_Port hc = None
                        \/ HC_StrikesFail hc = None \/ HC_StrikesOK hc = None
                        \/ HC_Timeout hc = None))).
  { intros Hbad. apply (apply_panics_when e d h) in Hbad. congruence. }
  split.
  - destruct (EIP_ID e) as [id|]; [eauto|]. exfalso. apply Hnot. by left.
  - intros hc Hhc.
    split; [|split; [|split; [|split; [|split]]]];
      (match goal with
       | |- is_Some ?x => destruct x eqn:?; [eauto|]
       end); exfalso; apply Hnot; right; exists hc; (split; [done|]); tauto.
Qed.

(** X10. Round trip of the healthcheck block. For a planned block within
    the ranges of the schema and with a mode, Create puts a healthcheck in
    its request such that Read, on any remote object that carries this
    healthcheck and an identifier, does not panic and writes back exactly
    the planned block: no value of the block is changed by the conversions
    to and from the remote form (seconds to durations, zero values to nil
    pointers). *)
Theorem healthcheck_round_trip (w : World ResourceData) (hcA : HealthcheckAttrs) :
  Get healthcheck set_healthcheck (w_d w) !! 0%nat = Some hcA ->
  healthcheck_in_range hcA = true ->
  mode hcA ≠ "" ->
  exists req hc,
    resourceElasticIPCreate_request w = (Ok req, w)
    /\ EIP_Healthcheck req = Some hc
    /\ forall e id d' h',
         EIP_Healthcheck e = Some hc ->
         EIP_ID e = Some id ->
         let r := resourceElasticIPApply client e {| w_d := d'; w_calls := h' |} in
         panicked (fst r) = false
         /\ Get healthcheck set_healthcheck (w_d (snd r)) = [hcA].
Proof.
  intros Hblock Hrange Hmode.
  destruct (create_request_healthcheck w hcA Hblock Hrange Hmode) as (req & Hrun & Hhc).
  eexists req, _. split; [exact Hrun|]. split; [exact Hhc|].
  intros e id d' h' He Hid r. unfold r.
  rewrite (apply_run_safe e d' h' id Hid); cycle 1.
  { intros hc'. rewrite He. intros [= <-]. cbn.
    split; [|split; [|split; [|split; [|split]]]]; eauto. }
  rewrite He. cbn. split; [done|].
  assert (Hback :
    [{| interval := Duration_Seconds (interval hcA * time_Second);
        mode := mode hcA; port := port hcA;
        timeout := Duration_Seconds (timeout hcA * time_Second);
        strikes_fail := strikes_fail hcA; strikes_ok := strikes_ok hcA;
        tls_skip_verify :=
          defaultBool (if tls_skip_verify hcA then Some true else None) false;
        tls_sni := defaultString (nonEmptyStringPtr (tls_sni hcA)) "";
        uri := defaultString (nonEmptyStringPtr (uri hcA)) "" |}] = [hcA]).
  { unfold Duration_Seconds. rewrite !Z.quot_mul by done.
    unfold nonEmptyStringPtr.
    destruct hcA as [i m p t sf so tsv sni u]. cbn.
    destruct tsv, (decide (sni = "")) as [->|?], (decide (u = "")) as [->|?]; done. }
  unfold Get.
  match goal with |- context [if ?b then _ else _] => destruct b end; cbn; exact Hback.
Qed.

(** X11. Apply, the second half of Read, ends in a nil dereference exactly
    when the remote object has no identifier, or has a healthcheck that
    lacks its interval, mode, port, timeout or one of its strike counts.
    The optional fields of the healthcheck (TLS name, TLS verification,
    URI) and every other field of the object may be nil. *)
Theorem apply_panics_iff (e : ElasticIP) (d : ResourceData) (h : list Call) :
  panicked (fst (resourceElasticIPApply client e {| w_d := d; w_calls := h |})) = true
  <-> EIP_ID e = None
      \/ exists hc, EIP_Healthcheck e = Some hc
                    /\ (HC_Interval hc = None \/ HC_Mode hc = None \/ HC_Port hc = None
                        \/ HC_StrikesFail hc = None \/ HC_StrikesOK hc = None
                        \/ HC_Timeout hc = None).
Proof. apply apply_panics_when. Qed.

(** X12. On a remote object it can process, and when the reverse-DNS
    fetch succeeds or reports not-found, Apply returns no diagnostic and
    writes every attribute: address family, CIDR and description (the
    empty string for nil), the IP address and the healthcheck block when
    the object has them (a nil one leaves the stored value), the
    reverse-DNS name without one trailing dot, and the labels (the empty
    map for nil). An interval and a timeout of whole seconds are written
    as that number of seconds. The identifier, the prior and the planned
    values are unchanged. *)
Theorem apply_writes_fetched_object (e : ElasticIP) (d : ResourceData) (h : list Call)
  (id rdns : string) (err : option error) :
  EIP_ID e = Some id ->
  (forall hc, EIP_Healthcheck e = Some hc ->
     is_Some (HC_Interval hc) /\ is_Some (HC_Mode hc) /\ is_Some (HC_Port hc)
     /\ is_Some (HC_StrikesFail hc) /\ is_Some (HC_StrikesOK hc)
     /\ is_Some (HC_Timeout hc)) ->
  answer_GetElasticIPReverseDNS client h (zone (planned d)) id = (rdns, err) ->
  (forall e', err = Some e' -> errors_Is_ErrNotFound e' = true) ->
  let r := resourceElasticIPApply client e {| w_d := d; w_calls := h |} in
  let d' := w_d (snd r) in
  fst r = Ok []
  /\ Id d' = Id d /\ prior d' = prior d /\ planned d' = planned d
  /\ Get address_family set_address_family d' = defaultString (EIP_AddressFamily e) ""
  /\ Get cidr set_cidr d' = defaultString (EIP_CIDR e) ""
  /\ Get description set_description d' = defaultString (EIP_Description e) ""
  /\ Get ip_address set_ip_address d'
     = default (Get ip_address set_ip_address d) (EIP_IPAddress e)
  /\ Get reverse_dns set_reverse_dns d' = strings_TrimSuffix_dot rdns
  /\ Get labels set_labels d' = default ∅ (EIP_Labels e)
  /\ (EIP_Healthcheck e = None ->
      Get healthcheck set_healthcheck d' = Get healthcheck set_healthcheck d)
  /\ (forall hc si m p sf so st,
        EIP_Healthcheck e = Some hc ->
        -9223372036 <= si <= 9223372036 ->
        -9223372036 <= st <= 9223372036 ->
        HC_Interval hc = Some (si * time_Second) ->
        HC_Mode hc = Some m -> HC_Port hc = Some p ->
        HC_StrikesFail hc = Some sf -> HC_StrikesOK hc = Some so ->
        HC_Timeout hc = Some (st * time_Second) ->
        Get healthcheck set_healthcheck d'
        = [ {| interval := si; mode := m; port := p;
               timeout := st; strikes_fail := sf; strikes_ok := so;
               tls_skip_verify := defaultBool (HC_TLSSkipVerify hc) false;
               tls_sni := defaultString (HC_TLSSNI hc) "";
               uri := defaultString (HC_URI hc) "" |} ]).
Proof.
  intros Hid Hsafe Hans Hnf r d'. unfold d', r.
  rewrite (apply_run_safe e d h id Hid Hsafe), Hans. cbn.
  assert (Hok : match err with
                | Some err0 => negb (errors_Is_ErrNotFound err0)
                | None => false
                end = false).
  { destruct err as [e'|]; [|done]. by rewrite (Hnf e' eq_refl). }
  rewrite Hok. cbn. unfold Get. cbn.
  repeat split; try done.
  - by destruct (EIP_IPAddress e).
  - by intros ->.
  - intros hc si m p sf so st -> _ _ -> -> -> -> -> ->. cbn.
    unfold Duration_Seconds. by rewrite !Z.quot_mul.
Qed.

(** X13. When the reverse-DNS fetch of Apply fails with an error other
    than not-found, Apply returns the diagnostic "unable to retrieve
    elasticIP reverse-dns: ..." and stops: the reverse-DNS name and the
    labels of the state container are not written, while the attributes
    before the fetch (the description among them) already are. *)
Theorem apply_reverse_dns_failure (e : ElasticIP) (d : ResourceData) (h : list Call)
  (id rdns : string) (err : error) :
  EIP_ID e = Some id ->
  (forall hc, EIP_Healthcheck e = Some hc ->
     is_Some (HC_Interval hc) /\ is_Some (HC_Mode hc) /\ is_Some (HC_Port hc)
     /\ is_Some (HC_StrikesFail hc) /\ is_Some (HC_StrikesOK hc)
     /\ is_Some (HC_Timeout hc)) ->
  answer_GetElasticIPReverseDNS client h (zone (planned d)) id = (rdns, Some err) ->
  errors_Is_ErrNotFound err = false ->
  let r := resourceElasticIPApply client e {| w_d := d; w_calls := h |} in
  let d' := w_d (snd r) in
  fst r = Ok (diag_Errorf "unable to retrieve elasticIP reverse-dns: " err)
  /\ Get reverse_dns set_reverse_dns d' = Get reverse_dns set_reverse_dns d
  /\ Get labels set_labels d' = Get labels set_labels d
  /\ Get description set_description d' = defaultString (EIP_Description e) "".
Proof.
  intros Hid Hsafe Hans Hnf r d'. unfold d', r.
  rewrite (apply_run_safe e d h id Hid Hsafe), Hans. cbn. rewrite Hnf. cbn.
  done.
Qed.

(** X14. The remote system names a reverse-DNS record with a trailing
    dot; the state container gets the name without it: when the fetch
    answers [name + "."], Apply stores [name], whatever dots [name] itself
    ends with. *)
Theorem read_stores_reverse_dns_without_trailing_dot
  (e : ElasticIP) (d : ResourceData) (h : list Call) (id rname : string) :
  EIP_ID e = Some id ->
  (forall hc, EIP_Healthcheck e = Some hc ->
     is_Some (HC_Interval hc) /\ is_Some (HC_Mode hc) /\ is_Some (HC_Port hc)
     /\ is_Some (HC_StrikesFail hc) /\ is_Some (HC_StrikesOK hc)
     /\ is_Some (HC_Timeout hc)) ->
  answer_GetElasticIPReverseDNS client h (zone (planned d)) id = (rname +:+ ".", None) ->
  Get reverse_dns set_reverse_dns
    (w_d (snd (resourceElasticIPApply client e {| w_d := d; w_calls := h |})))
  = rname.
Proof.
  intros Hid Hsafe Hans.
  rewrite (apply_run_safe e d h id Hid Hsafe), Hans. cbn. unfold Get. cbn.
  apply strings_TrimSuffix_dot_app.
Qed.

Local Arguments resourceElasticIPUpdate_merge : simpl never.
Local Arguments resourceElasticIPRead : simpl never.
Local Arguments resourceElasticIPCreate_request : simpl never.

(** X15. In an Update that gets past its update call, the reverse-DNS
    record is changed by at most one call: none when the attribute did
    not change, the delete of the record when it changed to the empty
    name, the update of the record with the new name otherwise. The call
    is addressed to the identifier of the fetched object. *)
Theorem update_reverse_dns_one_call (d : ResourceData) (h : list Call)
  (e : ElasticIP) (id : string) :
  let z := zone (planned d) in
  let rdns := Get reverse_dns set_reverse_dns d in
  let issued :=
    drop (length h)
      (w_calls (snd (resourceElasticIPUpdate client {| w_d := d; w_calls := h |}))) in
  answer_GetElasticIP client h z (Id d) = inr e ->
  (healthcheck_changed d = true -> EIP_Healthcheck e ≠ None) ->
  (simple_field_changed d = true ->
   answer_UpdateElasticIP client (h ++ [GetElasticIP z (Id d)]) z (merged_object d e) = None) ->
  EIP_ID e = Some id ->
  reverse_dns_changes issued
  = if HasChange reverse_dns d
    then if decide (rdns = "")
         then [DeleteElasticIPReverseDNS z id]
         else [UpdateElasticIPReverseDNS z id rdns]
    else [].
Proof.
  intros z rdns issued Hget Hhc Hupd Hid. unfold issued, rdns, z in *. clear issued rdns z.
  assert (Hcond : healthcheck_changed d && bool_decide (EIP_Healthcheck e = None) = false).
  { destruct (healthcheck_changed d); [|done]. cbn.
    apply bool_decide_eq_false_2. by apply Hhc. }
  unfold resourceElasticIPUpdate. run_eip. rewrite Hget. cbn.
  rewrite merge_run, Hcond. cbn.
  destruct (simple_field_changed d); cbn; [rewrite (Hupd eq_refl); cbn|];
    (destruct (HasChange reverse_dns d); cbn;
     [rewrite Hid; cbn;
      destruct (decide (Get reverse_dns set_reverse_dns d = "")); cbn;
      match goal with
      | |- context [answer_DeleteElasticIPReverseDNS ?c ?a ?z ?i] =>
          destruct (answer_DeleteElasticIPReverseDNS c a z i)
      | |- context [answer_UpdateElasticIPReverseDNS ?c ?a ?z ?i ?r] =>
          destruct (answer_UpdateElasticIPReverseDNS c a z i r)
      end; cbn|]);
    try match goal with
        | |- context [resourceElasticIPRead client ?w] =>
            let tail := fresh "tail" in
            let Hc := fresh "Hc" in
            destruct (elastic_ip_read_calls client (w_d w) (w_calls w))
              as (tail & Hc & [-> | [? ->]]);
            cbn in Hc; rewrite Hc
        end;
    rewrite <- ?app_assoc; rewrite drop_app_length; reflexivity.
Qed.

(** X16. A Create whose calls succeed is the create call, then the
    reverse-DNS call when a name is configured (and only then), then Read
    on the state container that holds the returned identifier and is
    otherwise as before: Create itself writes no attribute, all of them
    come from the Read that ends it. *)
Theorem create_stores_id_then_reads (d : ResourceData) (h : list Call)
  (req e : ElasticIP) (id : string) :
  let z := zone (planned d) in
  let rdns := Get reverse_dns set_reverse_dns d in
  let secondary := if decide (rdns = "") then []
                   else [UpdateElasticIPReverseDNS z id rdns] in
  fst (resourceElasticIPCreate_request {| w_d := d; w_calls := h |}) = Ok req ->
  answer_CreateElasticIP client h z req = inr e ->
  EIP_ID e = Some id ->
  (rdns ≠ "" ->
   answer_UpdateElasticIPReverseDNS client (h ++ [CreateElasticIP z req]) z id rdns = None) ->
  resourceElasticIPCreate client {| w_d := d; w_calls := h |}
  = resourceElasticIPRead client
      {| w_d := {| Id := id; prior := prior d; planned := planned d;
                   written := written d |};
         w_calls := h ++ CreateElasticIP z req :: secondary |}.
Proof.
  intros z rdns secondary Hreq Hcreate Hid Hrdns.
  unfold secondary, z, rdns in *. clear secondary z rdns. unfold Get in Hrdns |- *.
  destruct (create_request_pure {| w_d := d; w_calls := h |}) as [req' Hrun].
  rewrite Hrun in Hreq. cbn in Hreq. injection Hreq as ->.
  unfold resourceElasticIPCreate. run_eip. rewrite Hrun. cbn.
  rewrite Hcreate. cbn. rewrite Hid. cbn. unfold Get. cbn.
  destruct (decide (default (reverse_dns (planned d)) (set_reverse_dns (written d)) = ""))
    as [Heq|Hne].
  - rewrite bool_decide_eq_false_2 by (by intros []). cbn. done.
  - rewrite bool_decide_eq_true_2 by done. cbn. rewrite (Hrdns Hne). cbn.
    by rewrite <- app_assoc.
Qed.

(** X17. When the first remote call fails, Create and Update return the
    error through [diag.FromErr] after that one call and leave the state
    container as it was. For Update this includes the not-found error:
    unlike Read, Update does not clear the identifier of an elastic IP
    that is gone. *)
Theorem elastic_ip_first_call_failure (d : ResourceData) (h : list Call) :
  let z := zone (planned d) in
  (forall req err,
     fst (resourceElasticIPCreate_request {| w_d := d; w_calls := h |}) = Ok req ->
     answer_CreateElasticIP client h z req = inl err ->
     resourceElasticIPCreate client {| w_d := d; w_calls := h |}
     = (Ok (diag_FromErr (Some err)),
        {| w_d := d; w_calls := h ++ [CreateElasticIP z req] |}))
  /\ (forall err,
        answer_GetElasticIP client h z (Id d) = inl err ->
        resourceElasticIPUpdate client {| w_d := d; w_calls := h |}
        = (Ok (diag_FromErr (Some err)),
           {| w_d := d; w_calls := h ++ [GetElasticIP z (Id d)] |})).
Proof.
  intros z. unfold z. split.
  - intros req err Hreq Herr.
    destruct (create_request_pure {| w_d := d; w_calls := h |}) as [req' Hrun].
    rewrite Hrun in Hreq. cbn in Hreq. injection Hreq as ->.
    unfold resourceElasticIPCreate. run_eip. rewrite Hrun. cbn. by rewrite Herr.
  - intros err Herr. unfold resourceElasticIPUpdate. run_eip. by rewrite Herr.
Qed.

(** X18. When the update call of Update fails, Update returns that error
    and stops: the reverse-DNS record is not touched, even if its
    attribute changed, the object is not read back, and the state
    container is as before. *)
Theorem update_call_failure_stops (d : ResourceData) (h : list Call)
  (e : ElasticIP) (err : error) :
  let z := zone (planned d) in
  answer_GetElasticIP client h z (Id d) = inr e ->
  (healthcheck_changed d = true -> EIP_Healthcheck e ≠ None) ->
  simple_field_changed d = true ->
  answer_UpdateElasticIP client (h ++ [GetElasticIP z (Id d)]) z (merged_object d e)
  = Some err ->
  resourceElasticIPUpdate client {| w_d := d; w_calls := h |}
  = (Ok (diag_FromErr (Some err)),
     {| w_d := d;
        w_calls := h ++ [GetElasticIP z (Id d); UpdateElasticIP z (merged_object d e)] |}).
Proof.
  intros z Hget Hhc Hchg Hupd. unfold z in *. clear z.
  assert (Hcond : healthcheck_changed d && bool_decide (EIP_Healthcheck e = None) = false).
  { destruct (healthcheck_changed d); [|done]. cbn.
    apply bool_decide_eq_false_2. by apply Hhc. }
  unfold resourceElasticIPUpdate. run_eip. rewrite Hget. cbn.
  rewrite merge_run, Hcond, Hchg. cbn. rewrite Hupd. cbn.
  by rewrite <- app_assoc.
Qed.

(** X19. The calls of Delete, in every run: the cleanup call of the
    reverse-DNS record, followed by the primary delete call (of an object
    that carries the identifier only) unless the cleanup call failed with
    an error other than not-found. Delete never changes the state
    container: it does not clear the identifier itself. *)
Theorem delete_calls_and_container (d : ResourceData) (h : list Call) :
  let z := zone (planned d) in
  let r := resourceElasticIPDelete client {| w_d := d; w_calls := h |} in
  let cleanup_failed :=
    match answer_DeleteElasticIPReverseDNS client h z (Id d) with
    | Some err => negb (errors_Is_ErrNotFound err)
    | None => false
    end in
  w_d (snd r) = d
  /\ panicked (fst r) = false
  /\ w_calls (snd r)
     = h ++ DeleteElasticIPReverseDNS z (Id d)
          :: (if cleanup_failed then []
              else [DeleteElasticIP z
                      {| EIP_AddressFamily := None; EIP_CIDR := None;
                         EIP_Description := None; EIP_Healthcheck := None;
                         EIP_ID := Some (Id d); EIP_IPAddress := None;
                         EIP_Labels := None |}]).
Proof.
  intros z r cleanup_failed. unfold cleanup_failed, r, z. clear cleanup_failed r z.
  unfold resourceElasticIPDelete. run_eip.
  destruct (answer_DeleteElasticIPReverseDNS client h (zone (planned d)) (Id d))
    as [err|]; [destruct (errors_Is_ErrNotFound err)|]; cbn;
    rewrite <- ?app_assoc; done.
Qed.

(** X20. No rollback: in no run does Create or Update issue a primary
    delete call. An elastic IP that was created stays on the remote
    system when a later step of Create fails. *)
Theorem create_and_update_never_delete (d : ResourceData) (h : list Call) :
  deletes_issued
    (drop (length h)
       (w_calls (snd (resourceElasticIPCreate client {| w_d := d; w_calls := h |})))) = []
  /\ deletes_issued
       (drop (length h)
          (w_calls (snd (resourceElasticIPUpdate client {| w_d := d; w_calls := h |})))) = [].
Proof.
  assert (Hread : forall w pre,
            w_calls w = h ++ pre -> deletes_issued pre = [] ->
            deletes_issued
              (drop (length h) (w_calls (snd (resourceElasticIPRead client w)))) = []).
  { intros [d0 h0] pre Hw Hpre. cbn in Hw. subst h0.
    destruct (elastic_ip_read_calls client d0 (h ++ pre)) as (tail & Hc & Htail).
    rewrite Hc, <- app_assoc, drop_app_length, deletes_issued_app, Hpre.
    by destruct Htail as [-> | [? ->]]. }
  split.
  - destruct (create_request_pure {| w_d := d; w_calls := h |}) as [req Hrun].
    unfold resourceElasticIPCreate. run_eip. rewrite Hrun. cbn.
    destruct (answer_CreateElasticIP client h (zone (planned d)) req) as [err|e]; cbn;
      [by rewrite drop_app_length|].
    destruct (EIP_ID e) as [id|]; cbn; [|by rewrite drop_app_length].
    case_bool_decide; cbn.
    + destruct (answer_UpdateElasticIPReverseDNS client _ _ _ _); cbn.
      * by rewrite <- app_assoc, drop_app_length.
      * eapply Hread; [cbn; by rewrite <- app_assoc | done].
    + eapply Hread; [reflexivity | done].
  - unfold resourceElasticIPUpdate. run_eip.
    destruct (answer_GetElasticIP client h (zone (planned d)) (Id d)) as [err|e]; cbn;
      [by rewrite drop_app_length|].
    rewrite merge_run.
    destruct (healthcheck_changed d && bool_decide (EIP_Healthcheck e = None)); cbn;
      [by rewrite drop_app_length|].
    destruct (simple_field_changed d); cbn;
      [destruct (answer_UpdateElasticIP client _ _ _); cbn;
       [by rewrite <- app_assoc, drop_app_length|]|];
      (destruct (HasChange reverse_dns d); cbn;
       [destruct (EIP_ID e); cbn;
        [destruct (decide (Get reverse_dns set_reverse_dns d = "")); cbn;
         match goal with
         | |- context [answer_DeleteElasticIPReverseDNS ?c ?a ?z ?i] =>
             destruct (answer_DeleteElasticIPReverseDNS c a z i)
         | |- context [answer_UpdateElasticIPReverseDNS ?c ?a ?z ?i ?r] =>
             destruct (answer_UpdateElasticIPReverseDNS c a z i r)
         end; cbn|]|]);
      first [ eapply Hread; [cbn; rewrite <- ?app_assoc; reflexivity | done]
            | rewrite <- ?app_assoc; rewrite drop_app_length; reflexivity ].
Qed.

Local Arguments resourceElasticIPApply : simpl never.

(** X21. Read is idempotent on the state container. Against a remote
    system that gives the same answers, a second Read after a Read that
    did not panic returns the same diagnostics and leaves the state
    container as the first Read left it. *)
Theorem elastic_ip_read_idempotent (fetched : error + ElasticIP)
  (rdns : string * option error) (d : ResourceData) (h : list Call) :
  (forall h' z id, answer_GetElasticIP client h' z id = fetched) ->
  (forall h' z id, answer_GetElasticIPReverseDNS client h' z id = rdns) ->
  let once := resourceElasticIPRead client {| w_d := d; w_calls := h |} in
  let twice := resourceElasticIPRead client (snd once) in
  panicked (fst once) = false ->
  fst twice = fst once /\ w_d (snd twice) = w_d (snd once).
Proof.
  intros Hf Hr once twice. unfold twice, once. clear once twice.
  destruct fetched as [err|e].
  - intros _. rewrite (elastic_ip_read_fetch_failure _ _ _ _ (Hf _ _ _)).
    destruct (errors_Is_ErrNotFound err) eqn:Hnf; cbn;
      rewrite (elastic_ip_read_fetch_failure _ _ _ _ (Hf _ _ _)), Hnf; done.
  - assert (Hread : forall d0 h0,
              resourceElasticIPRead client {| w_d := d0; w_calls := h0 |}
              = resourceElasticIPApply client e
                  {| w_d := d0; w_calls := h0 ++ [GetElasticIP (zone (planned d0)) (Id d0)] |}).
    { intros d0 h0. unfold resourceElasticIPRead. run_eip. by rewrite Hf. }
    rewrite Hread. intros Hno.
    destruct (apply_safe_of_no_panic _ _ _ Hno) as [[id Hid] Hsafe].
    rewrite (apply_run_safe e _ _ id Hid Hsafe). cbn.
    rewrite Hread. rewrite (apply_run_safe e _ _ id Hid Hsafe). cbn.
    rewrite !Hr.
    destruct rdns as [nm [err|]]; cbn; [destruct (errors_Is_ErrNotFound err); cbn|];
      destruct (EIP_Healthcheck e), (EIP_IPAddress e); done.
Qed.

End WithClient.

Import ElasticIPScenario MoreScenarios.

Lemma conversions_exact_range_witness :
  seconds_Duration 10 = 10 * time_Second
  /\ Duration_Seconds (seconds_Duration 10) = 10
  /\ uint16 80 = 80
  /\ seconds_Duration 9223372037 ≠ 9223372037 * time_Second
  /\ uint16 65536 ≠ 65536.
Proof.
  destruct (conversions_exact_range 10 80) as (H1 & H2 & H3); [lia|].
  destruct (conversions_exact_range 9223372037 65536) as (H4 & _ & H5); [lia|].
  split; [apply H1; lia|].
  split; [apply H2; lia|].
  split; [apply H3; lia|].
  split; [intros H; apply H4 in H; lia | intros H; apply H5 in H; lia].
Defined.

Lemma healthcheck_round_trip_witness :
  exists req hc,
    resourceElasticIPCreate_request {| w_d := new_checked; w_calls := [] |}
    = (Ok req, {| w_d := new_checked; w_calls := [] |})
    /\ EIP_Healthcheck req = Some hc
    /\ forall e id d' h',
         EIP_Healthcheck e = Some hc ->
         EIP_ID e = Some id ->
         let r := resourceElasticIPApply healthy e {| w_d := d'; w_calls := h' |} in
         panicked (fst r) = false
         /\ Get healthcheck set_healthcheck (w_d (snd r)) = [planned_healthcheck tcp_80].
Proof.
  apply (healthcheck_round_trip healthy {| w_d := new_checked; w_calls := [] |}
           (planned_healthcheck tcp_80)).
  - reflexivity.
  - reflexivity.
  - by vm_compute.
Defined.

Lemma apply_panics_iff_witness :
  panicked (fst (resourceElasticIPApply healthy new_ElasticIP
                   {| w_d := change_description; w_calls := [] |})) = true.
Proof.
  apply (apply_panics_iff healthy new_ElasticIP change_description []).
  left. reflexivity.
Defined.

Lemma apply_writes_fetched_object_witness :
  let r := resourceElasticIPApply healthy eip_1
             {| w_d := change_description; w_calls := [] |} in
  fst r = Ok []
  /\ Get description set_description (w_d (snd r)) = "old"
  /\ Get labels set_labels (w_d (snd r)) = ∅.
Proof.
  destruct (apply_writes_fetched_object healthy eip_1 change_description []
              "eip-1" "" (Some err_not_found))
    as (Hr & _ & _ & _ & _ & _ & Hd & _ & _ & Hl & _).
  - reflexivity.
  - intros hc Hhc. vm_compute in Hhc. discriminate Hhc.
  - reflexivity.
  - intros e' [= <-]. reflexivity.
  - split; [exact Hr|]. split; [rewrite Hd | rewrite Hl]; reflexivity.
Defined.

Lemma apply_reverse_dns_failure_witness :
  fst (resourceElasticIPApply reverse_dns_unreadable eip_1
         {| w_d := change_description; w_calls := [] |})
  = Ok (diag_Errorf "unable to retrieve elasticIP reverse-dns: " err_unavailable).
Proof.
  destruct (apply_reverse_dns_failure reverse_dns_unreadable eip_1 change_description []
              "eip-1" "" err_unavailable) as [H _].
  - reflexivity.
  - intros hc Hhc. vm_compute in Hhc. discriminate Hhc.
  - reflexivity.
  - reflexivity.
  - exact H.
Defined.

Lemma read_stores_reverse_dns_witness :
  Get reverse_dns set_reverse_dns
    (w_d (snd (resourceElasticIPApply reverse_dns_named eip_1
                 {| w_d := change_description; w_calls := [] |})))
  = "eip.example.net".
Proof.
  apply (read_stores_reverse_dns_without_trailing_dot reverse_dns_named eip_1
           change_description [] "eip-1" "eip.example.net").
  - reflexivity.
  - intros hc Hhc. vm_compute in Hhc. discriminate Hhc.
  - reflexivity.
Defined.

Lemma update_reverse_dns_one_call_witness :
  reverse_dns_changes
    (drop 0 (w_calls (snd (resourceElasticIPUpdate healthy
                             {| w_d := change_reverse_dns; w_calls := [] |}))))
  = [UpdateElasticIPReverseDNS "ch-gva-2" "eip-1" "eip.example.net"].
Proof.
  apply (update_reverse_dns_one_call healthy change_reverse_dns [] eip_1 "eip-1").
  - reflexivity.
  - intros Hc. vm_compute in Hc. discriminate Hc.
  - intros Hc. vm_compute in Hc. discriminate Hc.
  - reflexivity.
Defined.

Lemma create_stores_id_then_reads_witness :
  resourceElasticIPCreate healthy {| w_d := new_named; w_calls := [] |}
  = resourceElasticIPRead healthy
      {| w_d := {| Id := "eip-1"; prior := prior new_named;
                   planned := planned new_named; written := written new_named |};
         w_calls := [ CreateElasticIP "ch-gva-2" new_ElasticIP;
                      UpdateElasticIPReverseDNS "ch-gva-2" "eip-1" "eip.example.net" ] |}.
Proof.
  rewrite (create_stores_id_then_reads healthy new_named [] new_ElasticIP eip_1 "eip-1").
  - reflexivity.
  - reflexivity.
  - reflexivity.
  - reflexivity.
  - intros _. reflexivity.
Defined.

Lemma elastic_ip_first_call_failure_witness :
  fst (resourceElasticIPCreate create_refused {| w_d := new_named; w_calls := [] |})
  = Ok (diag_FromErr (Some err_unavailable))
  /\ Id (w_d (snd (resourceElasticIPUpdate eip_gone
                     {| w_d := change_description; w_calls := [] |}))) = "eip-1".
Proof.
  destruct (elastic_ip_first_call_failure create_refused new_named []) as [Hc _].
  destruct (elastic_ip_first_call_failure eip_gone change_description []) as [_ Hu].
  split.
  - rewrite (Hc new_ElasticIP err_unavailable); reflexivity.
  - rewrite (Hu err_not_found); reflexivity.
Defined.

Lemma update_call_failure_stops_witness :
  let r := resourceElasticIPUpdate update_refused
             {| w_d := change_description; w_calls := [] |} in
  fst r = Ok (diag_FromErr (Some err_unavailable))
  /\ length (w_calls (snd r)) = 2%nat.
Proof.
  cbv zeta.
  rewrite (update_call_failure_stops update_refused change_description [] eip_1
             err_unavailable).
  - split; reflexivity.
  - reflexivity.
  - intros Hc. vm_compute in Hc. discriminate Hc.
  - by vm_compute.
  - reflexivity.
Defined.

Lemma elastic_ip_read_idempotent_witness :
  let once := resourceElasticIPRead healthy
                {| w_d := change_description; w_calls := [] |} in
  w_d (snd (resourceElasticIPRead healthy (snd once))) = w_d (snd once).
Proof.
  destruct (elastic_ip_read_idempotent healthy (inr eip_1) ("", Some err_not_found)
              change_description []) as [_ H].
  - reflexivity.
  - reflexivity.
  - by vm_compute.
  - exact H.
Defined.

End ElasticIPMore.

(* ===================================================================== *)
(** ** The legacy affinity group                                           *)
(* ===================================================================== *)

Module AffinityGroupFacts.
Import AffinityGroupResource.

Section WithClient.

Variable Request : Command -> error + Response.
Variable handleNotFound : ResourceData -> error -> ResourceData * option error.

(** X22. When the listing succeeds with an empty list of groups, Read
    takes element 0 of it and panics, and so does Import, which calls
    Read; the state container is not changed. Exists, on the same
    answer, does not look at the list: it returns whether the count of
    the response is positive. *)
Theorem read_panics_on_empty_list (d : ResourceData) (count : Z) :
  Request (ListAffinityGroups (Id d)) = inr (ListAffinityGroupsResponse count []) ->
  readAffinityGroup Request handleNotFound d = (Panic "index out of range", d)
  /\ fst (importAffinityGroup Request handleNotFound d) = Panic "index out of range"
  /\ existsAffinityGroup Request handleNotFound d = (Ok ((0 <? count)%Z, None), d).
Proof.
  intros Hr. unfold importAffinityGroup, readAffinityGroup, existsAffinityGroup.
  by rewrite Hr.
Qed.

(** X23. Create stores the identifier and every attribute of the group
    the remote system returns. When the listing for that identifier then
    has this group first, Read leaves the state container as Create left
    it, and Import returns this one state container. *)
Theorem create_then_read_is_stable (d : ResourceData) (ag : AffinityGroup)
  (count : Z) (rest : list AffinityGroup) :
  Request (CreateAffinityGroup (name d) (description d) (type d))
  = inr (CreateAffinityGroupResponse ag) ->
  Request (ListAffinityGroups (AG_ID ag))
  = inr (ListAffinityGroupsResponse count (ag :: rest)) ->
  let created := snd (createAffinityGroup Request d) in
  createAffinityGroup Request d = (Ok None, created)
  /\ Id created = AG_ID ag
  /\ name created = AG_Name ag
  /\ description created = AG_Description ag
  /\ type created = AG_Type ag
  /\ virtual_machine_ids created = list_to_set (AG_VirtualMachineIDs ag)
  /\ readAffinityGroup Request handleNotFound created = (Ok None, created)
  /\ importAffinityGroup Request handleNotFound created
     = (Ok (Some [created], None), created).
Proof.
  intros Hc Hl created.
  unfold created, importAffinityGroup, readAffinityGroup, createAffinityGroup.
  rewrite Hc. cbn. rewrite Hl. done.
Qed.

(** X24. When the listing fails, Import returns what [handleNotFound]
    makes of the error: the error it returns, with no resource; or, when
    it returns none, one resource, the state container as
    [handleNotFound] left it, although no group was read. *)
Theorem import_follows_handleNotFound
  (d d' : ResourceData) (err : error) (e : option error) :
  Request (ListAffinityGroups (Id d)) = inl err ->
  handleNotFound d err = (d', e) ->
  importAffinityGroup Request handleNotFound d
  = (Ok (match e with
         | Some err' => (None, Some err')
         | None => (Some [d'], None)
         end), d').
Proof.
  intros Hr Hh. unfold importAffinityGroup, readAffinityGroup.
  rewrite Hr, Hh. by destruct e.
Qed.

End WithClient.

Import MoreScenarios.

Lemma read_panics_on_empty_list_witness :
  fst (readAffinityGroup lists_nothing clear_and_drop new_anti)
  = Panic "index out of range"
  /\ fst (existsAffinityGroup lists_nothing clear_and_drop new_anti) = Ok (false, None).
Proof.
  destruct (read_panics_on_empty_list lists_nothing clear_and_drop new_anti 0)
    as (Hr & _ & He); [reflexivity|].
  rewrite Hr, He. split; reflexivity.
Defined.

Lemma create_then_read_is_stable_witness :
  let created := snd (createAffinityGroup holds_anti new_anti) in
  Id created = "ag-1"
  /\ readAffinityGroup holds_anti clear_and_drop created = (Ok None, created).
Proof.
  destruct (create_then_read_is_stable holds_anti clear_and_drop new_anti anti 1 [])
    as (_ & Hid & _ & _ & _ & _ & Hr & _); [reflexivity | reflexivity |].
  split; [exact Hid | exact Hr].
Defined.

Lemma import_follows_handleNotFound_witness :
  let tracked := snd (createAffinityGroup holds_anti new_anti) in
  exists d',
    importAffinityGroup always_fails clear_and_drop tracked
    = (Ok (Some [d'], None), d')
    /\ Id tracked = "ag-1" /\ Id d' = "".
Proof.
  eexists. split.
  - apply (import_follows_handleNotFound always_fails clear_and_drop
             (snd (createAffinityGroup holds_anti new_anti)) _ err_not_found None);
      reflexivity.
  - split; reflexivity.
Defined.

End AffinityGroupFacts.

(* ===================================================================== *)
(** ** Security group: no rollback                                         *)
(* ===================================================================== *)

Module SecurityGroupCalls.
Import SecurityGroupResource SecurityGroupLifecycle.

Lemma deletes_issued_adds (z : string) (sg : SecurityGroup) (l : list string) :
  deletes_issued (map (AddExternalSourceToSecurityGroup z sg) l) = [].
Proof. by induction l. Qed.

Lemma deletes_issued_removes (z : string) (sg : SecurityGroup) (l : list string) :
  deletes_issued (map (RemoveExternalSourceFromSecurityGroup z sg) l) = [].
Proof. by induction l. Qed.

Section WithClient.

Variable defaultZone : string.
Variable client : Client.

(** X25. No rollback: in no run does Create or Update of a security
    group issue a delete call. A group that was created stays on the
    remote system when an add call of Create fails, whatever the answers
    of the remote system. *)
Theorem security_group_create_and_update_never_delete
  (d : ResourceData) (h : list Call) :
  deletes_issued
    (drop (length h)
       (w_calls (snd (resourceSecurityGroupCreate defaultZone client
                        {| w_d := d; w_calls := h |})))) = []
  /\ deletes_issued
       (drop (length h)
          (w_calls (snd (resourceSecurityGroupUpdate defaultZone client
                           {| w_d := d; w_calls := h |})))) = [].
Proof.
  split.
  - unfold resourceSecurityGroupCreate. run_sg.
    destruct (answer_CreateSecurityGroup client h defaultZone _) as [err|sg]; cbn.
    { by rewrite drop_app_length. }
    case_bool_decide as Hs; cbn.
    + destruct (range_until_error_prefix
                  (fun cidr h0 =>
                     answer_AddExternalSourceToSecurityGroup client h0 defaultZone sg cidr)
                  (AddExternalSourceToSecurityGroup defaultZone sg)
                  (Set_List (default (external_sources (planned d)) (set_external_sources d)))
                  {| w_d := d;
                     w_calls := h ++ [CreateSecurityGroup defaultZone
                       {| SG_Description :=
                            nonEmptyStringPtr
                              (default (description (planned d)) (set_description d));
                          SG_ExternalSources := None; SG_ID := None;
                          SG_Name :=
                            nonEmptyStringPtr (default (name (planned d)) (set_name d)) |}] |})
        as (e & k & Hrun & _).
      rewrite Hrun. cbn.
      destruct e as [err|]; cbn; [|destruct (SG_ID sg); cbn;
                                   [rewrite security_group_read_calls; cbn|]];
        rewrite <- !app_assoc, drop_app_length;
        change (?x :: ?l) with ([x] ++ l);
        rewrite !deletes_issued_app, deletes_issued_adds; reflexivity.
    + destruct (SG_ID sg); cbn; [rewrite security_group_read_calls; cbn|];
        rewrite <- ?app_assoc, drop_app_length; reflexivity.
  - unfold resourceSecurityGroupUpdate. run_sg.
    destruct (answer_GetSecurityGroup client h defaultZone (Id d)) as [err|sg]; cbn.
    { by rewrite drop_app_length. }
    case_bool_decide as Hchg; cbn; cycle 1.
    { rewrite security_group_read_calls. cbn. by rewrite <- app_assoc, drop_app_length. }
    destruct (guarded_range_prefix
                (fun cidr h0 =>
                   answer_AddExternalSourceToSecurityGroup client h0 defaultZone sg cidr)
                (AddExternalSourceToSecurityGroup defaultZone sg)
                (external_sources (planned d) ∖ external_sources (prior d))
                {| w_d := d; w_calls := h ++ [GetSecurityGroup defaultZone (Id d)] |})
      as (e1 & k1 & Hrun1).
    rewrite Hrun1. cbn.
    destruct e1 as [err1|]; cbn.
    { rewrite <- app_assoc, drop_app_length.
      change (?x :: ?l) with ([x] ++ l).
      by rewrite deletes_issued_app, deletes_issued_adds. }
    destruct (guarded_range_prefix
                (fun cidr h0 =>
                   answer_RemoveExternalSourceFromSecurityGroup client h0 defaultZone sg cidr)
                (RemoveExternalSourceFromSecurityGroup defaultZone sg)
                (external_sources (prior d) ∖ external_sources (planned d))
                {| w_d := d;
                   w_calls := (h ++ [GetSecurityGroup defaultZone (Id d)])
                              ++ map (AddExternalSourceToSecurityGroup defaultZone sg)
                                   (take k1 (Set_List (external_sources (planned d)
                                                       ∖ external_sources (prior d)))) |})
      as (e2 & k2 & Hrun2).
    rewrite Hrun2. cbn.
    destruct e2 as [err2|]; cbn; [|rewrite security_group_read_calls; cbn];
      rewrite <- !app_assoc, drop_app_length;
      change (?x :: ?l) with ([x] ++ l);
      rewrite !deletes_issued_app, deletes_issued_adds, deletes_issued_removes;
      reflexivity.
Qed.

End WithClient.

End SecurityGroupCalls.
